(** * ai_crawlers: the extraction-and-validation pipeline of [scripts/main.py]

    The script fetches a leaderboard page through an external crawler, parses
    the extracted text with [json.loads], validates every item with the
    pydantic model [LeaderboardEntry], prints a summary and dumps the
    validated records to [leaderboard_data.json].

    The development embeds:
    - Python values produced by [json.loads] (type [json]);
    - Python [float] as IEEE binary64, through the axiom-free [spec_float];
    - Python [str] as its UTF-8 byte sequence (Rocq [string]), a lone
      surrogate being kept as the three bytes of its value;
    - the [json] decoder, with the limit on the digits of an int and the
      limit on nesting, and the encoder used by [json.dump] with
      [indent=2, ensure_ascii=False], chunk by chunk;
    - pydantic (v2, lax mode) validation of [int], [float] and [str] fields;
    - [main] as a program in a state-and-exception monad over a world that
      holds the output file and the trace of observable events.

    The crawler and the language model stay outside: what they return is the
    [CrawlResult] given to [main], whose diagnostic text is text that can be
    printed.  The console and the output file encode UTF-8 strictly, so that
    a lone surrogate raises [UnicodeEncodeError]; the limit on the digits of
    an int is the interpreter's default, 4300; how many arrays and objects
    [json.loads] can enter inside one another before the interpreter's
    recursion limit is a parameter of the world. *)

From Stdlib Require Import ZArith List String Ascii Bool Lia Permutation.
From Stdlib Require Import DecimalString.
From Stdlib Require DecimalFacts DecimalPos DecimalZ.
From Stdlib Require Import Floats.SpecFloat.
Import ListNotations.
Local Open Scope string_scope.
Local Open Scope Z_scope.

#[local] Set Warnings "-register-all".

(** ** Text helpers *)

Definition chr (n : nat) : string := String (ascii_of_nat n) EmptyString.

(** The double-quote character and the newline, which cannot be written
    inside a literal. *)
Definition dq : string := chr 34.
Definition nl : string := chr 10.

(** [qq s] is [s] with every apostrophe turned into a double quote, so that
    JSON texts stay readable in statements. *)
Fixpoint qq (s : string) : string :=
  match s with
  | EmptyString => EmptyString
  | String c r => String (if Ascii.eqb c "'"%char then ascii_of_nat 34 else c) (qq r)
  end.

Fixpoint concat_str (l : list string) : string :=
  match l with
  | [] => EmptyString
  | s :: r => s ++ concat_str r
  end.

(** [sep.join(l)] *)
Fixpoint join (sep : string) (l : list string) : string :=
  match l with
  | [] => EmptyString
  | [s] => s
  | s :: r => s ++ sep ++ join sep r
  end.

Fixpoint repeat_str (s : string) (n : nat) : string :=
  match n with
  | O => EmptyString
  | S k => s ++ repeat_str s k
  end.

(** [int.__repr__] *)
Definition repr_int (z : Z) : string := NilZero.string_of_int (Z.to_int z).

Definition code (c : ascii) : Z := Z.of_nat (nat_of_ascii c).

Definition is_digit (c : ascii) : bool := (48 <=? code c) && (code c <=? 57).

Definition digit_val (c : ascii) : Z := code c - 48.

Fixpoint all_digits (s : string) : bool :=
  match s with
  | EmptyString => true
  | String c r => is_digit c && all_digits r
  end.

(** Value of a digit string read left to right, from accumulator [acc]. *)
Fixpoint digits_value (acc : Z) (s : string) : Z :=
  match s with
  | EmptyString => acc
  | String c r => digits_value (10 * acc + digit_val c) r
  end.

Definition slen (s : string) : Z := Z.of_nat (String.length s).

(** The characters of a [str]: a UTF-8 lead byte with its continuation
    bytes. *)
Fixpoint chars (s : string) : list string :=
  match s with
  | EmptyString => []
  | String c r =>
      match chars r with
      | t :: l =>
          match t with
          | String c' _ =>
              if (128 <=? code c') && (code c' <? 192) then String c t :: l
              else String c EmptyString :: t :: l
          | EmptyString => String c EmptyString :: t :: l
          end
      | [] => [String c EmptyString]
      end
  end.

(** A surrogate, U+D800 to U+DFFF, is the lead byte 237 followed by a byte
    from 160 to 191.  Such a code point has no UTF-8 encoding: a [str] that
    holds one cannot be printed or written to a file opened with
    [encoding="utf-8"]. *)
Fixpoint has_surrogate (s : string) : bool :=
  match s with
  | EmptyString => false
  | String a r =>
      (if code a =? 237
       then match r with
            | String b _ => (160 <=? code b) && (code b <=? 191)
            | EmptyString => false
            end
       else false)
      || has_surrogate r
  end.

(** The most digits an int can have when it is converted from or to a
    [str]: [sys.get_int_max_str_digits()]. *)
Definition max_str_digits : Z := 4300.

(** ** Python floats: IEEE 754 binary64 *)

Module PyFloat.

Definition float : Type := spec_float.

Definition prec : Z := 53.
Definition emax : Z := 1024.

Definition eqb (x y : float) : bool :=
  match x, y with
  | S754_zero a, S754_zero b => Bool.eqb a b
  | S754_infinity a, S754_infinity b => Bool.eqb a b
  | S754_nan, S754_nan => true
  | S754_finite a m e, S754_finite b n f => Bool.eqb a b && Pos.eqb m n && Z.eqb e f
  | _, _ => false
  end.

Definition is_finite (x : float) : bool :=
  match x with
  | S754_zero _ | S754_finite _ _ _ => true
  | _ => false
  end.

(** Nearest binary64 (ties to even) of the integer [m] scaled by [2^e]. *)
Definition of_scaled (m e : Z) : float := binary_normalize prec emax m e false.

(** [float(n)] for a Python int: correctly rounded, [OverflowError] (here
    [None]) when the result is out of range. *)
Definition of_int (n : Z) : option float :=
  let f := of_scaled n 0 in
  if is_finite f then Some f else None.

(** Correctly rounded value of the decimal [(-1)^neg * d * 10^e], [0 <= d]:
    what [float(str)] computes.  For a negative exponent the quotient is
    taken with more than 60 bits and a sticky bit, which is enough to round
    to 53 bits as the exact quotient would. *)
Definition of_decimal (neg : bool) (d e : Z) : float :=
  if d =? 0 then S754_zero neg
  else if 0 <=? e then of_scaled (cond_Zopp neg (d * 10 ^ e)) 0
  else
    let den := 10 ^ (- e) in
    let k := Z.max 0 (Z.log2 den - Z.log2 d + 64) in
    let n := d * 2 ^ k in
    let q := n / den in
    let sticky := if n mod den =? 0 then 0 else 1 in
    of_scaled (cond_Zopp neg (2 * q + sticky)) (- k - 1).

(** The integer value of a float without fractional part. *)
Definition to_integral (x : float) : option Z :=
  match x with
  | S754_zero _ => Some 0
  | S754_finite s m e =>
      if 0 <=? e then Some (cond_Zopp s (Zpos m * 2 ^ e))
      else if Zpos m mod 2 ^ (- e) =? 0 then Some (cond_Zopp s (Zpos m / 2 ^ (- e)))
      else None
  | _ => None
  end.

(** *** [float.__repr__]: the shortest decimal string that reads back *)

(** [m * 2^e < 10^k] *)
Definition lt_pow10 (m e k : Z) : bool :=
  let num := m * 2 ^ Z.max e 0 in
  let den := 2 ^ Z.max (- e) 0 in
  if 0 <=? k then num <? 10 ^ k * den else num * 10 ^ (- k) <? den.

(** The position of the decimal point: the [k] with
    [10^(k-1) <= m * 2^e < 10^k]. *)
Definition decimal_point (m e : Z) : Z :=
  let est := ((Z.log2 m + e) * 30103) / 100000 in
  let fix search (n : nat) (k : Z) : Z :=
    match n with
    | O => k
    | S n' => if lt_pow10 m e k then k else search n' (k + 1)
    end in
  search 6%nat (est - 1).

(** Strip the trailing zeros of a digit sequence [d * 10^e]. *)
Fixpoint strip_zeros (fuel : nat) (d e : Z) : Z * Z :=
  match fuel with
  | O => (d, e)
  | S f => if (d mod 10 =? 0) && negb (d =? 0) then strip_zeros f (d / 10) (e + 1) else (d, e)
  end.

(** The candidates with [n] significant digits on both sides of [m * 2^e],
    nearest first. *)
Definition candidates (m e k : Z) (n : Z) : list (Z * Z) :=
  let E := k - n in
  let num := m * 2 ^ Z.max e 0 * 10 ^ Z.max (- E) 0 in
  let den := 2 ^ Z.max (- e) 0 * 10 ^ Z.max E 0 in
  let lo := num / den in
  let r := num mod den in
  if r =? 0 then [(lo, E)]
  else if 2 * r <? den then [(lo, E); (lo + 1, E)]
  else if den <? 2 * r then [(lo + 1, E); (lo, E)]
  else if Z.even lo then [(lo, E); (lo + 1, E)] else [(lo + 1, E); (lo, E)].

Fixpoint find_round_trip (x : float) (l : list (Z * Z)) : option (Z * Z) :=
  match l with
  | [] => None
  | (d, E) :: r => if eqb (of_decimal false d E) x then Some (d, E) else find_round_trip x r
  end.

(** Shortest digits [d * 10^E] that read back as the positive float
    [m * 2^e]; 17 digits always suffice. *)
Definition shortest (m : positive) (e : Z) : Z * Z :=
  let x := S754_finite false m e in
  let k := decimal_point (Zpos m) e in
  let fix search (fuel : nat) (n : Z) : Z * Z :=
    match fuel with
    | O => (Zpos m, 0)
    | S f =>
        match find_round_trip x (candidates (Zpos m) e k n) with
        | Some (d, E) => strip_zeros 400 d E
        | None => search f (n + 1)
        end
    end in
  search 17%nat 1.

(** Layout of the digits as [repr] does it: exponent form when the decimal
    point falls left of [-4] or right of [16], fixed form otherwise. *)
Definition layout (ds : string) (dp : Z) : string :=
  let nd := slen ds in
  if (dp <=? -4) || (16 <? dp) then
    let mant :=
      match ds with
      | String c EmptyString => ds
      | String c r => String c ("." ++ r)
      | EmptyString => ds
      end in
    let x := dp - 1 in
    let xs := repr_int (Z.abs x) in
    mant ++ "e" ++ (if x <? 0 then "-" else "+")
         ++ (if Z.abs x <? 10 then "0" else EmptyString) ++ xs
  else if dp <=? 0 then "0." ++ repeat_str "0" (Z.to_nat (- dp)) ++ ds
  else if nd <=? dp then ds ++ repeat_str "0" (Z.to_nat (dp - nd)) ++ ".0"
  else substring 0 (Z.to_nat dp) ds ++ "." ++ substring (Z.to_nat dp) (Z.to_nat (nd - dp)) ds.

(** [float.__repr__], also [str(x)] and [format(x, '')]. *)
Definition repr (x : float) : string :=
  match x with
  | S754_nan => "nan"
  | S754_infinity s => if s then "-inf" else "inf"
  | S754_zero s => if s then "-0.0" else "0.0"
  | S754_finite s m e =>
      let '(d, E) := shortest m e in
      let ds := repr_int d in
      (if s then "-" else EmptyString) ++ layout ds (slen ds + E)
  end.

End PyFloat.

Definition float : Type := PyFloat.float.

(** ** Python values built by [json.loads] *)

Inductive json : Type :=
| JNull
| JBool (b : bool)
| JInt (n : Z)
| JFloat (x : float)
| JStr (s : string)
| JList (l : list json)
| JDict (d : list (string * json)).

(** A [dict] with [str] keys keeps insertion order; [d[k] = v] overwrites the
    value of a key that is present and appends a new key. *)
Definition dict (A : Type) : Type := list (string * A).

Fixpoint dict_get {A} (d : dict A) (k : string) : option A :=
  match d with
  | [] => None
  | (k', v) :: r => if String.eqb k' k then Some v else dict_get r k
  end.

Fixpoint dict_set {A} (d : dict A) (k : string) (v : A) : dict A :=
  match d with
  | [] => [(k, v)]
  | (k', v') :: r => if String.eqb k' k then (k', v) :: r else (k', v') :: dict_set r k v
  end.

Definition keys {A} (d : dict A) : list string := map fst d.

(** ** Exceptions

    The kinds of error pydantic reports for a field, and the exceptions the
    script can meet after the crawler has returned. *)

Inductive error_type : Type :=
| missing
| int_type
| int_parsing
| int_parsing_size
| int_from_float
| finite_number
| float_type
| float_parsing
| string_type
| string_unicode.

Inductive exn : Type :=
| JSONDecodeError
| ValueError
| RecursionError
| ValidationError (errors : list (string * error_type))
| TypeError
| UnicodeEncodeError
| OSError.

(** ** [json.loads] *)

Module Decoder.

Definition is_ws (c : ascii) : bool :=
  let n := code c in (n =? 32) || (n =? 9) || (n =? 10) || (n =? 13).

Fixpoint skip_ws (s : string) : string :=
  match s with
  | String c r => if is_ws c then skip_ws r else s
  | EmptyString => s
  end.

Fixpoint drop (n : nat) (s : string) : string :=
  match n, s with
  | S k, String _ r => drop k r
  | _, _ => s
  end.

(** Longest prefix of digits, and the rest. *)
Fixpoint span_digits (s : string) : string * string :=
  match s with
  | String c r =>
      if is_digit c then let '(d, t) := span_digits r in (String c d, t)
      else (EmptyString, s)
  | EmptyString => (EmptyString, s)
  end.

Definition hex_val (c : ascii) : option Z :=
  let n := code c in
  if (48 <=? n) && (n <=? 57) then Some (n - 48)
  else if (97 <=? n) && (n <=? 102) then Some (n - 87)
  else if (65 <=? n) && (n <=? 70) then Some (n - 55)
  else None.

(** Four hexadecimal digits. *)
Definition hex4 (s : string) : option (Z * string) :=
  match s with
  | String a (String b (String c (String d r))) =>
      match hex_val a, hex_val b, hex_val c, hex_val d with
      | Some x, Some y, Some z, Some w => Some (((x * 16 + y) * 16 + z) * 16 + w, r)
      | _, _, _, _ => None
      end
  | _ => None
  end.

Definition byte (n : Z) : string := chr (Z.to_nat n).

(** UTF-8 encoding of a code point; a lone surrogate gets the three-byte
    form of its value. *)
Definition utf8 (cp : Z) : string :=
  if cp <? 128 then byte cp
  else if cp <? 2048 then byte (192 + cp / 64) ++ byte (128 + cp mod 64)
  else if cp <? 65536 then
    byte (224 + cp / 4096) ++ byte (128 + (cp / 64) mod 64) ++ byte (128 + cp mod 64)
  else
    byte (240 + cp / 262144) ++ byte (128 + (cp / 4096) mod 64)
      ++ byte (128 + (cp / 64) mod 64) ++ byte (128 + cp mod 64).

Definition backslash (c : ascii) : option string :=
  let n := code c in
  if n =? 34 then Some dq
  else if n =? 92 then Some (chr 92)
  else if n =? 47 then Some "/"
  else if n =? 98 then Some (chr 8)
  else if n =? 102 then Some (chr 12)
  else if n =? 110 then Some (chr 10)
  else if n =? 114 then Some (chr 13)
  else if n =? 116 then Some (chr 9)
  else None.

(** The code point written by a [\u] escape whose four digits start [s], and
    what follows it: a high surrogate followed by the escape of a low one is
    joined with it. *)
Definition unicode_escape (s : string) : option (Z * string) :=
  match hex4 s with
  | None => None
  | Some (u, r) =>
      if (55296 <=? u) && (u <=? 56319) && prefix (chr 92 ++ "u") r then
        match hex4 (drop 2 r) with
        | None => None
        | Some (u2, r2) =>
            if (56320 <=? u2) && (u2 <=? 57343)
            then Some (65536 + (u - 55296) * 1024 + (u2 - 56320), r2)
            else Some (u, r)
        end
      else Some (u, r)
  end.

(** [scanstring], strict: the text after the opening quote up to the closing
    one; control characters are refused and escapes decoded. *)
Fixpoint scanstring (fuel : nat) (s : string) : option (string * string) :=
  match fuel with
  | O => None
  | S f =>
      match s with
      | EmptyString => None
      | String c r =>
          if code c =? 34 then Some (EmptyString, r)
          else if code c <? 32 then None
          else if code c =? 92 then
            match r with
            | EmptyString => None
            | String e r1 =>
                if code e =? 117 then
                  match unicode_escape r1 with
                  | None => None
                  | Some (cp, r2) =>
                      match scanstring f r2 with
                      | Some (t, rest) => Some (utf8 cp ++ t, rest)
                      | None => None
                      end
                  end
                else
                  match backslash e with
                  | None => None
                  | Some x =>
                      match scanstring f r1 with
                      | Some (t, rest) => Some (x ++ t, rest)
                      | None => None
                      end
                  end
            end
          else
            match scanstring f r with
            | Some (t, rest) => Some (String c t, rest)
            | None => None
            end
      end
  end.

(** The parts of a number: an optional minus sign; the integer part, a zero
    or digits that do not start with one; a dot followed by digits; an
    exponent mark with an optional sign and digits, left unread when no digit
    follows. *)
Definition minus_sign (s : string) : bool * string :=
  match s with
  | String c r => if code c =? 45 then (true, r) else (false, s)
  | EmptyString => (false, s)
  end.

Definition integer_part (s : string) : option (string * string) :=
  match s with
  | String c r =>
      if is_digit c then Some (if code c =? 48 then ("0", r) else span_digits s) else None
  | EmptyString => None
  end.

Definition fraction_part (s : string) : option string * string :=
  match s with
  | String p (String d r) =>
      if (code p =? 46) && is_digit d
      then let '(f, t) := span_digits (String d r) in (Some f, t)
      else (None, s)
  | _ => (None, s)
  end.

Definition exponent_part (s : string) : option Z * string :=
  match s with
  | String e r =>
      if (code e =? 101) || (code e =? 69) then
        let '(sg, r1) :=
          match r with
          | String g t =>
              if code g =? 45 then (true, t)
              else if code g =? 43 then (false, t) else (false, r)
          | EmptyString => (false, r)
          end in
        let '(ds, r2) := span_digits r1 in
        match ds with
        | EmptyString => (None, s)
        | _ => (Some (cond_Zopp sg (digits_value 0 ds)), r2)
        end
      else (None, s)
  | EmptyString => (None, s)
  end.

(** The number at the head of [s]: an int when it has neither fraction nor
    exponent, a float otherwise.  [int] refuses an integer of more than
    4300 digits with [ValueError]; [float] takes any number of digits. *)
Definition match_number (s : string) : exn + (json * string) :=
  let '(neg, s1) := minus_sign s in
  match integer_part s1 with
  | None => inl JSONDecodeError
  | Some (ip, s2) =>
      let '(fp, s3) := fraction_part s2 in
      let '(ex, s4) := exponent_part s3 in
      match fp, ex with
      | None, None =>
          if max_str_digits <? slen ip then inl ValueError
          else inr (JInt (cond_Zopp neg (digits_value 0 ip)), s4)
      | _, _ =>
          let f := match fp with Some f => f | None => EmptyString end in
          let x := match ex with Some x => x | None => 0 end in
          inr (JFloat (PyFloat.of_decimal neg (digits_value 0 (ip ++ f)) (x - slen f)), s4)
      end
  end.

(** [scan_once]: one value at the head of [s].  [parse_array] and
    [parse_object] read what follows the opening bracket, with the items
    read so far.  The scanner enters an array or an object through the
    interpreter's recursion check: [depth] is the number of them it can
    still enter inside one another, and [RecursionError] is raised at the
    bracket that exceeds it.  The fuel bounds the number of calls. *)
Fixpoint scan_once (fuel depth : nat) (s : string) : exn + (json * string) :=
  match fuel with
  | O => inl JSONDecodeError
  | S f =>
      match s with
      | EmptyString => inl JSONDecodeError
      | String c r =>
          let n := code c in
          if n =? 34 then
            match scanstring (S (String.length r)) r with
            | Some (t, rest) => inr (JStr t, rest)
            | None => inl JSONDecodeError
            end
          else if n =? 123 then
            match depth with
            | O => inl RecursionError
            | S d =>
                let r' := skip_ws r in
                if prefix "}" r' then inr (JDict [], drop 1 r') else parse_object f d r' []
            end
          else if n =? 91 then
            match depth with
            | O => inl RecursionError
            | S d =>
                let r' := skip_ws r in
                if prefix "]" r' then inr (JList [], drop 1 r') else parse_array f d r' []
            end
          else if prefix "null" s then inr (JNull, drop 4 s)
          else if prefix "true" s then inr (JBool true, drop 4 s)
          else if prefix "false" s then inr (JBool false, drop 5 s)
          else if prefix "NaN" s then inr (JFloat S754_nan, drop 3 s)
          else if prefix "Infinity" s then inr (JFloat (S754_infinity false), drop 8 s)
          else if prefix "-Infinity" s then inr (JFloat (S754_infinity true), drop 9 s)
          else match_number s
      end
  end
with parse_array (fuel depth : nat) (s : string) (acc : list json) : exn + (json * string) :=
  match fuel with
  | O => inl JSONDecodeError
  | S f =>
      match scan_once f depth s with
      | inl e => inl e
      | inr (v, r) =>
          let r' := skip_ws r in
          if prefix "]" r' then inr (JList (acc ++ [v]), drop 1 r')
          else if prefix "," r' then parse_array f depth (skip_ws (drop 1 r')) (acc ++ [v])
          else inl JSONDecodeError
      end
  end
with parse_object (fuel depth : nat) (s : string) (acc : dict json) : exn + (json * string) :=
  match fuel with
  | O => inl JSONDecodeError
  | S f =>
      match s with
      | EmptyString => inl JSONDecodeError
      | String c r =>
          if negb (code c =? 34) then inl JSONDecodeError
          else
            match scanstring (S (String.length r)) r with
            | None => inl JSONDecodeError
            | Some (k, r1) =>
                let r2 := skip_ws r1 in
                if negb (prefix ":" r2) then inl JSONDecodeError
                else
                  match scan_once f depth (skip_ws (drop 1 r2)) with
                  | inl e => inl e
                  | inr (v, r3) =>
                      let r4 := skip_ws r3 in
                      if prefix "}" r4 then inr (JDict (dict_set acc k v), drop 1 r4)
                      else if prefix "," r4
                      then parse_object f depth (skip_ws (drop 1 r4)) (dict_set acc k v)
                      else inl JSONDecodeError
                  end
            end
      end
  end.

(** [json.loads(s)]: one value between optional whitespace and nothing else.
    It raises [json.JSONDecodeError] on a text that is not JSON,
    [ValueError] on an integer of too many digits and [RecursionError] on
    nesting deeper than [depth], whichever the scanner meets first. *)
Definition loads (depth : nat) (s : string) : exn + json :=
  match scan_once (2 * String.length s + 2) depth (skip_ws s) with
  | inr (v, r) => match skip_ws r with EmptyString => inr v | _ => inl JSONDecodeError end
  | inl e => inl e
  end.

End Decoder.

(** ** [json.dump(obj, f, indent=2, ensure_ascii=False)] *)

Module Encoder.

Definition hex_digit (n : Z) : string :=
  if n <? 10 then chr (Z.to_nat (48 + n)) else chr (Z.to_nat (87 + n)).

(** [ESCAPE_DCT]: the quote, the backslash and the control characters are
    escaped; every other character, non-ASCII included, is kept. *)
Definition escape_char (c : ascii) : string :=
  let n := code c in
  if n =? 34 then chr 92 ++ dq
  else if n =? 92 then chr 92 ++ chr 92
  else if n =? 10 then chr 92 ++ "n"
  else if n =? 13 then chr 92 ++ "r"
  else if n =? 9 then chr 92 ++ "t"
  else if n =? 8 then chr 92 ++ "b"
  else if n =? 12 then chr 92 ++ "f"
  else if n <? 32 then chr 92 ++ "u00" ++ hex_digit (n / 16) ++ hex_digit (n mod 16)
  else String c EmptyString.

Fixpoint escape (s : string) : string :=
  match s with
  | EmptyString => EmptyString
  | String c r => escape_char c ++ escape r
  end.

(** [encode_basestring] *)
Definition encode_basestring (s : string) : string := dq ++ escape s ++ dq.

(** [floatstr], with [allow_nan] left at its default. *)
Definition floatstr (x : float) : string :=
  match x with
  | S754_nan => "NaN"
  | S754_infinity false => "Infinity"
  | S754_infinity true => "-Infinity"
  | _ => PyFloat.repr x
  end.

Definition newline_indent (indent level : nat) : string :=
  nl ++ repeat_str " " (indent * level).

(** The text of all the chunks of [_iterencode], joined: items one per line
    at [level + 1], separated by a comma, keys followed by a colon and a
    space.  It is what the file holds once every chunk has been written. *)
Fixpoint encode (indent level : nat) (v : json) : string :=
  match v with
  | JNull => "null"
  | JBool true => "true"
  | JBool false => "false"
  | JInt n => repr_int n
  | JFloat x => floatstr x
  | JStr s => encode_basestring s
  | JList [] => "[]"
  | JList l =>
      "[" ++ newline_indent indent (S level)
          ++ join ("," ++ newline_indent indent (S level)) (map (encode indent (S level)) l)
          ++ newline_indent indent level ++ "]"
  | JDict [] => "{}"
  | JDict d =>
      "{" ++ newline_indent indent (S level)
          ++ join ("," ++ newline_indent indent (S level))
               (map (fun kv => encode_basestring (fst kv) ++ ": " ++ encode indent (S level) (snd kv)) d)
          ++ newline_indent indent level ++ "}"
  end.

Definition dumps (v : json) : string := encode 2 0 v.

(** [int.__repr__]: an int of more than 4300 digits is refused. *)
Definition intstr (n : Z) : exn + string :=
  if max_str_digits <? slen (repr_int (Z.abs n)) then inl ValueError
  else inr (repr_int n).

(** The text of a value that is yielded in one piece, or the exception its
    conversion raises; arrays and objects are yielded in several chunks. *)
Definition atom (v : json) : option (exn + string) :=
  match v with
  | JStr s => Some (inr (encode_basestring s))
  | JNull => Some (inr "null")
  | JBool true => Some (inr "true")
  | JBool false => Some (inr "false")
  | JInt n => Some (intstr n)
  | JFloat x => Some (inr (floatstr x))
  | JList _ | JDict _ => None
  end.

(** [_iterencode]: the chunks in the order they are yielded, up to a chunk
    whose computation raises.  In an array an item that is not an array or
    an object is yielded together with what separates it from the item
    before; in an object the separator, the key, the colon and the value are
    chunks of their own. *)
Fixpoint iterencode (indent level : nat) (v : json) : list (exn + string) :=
  match v with
  | JList [] => [inr "[]"]
  | JList l =>
      ((fix items (first : bool) (l : list json) : list (exn + string) :=
          match l with
          | [] => []
          | item :: rest =>
              let buf := ((if first then "[" else ",") ++ newline_indent indent (S level))%string in
              (match atom item with
               | Some (inr t) => [inr (buf ++ t)%string]
               | Some (inl e) => [inl e]
               | None => inr buf :: iterencode indent (S level) item
               end ++ items false rest)%list
          end) true l
       ++ [inr (newline_indent indent level); inr "]"])%list
  | JDict [] => [inr "{}"]
  | JDict d =>
      inr "{" :: inr (newline_indent indent (S level))
        :: ((fix members (first : bool) (d : list (string * json)) : list (exn + string) :=
               match d with
               | [] => []
               | (k, x) :: rest =>
                   ((if first then [] else [inr ("," ++ newline_indent indent (S level))%string])
                      ++ inr (encode_basestring k) :: inr ": "
                      :: match atom x with
                         | Some c => [c]
                         | None => iterencode indent (S level) x
                         end ++ members false rest)%list
               end) true d
            ++ [inr (newline_indent indent level); inr "}"])%list
  | _ => match atom v with Some c => [c] | None => [] end
  end.

(** [for chunk in iterable: fp.write(chunk)] on a file opened with
    [encoding="utf-8"]: the chunks are appended one after the other; a chunk
    that holds a surrogate cannot be encoded and nothing of it is written.
    The result is the exception raised, if any, and the text written. *)
Fixpoint write_chunks (chunks : list (exn + string)) (written : string)
  : option exn * string :=
  match chunks with
  | [] => (None, written)
  | inl e :: _ => (Some e, written)
  | inr t :: rest =>
      if has_surrogate t then (Some UnicodeEncodeError, written)
      else write_chunks rest (written ++ t)
  end.

End Encoder.

(** ** pydantic: validation of the field types (lax mode, Python input)

    The conversions follow pydantic-core 2: an [int] field takes an int, a
    bool, a float without fractional part and a string that reads as an
    integer; a [float] field takes a float, an int, a bool and a string that
    reads as a float; a [str] field takes a string only.  A string is read
    as Rust reads a [&str]: it must hold no surrogate, and the white space
    trimmed from it is Unicode's. *)

Module Pydantic.

(** The code points with the property [White_Space], which [str::trim]
    removes. *)
Definition white_space : list string :=
  map Decoder.utf8
      [ 9; 10; 11; 12; 13; 32; 133; 160; 5760; 8192; 8193; 8194; 8195; 8196; 8197; 8198;
        8199; 8200; 8201; 8202; 8232; 8233; 8239; 8287; 12288 ].

Definition is_space (ch : string) : bool := existsb (String.eqb ch) white_space.

Fixpoint trim_start (l : list string) : list string :=
  match l with
  | ch :: r => if is_space ch then trim_start r else l
  | [] => []
  end.

(** [str::trim]: the text without the white space at both ends. *)
Definition trim (s : string) : string :=
  concat_str (rev (trim_start (rev (trim_start (chars s))))).

Fixpoint all_zeros (s : string) : bool :=
  match s with
  | EmptyString => true
  | String c r => (code c =? 48) && all_zeros r
  end.

(** Whether the text starts with an integer in the form of JSON, an
    optional minus sign and digits that do not start with a zero, of more
    than 4300 characters: the first reading of the text refuses it for its
    size, whatever follows. *)
Definition int_too_long (s : string) : bool :=
  let '(neg, body) := Decoder.minus_sign s in
  match body with
  | String c _ =>
      is_digit c && negb (code c =? 48)
      && (4300 <? (if neg then 1 else 0) + slen (fst (Decoder.span_digits body)))
  | EmptyString => false
  end.

(** After a leading zero: further zeros and underscores are skipped up to
    a digit from 1 to 9 or a minus sign, from which the text is kept; before
    a dot the character left of it is kept; a text of zeros and underscores
    keeps its last character, [prev]. *)
Fixpoint skip_zeros (prev : ascii) (s : string) : option string :=
  match s with
  | EmptyString => Some (String prev EmptyString)
  | String c r =>
      if (code c =? 48) || (code c =? 95) then skip_zeros c r
      else if is_digit c || (code c =? 45) then Some s
      else if code c =? 46 then Some (String prev s)
      else None
  end.

(** The text, which must start with a digit, without its leading zeros. *)
Definition strip_leading_zeros (s : string) : option string :=
  match s with
  | String c r => if is_digit c then (if code c =? 48 then skip_zeros c r else Some s) else None
  | EmptyString => None
  end.

(** The text before the first dot, which only zeros, and one at least,
    must follow; a text without a dot as it is. *)
Fixpoint strip_decimal_zeros (s : string) : option string :=
  match s with
  | EmptyString => Some EmptyString
  | String c r =>
      if code c =? 46 then
        match r with
        | EmptyString => None
        | _ => if all_zeros r then Some EmptyString else None
        end
      else
        match strip_decimal_zeros r with
        | Some t => Some (String c t)
        | None => None
        end
  end.

Fixpoint contains_char (n : Z) (s : string) : bool :=
  match s with
  | EmptyString => false
  | String c r => (code c =? n) || contains_char n r
  end.

Fixpoint remove_char (n : Z) (s : string) : string :=
  match s with
  | EmptyString => EmptyString
  | String c r => if code c =? n then remove_char n r else String c (remove_char n r)
  end.

Fixpoint ends_with_char (n : Z) (s : string) : bool :=
  match s with
  | EmptyString => false
  | String c EmptyString => code c =? n
  | String _ r => ends_with_char n r
  end.

Fixpoint has_double (n : Z) (s : string) : bool :=
  match s with
  | String a ((String b _) as r) => ((code a =? n) && (code b =? n)) || has_double n r
  | _ => false
  end.

(** The text without its underscores, none of which may be first, last or
    doubled. *)
Definition strip_underscores (s : string) : option string :=
  if negb (contains_char 95 s) then Some s
  else if prefix "_" s || ends_with_char 95 s || has_double 95 s then None
  else Some (remove_char 95 s).

(** An integer in the form of JSON: an optional minus sign, then a zero or
    digits that do not start with one. *)
Definition json_int (s : string) : option Z :=
  let '(neg, d) := Decoder.minus_sign s in
  match d with
  | String c r =>
      if all_digits d && (negb (code c =? 48) || String.eqb r EmptyString)
      then Some (cond_Zopp neg (digits_value 0 d))
      else None
  | EmptyString => None
  end.

Definition split_sign (s : string) : bool * string :=
  match s with
  | String c r =>
      if code c =? 45 then (true, r) else if code c =? 43 then (false, r) else (false, s)
  | EmptyString => (false, s)
  end.

(** [str_as_int]: the text is trimmed, a sign is set aside, leading zeros,
    a decimal part of zeros and underscores are removed, and what is left
    must be an integer of at most 4300 characters. *)
Definition str_as_int (s : string) : error_type + Z :=
  if has_surrogate s then inl string_unicode
  else if int_too_long s then inl int_parsing_size
  else
    let '(neg, body) := split_sign (trim s) in
    match strip_leading_zeros body with
    | None => inl int_parsing
    | Some b =>
        match strip_decimal_zeros ((if neg then "-" else EmptyString) ++ b) with
        | None => inl int_parsing
        | Some u =>
            match strip_underscores u with
            | None => inl int_parsing
            | Some t =>
                if 4300 <? slen t then inl int_parsing
                else match json_int t with
                     | Some n => inr n
                     | None => inl int_parsing
                     end
            end
        end
    end.

(** [float_as_int] *)
Definition float_as_int (x : float) : error_type + Z :=
  if negb (PyFloat.is_finite x) then inl finite_number
  else
    match PyFloat.to_integral x with
    | None => inl int_from_float
    | Some n => if (- 2 ^ 63 <? n) && (n <? 2 ^ 63) then inr n else inl int_parsing_size
    end.

Definition lower (c : ascii) : ascii :=
  let n := code c in
  if (65 <=? n) && (n <=? 90) then ascii_of_nat (Z.to_nat (n + 32)) else c.

Fixpoint lowercase (s : string) : string :=
  match s with
  | EmptyString => EmptyString
  | String c r => String (lower c) (lowercase r)
  end.

(** The decimal grammar of a float literal: digits with an optional dot on
    either side of them, and an optional exponent. *)
Definition parse_float (s : string) : option float :=
  let '(neg, u) := split_sign s in
  let w := lowercase u in
  if String.eqb w "inf" || String.eqb w "infinity" then Some (S754_infinity neg)
  else if String.eqb w "nan" then Some S754_nan
  else
    let '(ip, r1) := Decoder.span_digits u in
    let '(dot, fp, r2) :=
      match r1 with
      | String c r =>
          if code c =? 46 then let '(f, t) := Decoder.span_digits r in (true, f, t)
          else (false, EmptyString, r1)
      | EmptyString => (false, EmptyString, r1)
      end in
    match ip ++ fp with
    | EmptyString => None
    | ds =>
        match r2 with
        | EmptyString => Some (PyFloat.of_decimal neg (digits_value 0 ds) (- slen fp))
        | String e r3 =>
            if (code e =? 101) || (code e =? 69) then
              let '(sg, r4) := split_sign r3 in
              match r4 with
              | EmptyString => None
              | _ =>
                  if all_digits r4
                  then Some (PyFloat.of_decimal neg (digits_value 0 ds)
                               (cond_Zopp sg (digits_value 0 r4) - slen fp))
                  else None
              end
            else None
        end
    end.

(** [str_as_float]: the trimmed text, or else the text without its
    underscores, read as Rust reads an [f64]. *)
Definition str_as_float (s : string) : error_type + float :=
  if has_surrogate s then inl string_unicode
  else
    match parse_float (trim s) with
    | Some x => inr x
    | None =>
        if contains_char 95 s then
          match strip_underscores s with
          | Some u => match parse_float u with Some x => inr x | None => inl float_parsing end
          | None => inl float_parsing
          end
        else inl float_parsing
    end.

(** A field annotated [int]. *)
Definition validate_int (v : json) : error_type + Z :=
  match v with
  | JInt n => inr n
  | JBool b => inr (if b then 1 else 0)
  | JStr s => str_as_int s
  | JFloat x => float_as_int x
  | _ => inl int_type
  end.

(** A field annotated [float]; infinities and NaN are allowed. *)
Definition validate_float (v : json) : error_type + float :=
  match v with
  | JFloat x => inr x
  | JStr s => str_as_float s
  | JInt n => match PyFloat.of_int n with Some x => inr x | None => inl float_type end
  | JBool b => inr (if b then PyFloat.of_scaled 1 0 else S754_zero false)
  | _ => inl float_type
  end.

(** A field annotated [str]: numbers are not turned into text. *)
Definition validate_str (v : json) : error_type + string :=
  match v with
  | JStr s => inr s
  | _ => inl string_type
  end.

(** One entry of a [ValidationError]: the key of the field in the input and
    the kind of the error. *)
Definition line_error : Type := string * error_type.

(** A required field read under [key]. *)
Definition field {A} (kw : dict json) (key : string) (validate : json -> error_type + A)
  : list line_error + A :=
  match dict_get kw key with
  | None => inl [(key, missing)]
  | Some v =>
      match validate v with
      | inl t => inl [(key, t)]
      | inr a => inr a
      end
  end.

(** Fields are validated one after the other and all their errors kept. *)
Definition ap {A B} (f : list line_error + (A -> B)) (x : list line_error + A)
  : list line_error + B :=
  match f, x with
  | inr g, inr a => inr (g a)
  | inr _, inl e => inl e
  | inl e, inr _ => inl e
  | inl e1, inl e2 => inl (e1 ++ e2)%list
  end.

End Pydantic.

(** ** The model [LeaderboardEntry] *)

Record LeaderboardEntry : Type := {
  rank : Z;
  model : string;
  arena_score : float;
  ci_95 : string;
  votes : Z;
  organization : string;
  license : string
}.

(** The key under which each field is read and written: its alias when it
    has one, its name otherwise. *)
Definition field_keys : list string :=
  ["rank"; "model"; "arena score"; "95% CI"; "votes"; "organization"; "license"].

(** The constructor call of [LeaderboardEntry] with the keyword arguments
    [kw]: every field is required and looked up under its key only; keys that
    belong to no field are ignored. *)
Definition LeaderboardEntry_init (kw : dict json) : exn + LeaderboardEntry :=
  let fields :=
    Pydantic.ap (Pydantic.ap (Pydantic.ap (Pydantic.ap (Pydantic.ap (Pydantic.ap (Pydantic.ap
      (inr Build_LeaderboardEntry)
      (Pydantic.field kw "rank" Pydantic.validate_int))
      (Pydantic.field kw "model" Pydantic.validate_str))
      (Pydantic.field kw "arena score" Pydantic.validate_float))
      (Pydantic.field kw "95% CI" Pydantic.validate_str))
      (Pydantic.field kw "votes" Pydantic.validate_int))
      (Pydantic.field kw "organization" Pydantic.validate_str))
      (Pydantic.field kw "license" Pydantic.validate_str) in
  match fields with
  | inr entry => inr entry
  | inl errors => inl (ValidationError errors)
  end.

(** [entry.model_dump(by_alias=True)] *)
Definition model_dump (entry : LeaderboardEntry) : dict json :=
  [ ("rank", JInt (rank entry));
    ("model", JStr (model entry));
    ("arena score", JFloat (arena_score entry));
    ("95% CI", JStr (ci_95 entry));
    ("votes", JInt (votes entry));
    ("organization", JStr (organization entry));
    ("license", JStr (license entry)) ].

(** ** The world of the script: the output file and what can be observed *)

Definition OUTPUT_FILE : string := "leaderboard_data.json".

(** The result of [crawler.arun].  The diagnostic text comes from the
    crawler as text that can be printed: it holds no lone surrogate. *)
Record CrawlResult : Type := {
  success : bool;
  extracted_content : string;
  error_message : string;
  error_message_text : has_surrogate error_message = false
}.

(** What a [print] call shows: a text fixed by the script, or the text of
    the generic handler, which ends with [str(e)] of the exception caught. *)
Inductive line : Type :=
| Text (s : string)
| Unexpected (e : exn).

(** What a run does that can be observed from outside: [Write path text]
    stands for closing the file [path] with [text] in it. *)
Inductive event : Type :=
| Loads (s : string)
| Validate (kw : dict json)
| Print (l : line)
| Open (path : string)
| Write (path text : string)
| ShowUsage.

(** The file, whether it can be opened for writing, how many arrays and
    objects [json.loads] can enter inside one another before the
    interpreter's recursion limit, and what has happened so far. *)
Record World : Type := {
  file : option string;
  can_open : bool;
  nesting : nat;
  events : list event
}.

Definition emit_event (ev : event) (w : World) : World :=
  {| file := file w; can_open := can_open w; nesting := nesting w;
     events := (events w ++ [ev])%list |}.

Definition set_file (text : string) (w : World) : World :=
  {| file := Some text; can_open := can_open w; nesting := nesting w; events := events w |}.

(** Programs change the world and end with a value or an exception; the
    changes made before an exception was raised stay. *)
Definition Prog (A : Type) : Type := World -> (exn + A) * World.

Definition ret {A} (a : A) : Prog A := fun w => (inr a, w).

Definition raise {A} (e : exn) : Prog A := fun w => (inl e, w).

Definition bind {A B} (m : Prog A) (k : A -> Prog B) : Prog B :=
  fun w =>
    match m w with
    | (inr a, w') => k a w'
    | (inl e, w') => (inl e, w')
    end.

Definition try_except {A} (m : Prog A) (handler : exn -> Prog A) : Prog A :=
  fun w =>
    match m w with
    | (inr a, w') => (inr a, w')
    | (inl e, w') => handler e w'
    end.

Definition emit (ev : event) : Prog unit := fun w => (inr tt, emit_event ev w).

Declare Scope prog_scope.
Delimit Scope prog_scope with prog.
Notation "x <- m ;; k" := (bind m (fun x => k))
  (at level 100, m at next level, right associativity) : prog_scope.
Notation "m ;; k" := (bind m (fun _ => k))
  (at level 100, right associativity) : prog_scope.
Local Open Scope prog_scope.

(** A line can be printed when the console can encode it.  The text of the
    generic handler ends with [str(e)], which shows the characters of the
    input through [repr], surrogates escaped. *)
Definition printable (l : line) : bool :=
  match l with
  | Text s => negb (has_surrogate s)
  | Unexpected _ => true
  end.

(** [print(...)]: nothing is shown of a line that cannot be encoded. *)
Definition print (l : line) : Prog unit :=
  fun w => if printable l then (inr tt, emit_event (Print l) w)
           else (inl UnicodeEncodeError, w).

(** [json.loads(s)] *)
Definition json_loads (s : string) : Prog json :=
  emit (Loads s) ;;
  fun w => (Decoder.loads (nesting w) s, w).

(** [iter(raw_data)]: the items of a list, the keys of a dict, the
    characters of a str; nothing else can be iterated. *)
Definition iterate (raw_data : json) : Prog (list json) :=
  match raw_data with
  | JList l => ret l
  | JDict d => ret (map JStr (keys d))
  | JStr s => ret (map JStr (chars s))
  | _ => raise TypeError
  end.

(** The constructor call with [item] unpacked as keyword arguments: [item]
    must be a mapping. *)
Definition construct (item : json) : Prog LeaderboardEntry :=
  match item with
  | JDict kw =>
      emit (Validate kw) ;;
      match LeaderboardEntry_init kw with
      | inr entry => ret entry
      | inl e => raise e
      end
  | _ => raise TypeError
  end.

(** The list comprehension that constructs an entry for each item in turn. *)
Fixpoint comprehension (items : list json) : Prog (list LeaderboardEntry) :=
  match items with
  | [] => ret []
  | item :: rest =>
      entry <- construct item ;;
      entries <- comprehension rest ;;
      ret (entry :: entries)
  end.

Fixpoint for_each {A} (l : list A) (body : A -> Prog unit) : Prog unit :=
  match l with
  | [] => ret tt
  | a :: r => body a ;; for_each r body
  end.

(** [with open(path, "w", encoding="utf-8") as f: json.dump(obj, f, indent=2,
    ensure_ascii=False)]: the file is truncated when it is opened, the
    chunks are written one after the other, and the file is closed with
    what has been written, also when a chunk raises. *)
Definition dump_to_file (path : string) (obj : json) : Prog unit :=
  fun w =>
    if can_open w then
      let '(failure, text) := Encoder.write_chunks (Encoder.iterencode 2 0 obj) EmptyString in
      let w' := set_file text (emit_event (Write path text) (emit_event (Open path) w)) in
      match failure with
      | None => (inr tt, w')
      | Some e => (inl e, w')
      end
    else (inl OSError, w).

Definition show_usage : Prog unit := emit ShowUsage.

Definition summary_header (n : nat) : string :=
  "Datos extraídos exitosamente (" ++ repr_int (Z.of_nat n) ++ " registros):".

Definition summary_entry (entry : LeaderboardEntry) : string :=
  " - " ++ model entry ++ " (" ++ organization entry ++ "): "
        ++ PyFloat.repr (arena_score entry).

Definition saved_message : string := nl ++ "Datos guardados en: " ++ OUTPUT_FILE.

Definition invalid_json_message : string :=
  "Error: Los datos extraídos no son JSON válido".

Definition scraping_error (message : string) : string :=
  "Error en el scraping: " ++ message.

(** The body of [main] once the crawler has returned [result]. *)
Definition main (result : CrawlResult) : Prog unit :=
  if success result then
    try_except
      (raw_data <- json_loads (extracted_content result) ;;
       items <- iterate raw_data ;;
       validated_data <- comprehension items ;;
       print (Text (summary_header (List.length validated_data))) ;;
       for_each (firstn 3 validated_data)
                (fun entry => print (Text (summary_entry entry))) ;;
       dump_to_file OUTPUT_FILE
         (JList (map (fun item => JDict (model_dump item)) validated_data)) ;;
       print (Text saved_message) ;;
       show_usage)
      (fun e =>
         match e with
         | JSONDecodeError => print (Text invalid_json_message)
         | _ => print (Unexpected e)
         end)
  else print (Text (scraping_error (error_message result))).

(** A world in which nothing has happened yet, with room for [depth] arrays
    and objects inside one another. *)
Definition initial (content : option string) (writable : bool) (depth : nat) : World :=
  {| file := content; can_open := writable; nesting := depth; events := [] |}.

Definition ok (text : string) : CrawlResult :=
  {| success := true; extracted_content := text; error_message := EmptyString;
     error_message_text := eq_refl |}.

Definition failed (message : string) (H : has_surrogate message = false) : CrawlResult :=
  {| success := false; extracted_content := EmptyString; error_message := message;
     error_message_text := H |}.

(** ** Views of a run used in the statements *)

Definition add_events (evs : list event) (w : World) : World :=
  {| file := file w; can_open := can_open w; nesting := nesting w;
     events := (events w ++ evs)%list |}.

(** The outcome of constructing one item, and of the whole comprehension. *)
Definition construct_result (item : json) : exn + LeaderboardEntry :=
  match item with
  | JDict kw => LeaderboardEntry_init kw
  | _ => inl TypeError
  end.

Fixpoint comprehension_result (items : list json) : exn + list LeaderboardEntry :=
  match items with
  | [] => inr []
  | item :: rest =>
      match construct_result item with
      | inl e => inl e
      | inr entry =>
          match comprehension_result rest with
          | inl e => inl e
          | inr entries => inr (entry :: entries)
          end
      end
  end.

(** The constructor calls made by the comprehension, up to the first one
    that raises. *)
Fixpoint comprehension_events (items : list json) : list event :=
  match items with
  | JDict kw :: rest =>
      Validate kw ::
        match LeaderboardEntry_init kw with
        | inr _ => comprehension_events rest
        | inl _ => []
        end
  | _ => []
  end.

Definition iterate_result (raw_data : json) : exn + list json :=
  match raw_data with
  | JList l => inr l
  | JDict d => inr (map JStr (keys d))
  | JStr s => inr (map JStr (chars s))
  | _ => inl TypeError
  end.

(** An item the model accepts, with the entry it yields; an item for which
    the constructor call raises. *)
Definition valid_record (item : json) (entry : LeaderboardEntry) : Prop :=
  exists kw, item = JDict kw /\ LeaderboardEntry_init kw = inr entry.

Definition rejected (item : json) : Prop :=
  exists e, construct_result item = inl e.

Definition accepted (item : json) : Prop :=
  exists entry, construct_result item = inr entry.

(** The lines printed, in order. *)
Fixpoint printed (evs : list event) : list line :=
  match evs with
  | [] => []
  | Print l :: r => l :: printed r
  | _ :: r => printed r
  end.

Definition is_file_event (ev : event) : bool :=
  match ev with
  | Open _ | Write _ _ => true
  | _ => false
  end.

Definition is_validate (ev : event) : bool :=
  match ev with
  | Validate _ => true
  | _ => false
  end.


(** The JSON value handed to [json.dump]. *)
Definition dumped (entries : list LeaderboardEntry) : json :=
  JList (map (fun item => JDict (model_dump item)) entries).

(** The entries of [validated_data[:3]] whose line is printed: those before
    the first one whose name or organization cannot be encoded. *)
Fixpoint printed_entries (l : list LeaderboardEntry) : list LeaderboardEntry :=
  match l with
  | [] => []
  | entry :: rest =>
      if printable (Text (summary_entry entry)) then entry :: printed_entries rest else []
  end.

(** Every line of the summary can be printed. *)
Definition summary_printable (entries : list LeaderboardEntry) : bool :=
  forallb (fun entry => printable (Text (summary_entry entry))) (firstn 3 entries).

(** The summary printed after a successful validation. *)
Definition summary_events (entries : list LeaderboardEntry) : list event :=
  Print (Text (summary_header (List.length entries)))
    :: map (fun entry => Print (Text (summary_entry entry)))
           (printed_entries (firstn 3 entries)).

(** What [json.dump] does with [entries] once the file is open: the
    exception raised, if any, and the text the file is closed with. *)
Definition written (entries : list LeaderboardEntry) : option exn * string :=
  Encoder.write_chunks (Encoder.iterencode 2 0 (dumped entries)) EmptyString.

(** The events of opening the file and closing it with [text]. *)
Definition file_events (text : string) : list event :=
  [ Open OUTPUT_FILE; Write OUTPUT_FILE text ].

(** The events of saving [entries]. *)
Definition save_events (entries : list LeaderboardEntry) : list event :=
  [ Open OUTPUT_FILE; Write OUTPUT_FILE (Encoder.dumps (dumped entries));
    Print (Text saved_message); ShowUsage ].

(** What the [try] block does after a successful [json.loads]: the exception
    it raises, if any. *)
Definition processing_error (raw_data : json) (writable : bool) : option exn :=
  match iterate_result raw_data with
  | inl e => Some e
  | inr items =>
      match comprehension_result items with
      | inl e => Some e
      | inr entries =>
          if negb (summary_printable entries) then Some UnicodeEncodeError
          else if writable then fst (written entries)
          else Some OSError
      end
  end.

(** *** The layout of the output file, written out *)

Definition field_text (key value : string) : string :=
  dq ++ key ++ dq ++ ": " ++ value.

Definition quoted (s : string) : string := dq ++ Encoder.escape s ++ dq.

(** One object: its seven fields on lines of their own, four spaces in. *)
Definition object_text (entry : LeaderboardEntry) : string :=
  "{" ++ nl ++ "    "
      ++ join ("," ++ nl ++ "    ")
           [ field_text "rank" (repr_int (rank entry));
             field_text "model" (quoted (model entry));
             field_text "arena score" (Encoder.floatstr (arena_score entry));
             field_text "95% CI" (quoted (ci_95 entry));
             field_text "votes" (repr_int (votes entry));
             field_text "organization" (quoted (organization entry));
             field_text "license" (quoted (license entry)) ]
      ++ nl ++ "  }".

(** The array: the objects in order, two spaces in, one after the other. *)
Definition array_text (entries : list LeaderboardEntry) : string :=
  match entries with
  | [] => "[]"
  | _ => "[" ++ nl ++ "  " ++ join ("," ++ nl ++ "  ") (map object_text entries) ++ nl ++ "]"
  end.

Fixpoint forall_chars (p : ascii -> bool) (s : string) : bool :=
  match s with
  | EmptyString => true
  | String c r => p c && forall_chars p r
  end.

(** A character that [json.dump] writes as it is. *)
Definition unescaped (c : ascii) : bool :=
  (32 <=? code c) && negb (code c =? 34) && negb (code c =? 92).

Definition non_ascii (c : ascii) : bool := 128 <=? code c.

(** [s] occurs in [t]. *)
Definition occurs_in (s t : string) : Prop :=
  exists before after, t = before ++ s ++ after.

(** The value [v] is accepted by the validator of the field read under
    [key]. *)
Definition field_accepts (key : string) (v : json) : bool :=
  if String.eqb key "rank" || String.eqb key "votes" then
    match Pydantic.validate_int v with inr _ => true | inl _ => false end
  else if String.eqb key "arena score" then
    match Pydantic.validate_float v with inr _ => true | inl _ => false end
  else
    match Pydantic.validate_str v with inr _ => true | inl _ => false end.

(** *** The reports of the script *)



(** The last line a run prints. *)
Definition last_line (r : CrawlResult) (w : World) : line :=
  if success r then
    match Decoder.loads (nesting w) (extracted_content r) with
    | inl JSONDecodeError => Text invalid_json_message
    | inl e => Unexpected e
    | inr v =>
        match processing_error v (can_open w) with
        | Some e => Unexpected e
        | None => Text saved_message
        end
    end
  else Text (scraping_error (error_message r)).

(** *** The payloads of the scenarios *)

(** The scores of the scenarios as binary64 numbers, [m * 2^(-42)] with the
    mantissa written out: 1300.5, 1250.5, 1300 and 1299, and 1400 - n. *)
Definition score_1300_5 : float := S754_finite false 5719659487690752 (-42).
Definition score_1250_5 : float := S754_finite false 5499757162135552 (-42).
Definition score_1300 : float := S754_finite false 5717460464435200 (-42).
Definition score_1299 : float := S754_finite false 5713062417924096 (-42).
Definition score_1399 : float := S754_finite false 6152867069034496 (-42).
Definition score_1398 : float := S754_finite false 6148469022523392 (-42).
Definition score_1397 : float := S754_finite false 6144070976012288 (-42).
Definition score_1396 : float := S754_finite false 6139672929501184 (-42).

Definition scenario_payload : string :=
  qq "[{'Rank':1,'Model':'X','arena score':1300.5,'95% CI':'+2/-2','votes':500,'organization':'Acme','License':'MIT'}]".

Definition scenario_record : dict json :=
  [ ("Rank", JInt 1); ("Model", JStr "X");
    ("arena score", JFloat score_1300_5);
    ("95% CI", JStr "+2/-2"); ("votes", JInt 500);
    ("organization", JStr "Acme"); ("License", JStr "MIT") ].

Definition lowercase_payload : string :=
  qq "[{'rank':1,'model':'X','arena score':1300.5,'95% CI':'+2/-2','votes':500,'organization':'Acme','license':'MIT'}]".

Definition lowercase_entry : LeaderboardEntry :=
  {| rank := 1; model := "X"; arena_score := score_1300_5;
     ci_95 := "+2/-2"; votes := 500; organization := "Acme"; license := "MIT" |}.

Definition lowercase_output : string :=
  concat_str
    [ "["; nl;
      qq "  {"; nl;
      qq "    'rank': 1,"; nl;
      qq "    'model': 'X',"; nl;
      qq "    'arena score': 1300.5,"; nl;
      qq "    '95% CI': '+2/-2',"; nl;
      qq "    'votes': 500,"; nl;
      qq "    'organization': 'Acme',"; nl;
      qq "    'license': 'MIT'"; nl;
      qq "  }"; nl;
      "]" ].

(** A payload whose second record lacks required fields. *)
Definition mixed_payload : string :=
  qq "[{'rank':1,'model':'A','arena score':1300,'95% CI':'+1/-1','votes':7,'organization':'O','license':'MIT'},{'rank':2,'model':'B'},{'rank':'x'}]".

Definition mixed_items : list json :=
  [ JDict [ ("rank", JInt 1); ("model", JStr "A"); ("arena score", JInt 1300);
            ("95% CI", JStr "+1/-1"); ("votes", JInt 7); ("organization", JStr "O");
            ("license", JStr "MIT") ];
    JDict [ ("rank", JInt 2); ("model", JStr "B") ];
    JDict [ ("rank", JStr "x") ] ].

(** Two records, the second with characters outside ASCII and with a key
    that belongs to no field. *)
Definition accented_payload : string :=
  qq "[{'rank':1,'model':'X','arena score':1300.5,'95% CI':'+2/-2','votes':500,'organization':'Acme','license':'MIT'}, {'rank':'2','model':'Modèle é','arena score':1299,'95% CI':'±3','votes':41,'organization':'Société','license':'Apache 2.0','url':null}]".

Definition accented_items : list json :=
  [ JDict [ ("rank", JInt 1); ("model", JStr "X");
            ("arena score", JFloat score_1300_5);
            ("95% CI", JStr "+2/-2"); ("votes", JInt 500);
            ("organization", JStr "Acme"); ("license", JStr "MIT") ];
    JDict [ ("rank", JStr "2"); ("model", JStr "Modèle é"); ("arena score", JInt 1299);
            ("95% CI", JStr "±3"); ("votes", JInt 41);
            ("organization", JStr "Société"); ("license", JStr "Apache 2.0");
            ("url", JNull) ] ].

Definition accented_entries : list LeaderboardEntry :=
  [ {| rank := 1; model := "X"; arena_score := score_1300_5;
       ci_95 := "+2/-2"; votes := 500; organization := "Acme"; license := "MIT" |};
    {| rank := 2; model := "Modèle é"; arena_score := score_1299;
       ci_95 := "±3"; votes := 41; organization := "Société";
       license := "Apache 2.0" |} ].

(** Four records that differ by rank and name. *)
Definition sample_item (n : Z) (name : string) : json :=
  JDict [ ("rank", JInt n); ("model", JStr name); ("arena score", JInt (1400 - n));
          ("95% CI", JStr "+5/-5"); ("votes", JInt 10); ("organization", JStr "Lab");
          ("license", JStr "MIT") ].

Definition sample_entry (n : Z) (name : string) (score : float) : LeaderboardEntry :=
  {| rank := n; model := name; arena_score := score; ci_95 := "+5/-5"; votes := 10;
     organization := "Lab"; license := "MIT" |}.

Definition four_payload : string :=
  qq "[{'rank':1,'model':'A','arena score':1399,'95% CI':'+5/-5','votes':10,'organization':'Lab','license':'MIT'},{'rank':2,'model':'B','arena score':1398,'95% CI':'+5/-5','votes':10,'organization':'Lab','license':'MIT'},{'rank':3,'model':'C','arena score':1397,'95% CI':'+5/-5','votes':10,'organization':'Lab','license':'MIT'},{'rank':4,'model':'D','arena score':1396,'95% CI':'+5/-5','votes':10,'organization':'Lab','license':'MIT'}]".

Definition four_items : list json :=
  [ sample_item 1 "A"; sample_item 2 "B"; sample_item 3 "C"; sample_item 4 "D" ].

Definition four_entries : list LeaderboardEntry :=
  [ sample_entry 1 "A" score_1399; sample_entry 2 "B" score_1398;
    sample_entry 3 "C" score_1397; sample_entry 4 "D" score_1396 ].

(** A record with two keys that belong to no field. *)
Definition extra_record : dict json :=
  [ ("url", JStr "https://example.org"); ("rank", JInt 3); ("model", JStr "M");
    ("arena score", JFloat score_1250_5); ("95% CI", JStr "+4/-4");
    ("votes", JInt 12); ("organization", JStr "Org"); ("license", JStr "MIT");
    ("Knowledge Cutoff", JNull) ].

(** A record whose numbers arrive as text or as an int. *)
Definition coerced_record (r v : string) (n : Z) (m c o l : string) : dict json :=
  [ ("rank", JStr r); ("model", JStr m); ("arena score", JInt n); ("95% CI", JStr c);
    ("votes", JStr v); ("organization", JStr o); ("license", JStr l) ].

(** A decimal-digit string the model reads as an int. *)
Definition digit_string (s : string) : Prop :=
  s <> EmptyString /\ all_digits s = true /\ slen s <= 4300.

(** A world in which the output file exists already, with the room of an
    interpreter started for the script. *)
Definition old_world : World := initial (Some "old") true 900.

(** An int that [json.dump] can write, and an entry all of whose values it
    can: ints of at most 4300 digits and strings without surrogates. *)
Definition int_writable (n : Z) : bool := slen (repr_int (Z.abs n)) <=? max_str_digits.

Definition entry_writable (entry : LeaderboardEntry) : bool :=
  int_writable (rank entry) && negb (has_surrogate (model entry))
  && negb (has_surrogate (ci_95 entry)) && int_writable (votes entry)
  && negb (has_surrogate (organization entry)) && negb (has_surrogate (license entry)).

(** Only characters of ASCII. *)
Definition ascii_only (s : string) : bool := forall_chars (fun c => code c <? 128) s.

(** ** Views used by the further properties *)

(** The run on a payload that holds no item: the header for zero records,
    then the empty array saved, or the report that the file cannot be
    opened. *)
Definition zero_records_run (raw : string) (w : World) : (exn + unit) * World :=
  if can_open w then
    (inr tt,
     {| file := Some "[]";
        can_open := true;
        nesting := nesting w;
        events := (events w ++ [ Loads raw; Print (Text (summary_header 0));
                                 Open OUTPUT_FILE; Write OUTPUT_FILE "[]";
                                 Print (Text saved_message); ShowUsage ])%list |})
  else
    (inr tt,
     add_events [ Loads raw; Print (Text (summary_header 0)); Print (Unexpected OSError) ] w).

(** The field read under [key] is present in [kw] with a value it accepts. *)
Definition field_ok (kw : dict json) (key : string) : bool :=
  match dict_get kw key with
  | Some v => field_accepts key v
  | None => false
  end.

(** The keys of a dict are pairwise different. *)
Fixpoint distinct (l : list string) : bool :=
  match l with
  | [] => true
  | k :: r => negb (existsb (String.eqb k) r) && distinct r
  end.

(** Every object inside [v] has pairwise different keys. *)
Fixpoint unique_keys (v : json) : bool :=
  match v with
  | JList l => forallb unique_keys l
  | JDict d => distinct (keys d) && forallb (fun kv => unique_keys (snd kv)) d
  | _ => true
  end.

(** The errors kept by a validation step, and whether it gave a value. *)
Definition errors_of {A} (r : list Pydantic.line_error + A) : list Pydantic.line_error :=
  match r with
  | inl e => e
  | inr _ => []
  end.

Definition is_value {A} (r : list Pydantic.line_error + A) : bool :=
  match r with
  | inl _ => false
  | inr _ => true
  end.

(** What a field contributes: a value when it is present and accepted, one
    error under its key otherwise. *)
Definition field_report {A} (kw : dict json) (key : string)
           (r : list Pydantic.line_error + A) : Prop :=
  is_value r = field_ok kw key
  /\ map fst (errors_of r) = (if field_ok kw key then [] else [key])
  /\ (forall k t, In (k, t) (errors_of r) -> t = missing <-> dict_get kw k = None).

(** What follows a value in the text written: a comma or a newline. *)
Definition terminated (rest : string) : Prop :=
  exists r, rest = "," ++ r \/ rest = nl ++ r.

(** The decoder, started on the text [t] of a value, returns [v] and stops
    right after the text. *)
Definition scans_as (t : string) (v : json) : Prop :=
  forall f d rest,
    terminated rest ->
    Decoder.skip_ws (t ++ rest) = t ++ rest
    /\ Decoder.scan_once (S f) d (t ++ rest) = inr (v, rest).

(** The text [json.dump] writes for the float reads back as the float. *)
Definition reads_back (x : float) : Prop := scans_as (Encoder.floatstr x) (JFloat x).

(** The fields of an object as they are written, from the first key to the
    closing brace, followed by [tail]. *)
Fixpoint fields_layout (fields : list (string * string)) (tail : string) : string :=
  match fields with
  | [] => tail
  | (key, text) :: rest =>
      quoted key ++ ": " ++ text
        ++ match rest with
           | [] => nl ++ "  }" ++ tail
           | _ => "," ++ nl ++ "    " ++ fields_layout rest tail
           end
  end.

(** The objects of the array as they are written, from the first brace to
    the closing bracket, followed by [tail]. *)
Fixpoint items_layout (entries : list LeaderboardEntry) (tail : string) : string :=
  match entries with
  | [] => tail
  | entry :: rest =>
      object_text entry
        ++ match rest with
           | [] => nl ++ "]" ++ tail
           | _ => "," ++ nl ++ "  " ++ items_layout rest tail
           end
  end.

(** The texts of the seven values of an entry, under their keys. *)
Definition entry_fields (entry : LeaderboardEntry) : list (string * string) :=
  [ ("rank", repr_int (rank entry));
    ("model", quoted (model entry));
    ("arena score", Encoder.floatstr (arena_score entry));
    ("95% CI", quoted (ci_95 entry));
    ("votes", repr_int (votes entry));
    ("organization", quoted (organization entry));
    ("license", quoted (license entry)) ].

Definition set_pair (d : dict json) (kv : string * json) : dict json :=
  dict_set d (fst kv) (snd kv).

(** Equality of floats as data: same class, sign, mantissa and exponent (so
    [nan] is the same as [nan], and [0.0] is not [-0.0]). *)
Definition same_float (x y : float) : bool :=
  match x, y with
  | S754_zero a, S754_zero b => Bool.eqb a b
  | S754_infinity a, S754_infinity b => Bool.eqb a b
  | S754_nan, S754_nan => true
  | S754_finite a m e, S754_finite b m' e' => Bool.eqb a b && Pos.eqb m m' && (e =? e')
  | _, _ => false
  end.

(** Whether the decoder reads the text written for [x] as [x] and nothing
    else: the round trip of [float.__repr__] and [float], at [x]. *)
Definition float_reads_back (x : float) : bool :=
  match Decoder.scan_once 1 0 (Encoder.floatstr x) with
  | inr (JFloat y, EmptyString) => same_float y x
  | _ => false
  end.

(** The events that come after the validation and the summary: opening and
    writing the file, and the usage report. *)
Definition is_closing_event (ev : event) : bool :=
  match ev with
  | Open _ | Write _ _ | ShowUsage => true
  | _ => false
  end.

(** A text that starts with a byte from 160 to 191, which after the lead
    byte 237 makes a surrogate. *)
Definition continuation_head (s : string) : bool :=
  match s with
  | String c _ => (160 <=? code c) && (code c <=? 191)
  | EmptyString => false
  end.

(** A chunk that can be written. *)
Definition chunk_ok (c : exn + string) : bool :=
  match c with
  | inr t => negb (has_surrogate t)
  | inl _ => false
  end.

(** The text [t] is the text of the chunk [c], if computing [c] raises
    nothing. *)
Definition shadows (c : exn + string) (t : string) : Prop :=
  match c with
  | inr u => u = t
  | inl _ => True
  end.

(** The chunks of one object of the output, and the texts they have when
    nothing raises. *)
Definition entry_chunks (entry : LeaderboardEntry) : list (exn + string) :=
  Encoder.iterencode 2 1 (JDict (model_dump entry)).

Definition entry_texts (entry : LeaderboardEntry) : list string :=
  [ "{"; nl ++ "    ";
    quoted "rank"; ": "; repr_int (rank entry); "," ++ nl ++ "    ";
    quoted "model"; ": "; quoted (model entry); "," ++ nl ++ "    ";
    quoted "arena score"; ": "; Encoder.floatstr (arena_score entry); "," ++ nl ++ "    ";
    quoted "95% CI"; ": "; quoted (ci_95 entry); "," ++ nl ++ "    ";
    quoted "votes"; ": "; repr_int (votes entry); "," ++ nl ++ "    ";
    quoted "organization"; ": "; quoted (organization entry); "," ++ nl ++ "    ";
    quoted "license"; ": "; quoted (license entry);
    nl ++ "  "; "}" ].

(** The chunks of the objects of the array, each after the bracket or the
    comma that precedes it. *)
Fixpoint items_chunks (first : bool) (entries : list LeaderboardEntry)
  : list (exn + string) :=
  match entries with
  | [] => []
  | entry :: rest =>
      (inr ((if first then "[" else ",") ++ nl ++ "  ")%string :: entry_chunks entry
         ++ items_chunks false rest)%list
  end.

Fixpoint items_texts (first : bool) (entries : list LeaderboardEntry) : list string :=
  match entries with
  | [] => []
  | entry :: rest =>
      (((if first then "[" else ",") ++ nl ++ "  ")%string :: entry_texts entry
         ++ items_texts false rest)%list
  end.

(** The texts of the chunks of the whole array. *)
Definition dump_texts (entries : list LeaderboardEntry) : list string :=
  match entries with
  | [] => ["[]"]
  | _ => (items_texts true entries ++ [nl; "]"])%list
  end.

(** The line with which the handlers report the exception [e]. *)
Definition report_line (e : exn) : line :=
  match e with
  | JSONDecodeError => Text invalid_json_message
  | _ => Unexpected e
  end.

(** An entry whose object the decoder reads back: the text of its score is
    read as the score, and its ints have at most 4300 digits. *)
Definition readable (entry : LeaderboardEntry) : Prop :=
  reads_back (arena_score entry)
  /\ int_writable (rank entry) = true
  /\ int_writable (votes entry) = true.

(** The exceptions [json.loads] raises on a [str]. *)
Definition decode_error (e : exn) : Prop :=
  e = JSONDecodeError \/ e = ValueError \/ e = RecursionError.

(** The JSON value persisted for the field read under [key] when the record
    holds [v] there: the validated value, dumped. *)
Definition field_value (key : string) (v : json) : option json :=
  if String.eqb key "rank" || String.eqb key "votes" then
    match Pydantic.validate_int v with inr n => Some (JInt n) | inl _ => None end
  else if String.eqb key "arena score" then
    match Pydantic.validate_float v with inr x => Some (JFloat x) | inl _ => None end
  else
    match Pydantic.validate_str v with inr s => Some (JStr s) | inl _ => None end.

(** The value has the type annotated for the field read under [key]. *)
Definition well_typed (key : string) (v : json) : bool :=
  if String.eqb key "rank" || String.eqb key "votes" then
    match v with JInt _ => true | _ => false end
  else if String.eqb key "arena score" then
    match v with JFloat _ => true | _ => false end
  else
    match v with JStr _ => true | _ => false end.

(** The text printed for the score denotes the score: read as a decimal
    literal, it is the float itself. *)
Definition score_text_exact (x : float) : bool :=
  match Pydantic.parse_float (PyFloat.repr x) with
  | Some y => same_float y x
  | None => false
  end.

(** *** Payloads on which the interpreter's limits show *)

(** The [str] of the one code point U+D800, a lone surrogate, which JSON
    writes as an escape. *)
Definition lone_surrogate : string := Decoder.utf8 55296.

Definition surrogate_license_payload : string :=
  qq "[{'rank':1,'model':'X','arena score':1300.5,'95% CI':'+2/-2','votes':500,'organization':'Acme','license':'\ud800'}]".

Definition surrogate_license_entry : LeaderboardEntry :=
  {| rank := 1; model := "X"; arena_score := score_1300_5;
     ci_95 := "+2/-2"; votes := 500; organization := "Acme"; license := lone_surrogate |}.

(** What the file holds when [json.dump] stops at the license. *)
Definition surrogate_license_output : string :=
  concat_str
    [ "["; nl;
      qq "  {"; nl;
      qq "    'rank': 1,"; nl;
      qq "    'model': 'X',"; nl;
      qq "    'arena score': 1300.5,"; nl;
      qq "    '95% CI': '+2/-2',"; nl;
      qq "    'votes': 500,"; nl;
      qq "    'organization': 'Acme',"; nl;
      qq "    'license': " ].

Definition surrogate_model_payload : string :=
  qq "[{'rank':1,'model':'\ud800','arena score':1300.5,'95% CI':'+2/-2','votes':500,'organization':'Acme','license':'MIT'}]".

Definition surrogate_model_entry : LeaderboardEntry :=
  {| rank := 1; model := lone_surrogate; arena_score := score_1300_5;
     ci_95 := "+2/-2"; votes := 500; organization := "Acme"; license := "MIT" |}.

(** An opening bracket followed by a number of 4301 digits, and 901 opening
    brackets: neither is a JSON text. *)
Definition long_number_payload : string := "[" ++ repeat_str "1" 4301.

Definition deep_payload : string := repeat_str "[" 901.

(** A world without output file, with the room of an interpreter started
    for the script. *)
Definition new_world : World := initial None true 900.

(** The exception caught by the handler of [json.JSONDecodeError]. *)
Definition exn_is_decode (e : exn) : bool :=
  match e with
  | JSONDecodeError => true
  | _ => false
  end.

(** Every int inside [v] has at most 4300 digits. *)
Fixpoint ints_writable (v : json) : bool :=
  match v with
  | JInt n => int_writable n
  | JList l => forallb ints_writable l
  | JDict d => forallb (fun kv => ints_writable (snd kv)) d
  | _ => true
  end.

(** No text of the entry holds a lone surrogate. *)
Definition text_writable (entry : LeaderboardEntry) : bool :=
  negb (has_surrogate (model entry)) && negb (has_surrogate (ci_95 entry))
  && negb (has_surrogate (organization entry)) && negb (has_surrogate (license entry)).

(** The digits of a digit string, as a decimal number. *)
Fixpoint uint_of_digits (s : string) : Decimal.uint :=
  match s with
  | EmptyString => Decimal.Nil
  | String c r =>
      let u := uint_of_digits r in
      match Z.to_nat (digit_val c) with
      | 0%nat => Decimal.D0 u
      | 1%nat => Decimal.D1 u
      | 2%nat => Decimal.D2 u
      | 3%nat => Decimal.D3 u
      | 4%nat => Decimal.D4 u
      | 5%nat => Decimal.D5 u
      | 6%nat => Decimal.D6 u
      | 7%nat => Decimal.D7 u
      | 8%nat => Decimal.D8 u
      | _ => Decimal.D9 u
      end
  end.

(** The ints of the entry have at most 4300 digits. *)
Definition entry_ints_writable (entry : LeaderboardEntry) : bool :=
  int_writable (rank entry) && int_writable (votes entry).

(** The usage report was made. *)
Definition is_usage (ev : event) : bool :=
  match ev with
  | ShowUsage => true
  | _ => false
  end.

(** * Facts about the embedding *)

(** ** The fuel of the decoder is enough *)

Ltac break_match :=
  match goal with
  | H : context [match ?x with _ => _ end] |- _ =>
      match type of x with
      | sumbool _ _ => destruct x
      | _ => let E := fresh "E" in destruct x eqn:E
      end
  | |- context [match ?x with _ => _ end] =>
      let E := fresh "E" in destruct x eqn:E
  end.

Ltac rest_of H :=
  match type of H with
  | inr (_, ?x) = inr (_, ?r) =>
      let E := fresh in assert (E : r = x) by congruence; subst r; clear H
  end.

Lemma skip_ws_length (s : string) :
  (String.length (Decoder.skip_ws s) <= String.length s)%nat.
Proof.
  induction s as [| c s IH]; cbn; [lia |].
  destruct (Decoder.is_ws c); cbn; lia.
Qed.

Lemma drop_length (n : nat) (s : string) :
  (String.length (Decoder.drop n s) <= String.length s)%nat.
Proof.
  revert s. induction n as [| n IH]; intros [| c s]; cbn; try lia.
  specialize (IH s). lia.
Qed.

Lemma prefix_drop1 (p : ascii) (s : string) :
  prefix (String p EmptyString) s = true ->
  (S (String.length (Decoder.drop 1 s)) = String.length s)%nat.
Proof.
  destruct s as [| c s]; cbn; [discriminate |].
  destruct (ascii_dec p c); [| discriminate]. intros _. destruct s; reflexivity.
Qed.

Lemma hex4_length (s r : string) (u : Z) :
  Decoder.hex4 s = Some (u, r) -> (String.length s = 4 + String.length r)%nat.
Proof.
  unfold Decoder.hex4. intro H.
  repeat break_match; try discriminate. injection H as _ <-. reflexivity.
Qed.

Lemma span_digits_length (s d r : string) :
  Decoder.span_digits s = (d, r) ->
  (String.length s = String.length d + String.length r)%nat.
Proof.
  revert d r. induction s as [| c s IH]; cbn; intros d r H.
  - injection H as <- <-. reflexivity.
  - destruct (is_digit c).
    + destruct (Decoder.span_digits s) as [d' r'] eqn:E. injection H as <- <-.
      cbn. rewrite (IH d' r' eq_refl). reflexivity.
    + injection H as <- <-. reflexivity.
Qed.

Lemma unicode_escape_length (r1 r : string) (cp : Z) :
  Decoder.unicode_escape r1 = Some (cp, r) -> (String.length r < String.length r1)%nat.
Proof.
  unfold Decoder.unicode_escape. intro H.
  destruct (Decoder.hex4 r1) as [[u r2] |] eqn:E1; [| discriminate].
  apply hex4_length in E1.
  destruct ((55296 <=? u) && (u <=? 56319) && prefix (chr 92 ++ "u") r2).
  - destruct (Decoder.hex4 (Decoder.drop 2 r2)) as [[u2 r3] |] eqn:E2; [| discriminate].
    apply hex4_length in E2. pose proof (drop_length 2 r2).
    destruct ((56320 <=? u2) && (u2 <=? 57343)); injection H as _ <-; lia.
  - injection H as _ <-. lia.
Qed.

Lemma scanstring_unfold (f : nat) (c : ascii) (r : string) :
  Decoder.scanstring (S f) (String c r)
  = if code c =? 34 then Some (EmptyString, r)
    else if code c <? 32 then None
    else if code c =? 92 then
      match r with
      | EmptyString => None
      | String e r1 =>
          if code e =? 117 then
            match Decoder.unicode_escape r1 with
            | None => None
            | Some (cp, r4) =>
                match Decoder.scanstring f r4 with
                | Some (t, rest) => Some (Decoder.utf8 cp ++ t, rest)
                | None => None
                end
            end
          else
            match Decoder.backslash e with
            | None => None
            | Some x =>
                match Decoder.scanstring f r1 with
                | Some (t, rest) => Some (x ++ t, rest)
                | None => None
                end
            end
      end
    else
      match Decoder.scanstring f r with
      | Some (t, rest) => Some (String c t, rest)
      | None => None
      end.
Proof. reflexivity. Qed.

Lemma scanstring_length (f : nat) :
  forall s t r,
    Decoder.scanstring f s = Some (t, r) -> (String.length r < String.length s)%nat.
Proof.
  induction f as [| f IH]; intros s t r H; [discriminate |].
  destruct s as [| c s]; [discriminate |].
  rewrite scanstring_unfold in H.
  destruct (code c =? 34); [injection H as _ <-; cbn; lia |].
  destruct (code c <? 32); [discriminate |].
  destruct (code c =? 92).
  - destruct s as [| e r1]; [discriminate |].
    destruct (code e =? 117).
    + destruct (Decoder.unicode_escape r1) as [[cp r4] |] eqn:E; [| discriminate].
      apply unicode_escape_length in E.
      destruct (Decoder.scanstring f r4) as [[t' rest] |] eqn:E'; [| discriminate].
      apply IH in E'. injection H as _ <-. cbn. lia.
    + destruct (Decoder.backslash e); [| discriminate].
      destruct (Decoder.scanstring f r1) as [[t' rest] |] eqn:E'; [| discriminate].
      apply IH in E'. injection H as _ <-. cbn. lia.
  - destruct (Decoder.scanstring f s) as [[t' rest] |] eqn:E'; [| discriminate].
    apply IH in E'. injection H as _ <-. cbn. lia.
Qed.

(** With more fuel than characters, [scanstring] does not depend on it. *)
Lemma scanstring_fuel (f1 : nat) :
  forall f2 s,
    (String.length s < f1)%nat -> (String.length s < f2)%nat ->
    Decoder.scanstring f1 s = Decoder.scanstring f2 s.
Proof.
  induction f1 as [| f1 IH]; intros f2 s H1 H2; [lia |].
  destruct f2 as [| f2]; [lia |].
  destruct s as [| c s]; [reflexivity |].
  rewrite !scanstring_unfold. cbn in H1, H2.
  destruct (code c =? 34); [reflexivity |].
  destruct (code c <? 32); [reflexivity |].
  destruct (code c =? 92).
  - destruct s as [| e r1]; [reflexivity |]. cbn in H1, H2.
    destruct (code e =? 117).
    + destruct (Decoder.unicode_escape r1) as [[cp r4] |] eqn:E; [| reflexivity].
      apply unicode_escape_length in E.
      rewrite (IH f2 r4) by lia. reflexivity.
    + destruct (Decoder.backslash e); [| reflexivity].
      rewrite (IH f2 r1) by lia. reflexivity.
  - rewrite (IH f2 s) by lia. reflexivity.
Qed.

Lemma minus_sign_length (s s1 : string) (neg : bool) :
  Decoder.minus_sign s = (neg, s1) -> (String.length s1 <= String.length s)%nat.
Proof.
  destruct s as [| c r]; cbn.
  - intro H. injection H as _ <-. cbn. lia.
  - destruct (code c =? 45); intro H; injection H as _ <-; cbn; lia.
Qed.

Lemma integer_part_length (s ip r : string) :
  Decoder.integer_part s = Some (ip, r) -> (String.length r < String.length s)%nat.
Proof.
  destruct s as [| c s]; [discriminate |]. unfold Decoder.integer_part.
  destruct (is_digit c) eqn:Hc; [| discriminate].
  destruct (code c =? 48).
  - intro H. injection H as _ <-. cbn. lia.
  - intro H. injection H as H.
    pose proof (span_digits_length (String c s) ip r H) as Hl.
    cbn in H. rewrite Hc in H.
    destruct (Decoder.span_digits s) as [d t]. injection H as <- <-.
    cbn in Hl. cbn. lia.
Qed.

Lemma fraction_part_length (s r : string) (fp : option string) :
  Decoder.fraction_part s = (fp, r) -> (String.length r <= String.length s)%nat.
Proof.
  unfold Decoder.fraction_part.
  destruct s as [| p [| d t]]; try (intro H; injection H as _ <-; cbn; lia).
  destruct ((code p =? 46) && is_digit d).
  - destruct (Decoder.span_digits (String d t)) as [f u] eqn:E.
    apply span_digits_length in E. intro H. injection H as _ <-. cbn in *. lia.
  - intro H. injection H as _ <-. cbn. lia.
Qed.

Lemma exponent_part_length (s r : string) (ex : option Z) :
  Decoder.exponent_part s = (ex, r) -> (String.length r <= String.length s)%nat.
Proof.
  unfold Decoder.exponent_part.
  destruct s as [| e t]; [intro H; injection H as _ <-; cbn; lia |].
  destruct ((code e =? 101) || (code e =? 69)); [| intro H; injection H as _ <-; cbn; lia].
  match goal with
  | |- context [let '(sg, r1) := ?x in _] => destruct x as [sg r1] eqn:Esg
  end.
  assert (Hr1 : (String.length r1 <= String.length t)%nat).
  { destruct t as [| g u].
    - injection Esg as _ <-. cbn. lia.
    - destruct (code g =? 45); [injection Esg as _ <-; cbn; lia |].
      destruct (code g =? 43); injection Esg as _ <-; cbn; lia. }
  destruct (Decoder.span_digits r1) as [ds r2] eqn:E.
  apply span_digits_length in E.
  destruct ds; intro H; injection H as _ <-; cbn in *; lia.
Qed.

Lemma match_number_length (s r : string) (v : json) :
  Decoder.match_number s = inr (v, r) -> (String.length r < String.length s)%nat.
Proof.
  unfold Decoder.match_number.
  destruct (Decoder.minus_sign s) as [neg s1] eqn:E1. apply minus_sign_length in E1.
  destruct (Decoder.integer_part s1) as [[ip s2] |] eqn:E2; [| discriminate].
  apply integer_part_length in E2.
  destruct (Decoder.fraction_part s2) as [fp s3] eqn:E3. apply fraction_part_length in E3.
  destruct (Decoder.exponent_part s3) as [ex s4] eqn:E4. apply exponent_part_length in E4.
  destruct fp, ex; try (intro H; injection H as _ <-; lia).
  destruct (max_str_digits <? slen ip); [discriminate |].
  intro H; injection H as _ <-; lia.
Qed.

Lemma scan_once_unfold (f d : nat) (c : ascii) (r : string) :
  Decoder.scan_once (S f) d (String c r)
  = let s := String c r in
    if code c =? 34 then
      match Decoder.scanstring (S (String.length r)) r with
      | Some (t, rest) => inr (JStr t, rest)
      | None => inl JSONDecodeError
      end
    else if code c =? 123 then
      match d with
      | O => inl RecursionError
      | S d' =>
          if prefix "}" (Decoder.skip_ws r)
          then inr (JDict [], Decoder.drop 1 (Decoder.skip_ws r))
          else Decoder.parse_object f d' (Decoder.skip_ws r) []
      end
    else if code c =? 91 then
      match d with
      | O => inl RecursionError
      | S d' =>
          if prefix "]" (Decoder.skip_ws r)
          then inr (JList [], Decoder.drop 1 (Decoder.skip_ws r))
          else Decoder.parse_array f d' (Decoder.skip_ws r) []
      end
    else if prefix "null" s then inr (JNull, Decoder.drop 4 s)
    else if prefix "true" s then inr (JBool true, Decoder.drop 4 s)
    else if prefix "false" s then inr (JBool false, Decoder.drop 5 s)
    else if prefix "NaN" s then inr (JFloat S754_nan, Decoder.drop 3 s)
    else if prefix "Infinity" s then inr (JFloat (S754_infinity false), Decoder.drop 8 s)
    else if prefix "-Infinity" s then inr (JFloat (S754_infinity true), Decoder.drop 9 s)
    else Decoder.match_number s.
Proof. reflexivity. Qed.

Lemma parse_array_unfold (f d : nat) (s : string) (acc : list json) :
  Decoder.parse_array (S f) d s acc
  = match Decoder.scan_once f d s with
    | inl e => inl e
    | inr (v, r) =>
        if prefix "]" (Decoder.skip_ws r)
        then inr (JList (acc ++ [v]), Decoder.drop 1 (Decoder.skip_ws r))
        else if prefix "," (Decoder.skip_ws r)
        then Decoder.parse_array f d (Decoder.skip_ws (Decoder.drop 1 (Decoder.skip_ws r)))
               (acc ++ [v])
        else inl JSONDecodeError
    end.
Proof. reflexivity. Qed.

Lemma parse_object_unfold (f d : nat) (c : ascii) (r : string) (acc : dict json) :
  Decoder.parse_object (S f) d (String c r) acc
  = if negb (code c =? 34) then inl JSONDecodeError
    else
      match Decoder.scanstring (S (String.length r)) r with
      | None => inl JSONDecodeError
      | Some (k, r1) =>
          if negb (prefix ":" (Decoder.skip_ws r1)) then inl JSONDecodeError
          else
            match Decoder.scan_once f d
                    (Decoder.skip_ws (Decoder.drop 1 (Decoder.skip_ws r1))) with
            | inl e => inl e
            | inr (v, r3) =>
                if prefix "}" (Decoder.skip_ws r3)
                then inr (JDict (dict_set acc k v), Decoder.drop 1 (Decoder.skip_ws r3))
                else if prefix "," (Decoder.skip_ws r3)
                then Decoder.parse_object f d
                       (Decoder.skip_ws (Decoder.drop 1 (Decoder.skip_ws r3)))
                       (dict_set acc k v)
                else inl JSONDecodeError
            end
      end.
Proof. reflexivity. Qed.

(** Every value read consumes at least one character. *)
Lemma scan_length (f : nat) :
  (forall d s v r, Decoder.scan_once f d s = inr (v, r)
                   -> (String.length r < String.length s)%nat)
  /\ (forall d s acc v r, Decoder.parse_array f d s acc = inr (v, r)
                          -> (String.length r < String.length s)%nat)
  /\ (forall d s acc v r, Decoder.parse_object f d s acc = inr (v, r)
                          -> (String.length r < String.length s)%nat).
Proof.
  induction f as [| f (IHs & IHa & IHo)].
  { repeat split; intros; discriminate. }
  repeat split.
  - intros d s v r H. destruct s as [| c t]; [discriminate |].
    rewrite scan_once_unfold in H. cbv zeta in H.
    pose proof (skip_ws_length t) as Hws.
    pose proof (drop_length 1 (Decoder.skip_ws t)) as Hd1.
    destruct (code c =? 34).
    { destruct (Decoder.scanstring (S (String.length t)) t) as [[u rest] |] eqn:E;
        [| discriminate].
      apply scanstring_length in E. rest_of H. cbn [String.length]. lia. }
    destruct (code c =? 123).
    { destruct d as [| d]; [discriminate |].
      destruct (prefix "}" (Decoder.skip_ws t)).
      - rest_of H. cbn [String.length]. lia.
      - apply IHo in H. cbn [String.length]. lia. }
    destruct (code c =? 91).
    { destruct d as [| d]; [discriminate |].
      destruct (prefix "]" (Decoder.skip_ws t)).
      - rest_of H. cbn [String.length]. lia.
      - apply IHa in H. cbn [String.length]. lia. }
    repeat match type of H with
           | (if ?b then inr (_, Decoder.drop (S ?n) _) else _) = _ =>
               destruct b;
               [rest_of H;
                change (Decoder.drop (S n) (String c t)) with (Decoder.drop n t);
                pose proof (drop_length n t); cbn [String.length]; lia |]
           end.
    now apply match_number_length in H.
  - intros d s acc v r H. rewrite parse_array_unfold in H.
    destruct (Decoder.scan_once f d s) as [e | [x t]] eqn:E; [discriminate |].
    apply IHs in E.
    pose proof (skip_ws_length t) as Hws.
    pose proof (drop_length 1 (Decoder.skip_ws t)) as Hd1.
    destruct (prefix "]" (Decoder.skip_ws t)); [rest_of H; lia |].
    destruct (prefix "," (Decoder.skip_ws t)); [| discriminate].
    apply IHa in H.
    pose proof (skip_ws_length (Decoder.drop 1 (Decoder.skip_ws t))). lia.
  - intros d s acc v r H. destruct s as [| c t]; [discriminate |].
    rewrite parse_object_unfold in H.
    destruct (negb (code c =? 34)); [discriminate |].
    destruct (Decoder.scanstring (S (String.length t)) t) as [[k r1] |] eqn:E;
      [| discriminate].
    apply scanstring_length in E.
    destruct (negb (prefix ":" (Decoder.skip_ws r1))); [discriminate |].
    destruct (Decoder.scan_once f d (Decoder.skip_ws (Decoder.drop 1 (Decoder.skip_ws r1))))
      as [e | [x r3]] eqn:E3; [discriminate |].
    apply IHs in E3.
    pose proof (skip_ws_length r1).
    pose proof (drop_length 1 (Decoder.skip_ws r1)).
    pose proof (skip_ws_length (Decoder.drop 1 (Decoder.skip_ws r1))).
    pose proof (skip_ws_length r3).
    pose proof (drop_length 1 (Decoder.skip_ws r3)).
    destruct (prefix "}" (Decoder.skip_ws r3)); [rest_of H; cbn [String.length]; lia |].
    destruct (prefix "," (Decoder.skip_ws r3)); [| discriminate].
    apply IHo in H.
    pose proof (skip_ws_length (Decoder.drop 1 (Decoder.skip_ws r3))). cbn [String.length]. lia.
Qed.

(** With fuel above twice the length of the text, the result of the decoder
    does not depend on the fuel: it never stops for lack of it. *)
Lemma scan_fuel (f1 : nat) :
  forall f2,
    (forall d s, (2 * String.length s + 1 <= f1)%nat -> (2 * String.length s + 1 <= f2)%nat
                 -> Decoder.scan_once f1 d s = Decoder.scan_once f2 d s)
    /\ (forall d s acc,
           (2 * String.length s + 2 <= f1)%nat -> (2 * String.length s + 2 <= f2)%nat
           -> Decoder.parse_array f1 d s acc = Decoder.parse_array f2 d s acc)
    /\ (forall d s acc,
           (2 * String.length s + 2 <= f1)%nat -> (2 * String.length s + 2 <= f2)%nat
           -> Decoder.parse_object f1 d s acc = Decoder.parse_object f2 d s acc).
Proof.
  induction f1 as [| f1 IH]; intro f2.
  { repeat split; intros; lia. }
  destruct f2 as [| f2]; [repeat split; intros; lia |].
  destruct (IH f2) as (IHs & IHa & IHo).
  repeat split.
  - intros d s H1 H2. destruct s as [| c t]; [reflexivity |].
    rewrite !scan_once_unfold. cbv zeta. cbn [String.length] in H1, H2.
    pose proof (skip_ws_length t) as Hws.
    destruct (code c =? 34); [reflexivity |].
    destruct (code c =? 123).
    { destruct d as [| d]; [reflexivity |].
      destruct (prefix "}" (Decoder.skip_ws t)); [reflexivity |]. apply IHo; lia. }
    destruct (code c =? 91).
    { destruct d as [| d]; [reflexivity |].
      destruct (prefix "]" (Decoder.skip_ws t)); [reflexivity |]. apply IHa; lia. }
    reflexivity.
  - intros d s acc H1 H2. rewrite !parse_array_unfold.
    rewrite (IHs d s) by lia.
    destruct (Decoder.scan_once f2 d s) as [e | [x t]] eqn:E; [reflexivity |].
    apply (proj1 (scan_length f2)) in E.
    pose proof (skip_ws_length t) as Hws.
    destruct (prefix "]" (Decoder.skip_ws t)); [reflexivity |].
    destruct (prefix "," (Decoder.skip_ws t)) eqn:Hp; [| reflexivity].
    apply prefix_drop1 in Hp.
    pose proof (skip_ws_length (Decoder.drop 1 (Decoder.skip_ws t))).
    apply IHa; lia.
  - intros d s acc H1 H2. destruct s as [| c t]; [reflexivity |].
    rewrite !parse_object_unfold. cbn [String.length] in H1, H2.
    destruct (negb (code c =? 34)); [reflexivity |].
    destruct (Decoder.scanstring (S (String.length t)) t) as [[k r1] |] eqn:E;
      [| reflexivity].
    apply scanstring_length in E.
    destruct (negb (prefix ":" (Decoder.skip_ws r1))); [reflexivity |].
    pose proof (skip_ws_length r1).
    pose proof (drop_length 1 (Decoder.skip_ws r1)).
    pose proof (skip_ws_length (Decoder.drop 1 (Decoder.skip_ws r1))).
    rewrite (IHs d (Decoder.skip_ws (Decoder.drop 1 (Decoder.skip_ws r1)))) by lia.
    destruct (Decoder.scan_once f2 d (Decoder.skip_ws (Decoder.drop 1 (Decoder.skip_ws r1))))
      as [e | [x r3]] eqn:E3; [reflexivity |].
    apply (proj1 (scan_length f2)) in E3.
    pose proof (skip_ws_length r3).
    destruct (prefix "}" (Decoder.skip_ws r3)); [reflexivity |].
    destruct (prefix "," (Decoder.skip_ws r3)) eqn:Hp; [| reflexivity].
    pose proof (drop_length 1 (Decoder.skip_ws r3)).
    pose proof (skip_ws_length (Decoder.drop 1 (Decoder.skip_ws r3))).
    apply IHo; lia.
Qed.

(** [json.loads] with any larger fuel gives the same result. *)
Lemma loads_fuel (s : string) (d n : nat) :
  (2 * String.length s + 2 <= n)%nat ->
  Decoder.scan_once n d (Decoder.skip_ws s)
  = Decoder.scan_once (2 * String.length s + 2) d (Decoder.skip_ws s).
Proof.
  intro H. pose proof (skip_ws_length s).
  apply (proj1 (scan_fuel n (2 * String.length s + 2))); lia.
Qed.

(** ** Texts that can be encoded *)

Lemma append_nil_r (s : string) : s ++ EmptyString = s.
Proof.
  induction s as [| c s IH]; cbn; [reflexivity | now rewrite IH].
Qed.

Lemma str_app_assoc (a b c : string) : (a ++ b) ++ c = a ++ b ++ c.
Proof.
  induction a as [| x a IH]; cbn; [reflexivity | now rewrite IH].
Qed.

Lemma has_surrogate_cons (a : ascii) (r : string) :
  has_surrogate (String a r)
  = ((code a =? 237) && continuation_head r) || has_surrogate r.
Proof.
  cbn [has_surrogate]. unfold continuation_head.
  destruct (code a =? 237); [| reflexivity]. now destruct r.
Qed.

Lemma has_surrogate_app (a b : string) :
  continuation_head b = false ->
  has_surrogate (a ++ b) = has_surrogate a || has_surrogate b.
Proof.
  intro Hb. induction a as [| c r IH]; [reflexivity |].
  cbn [append has_surrogate]. rewrite IH.
  destruct r as [| x r'].
  - cbn [append]. destruct (code c =? 237); [| reflexivity].
    destruct b as [| y b']; [reflexivity |]. cbn in Hb. rewrite Hb. reflexivity.
  - cbn [append]. now rewrite orb_assoc.
Qed.

Lemma forall_chars_app (p : ascii -> bool) (a b : string) :
  forall_chars p (a ++ b) = forall_chars p a && forall_chars p b.
Proof.
  induction a as [| c r IH]; [reflexivity |]. cbn. now rewrite IH, andb_assoc.
Qed.

Lemma ascii_only_app (a b : string) :
  ascii_only (a ++ b) = ascii_only a && ascii_only b.
Proof. apply forall_chars_app. Qed.

Lemma ascii_only_head (s : string) : ascii_only s = true -> continuation_head s = false.
Proof.
  destruct s as [| c r]; [reflexivity |]. cbn. intro H.
  apply andb_prop in H as [H _]. apply Z.ltb_lt in H.
  replace (160 <=? code c) with false by (symmetry; apply Z.leb_gt; lia). reflexivity.
Qed.

Lemma ascii_only_no_surrogate (s : string) : ascii_only s = true -> has_surrogate s = false.
Proof.
  induction s as [| c r IH]; [reflexivity |]. cbn. intro H.
  apply andb_prop in H as [Hc Hr]. rewrite (IH Hr). apply Z.ltb_lt in Hc.
  replace (code c =? 237) with false by (symmetry; apply Z.eqb_neq; lia). reflexivity.
Qed.

Lemma has_surrogate_app_ascii (a b : string) :
  ascii_only b = true -> has_surrogate (a ++ b) = has_surrogate a.
Proof.
  intro H. rewrite has_surrogate_app by now apply ascii_only_head.
  now rewrite (ascii_only_no_surrogate b H), orb_false_r.
Qed.

Lemma has_surrogate_ascii_app (a b : string) :
  ascii_only a = true -> has_surrogate (a ++ b) = has_surrogate b.
Proof.
  intro H. induction a as [| c r IH]; [reflexivity |].
  cbn in H. apply andb_prop in H as [Hc Hr]. apply Z.ltb_lt in Hc.
  cbn [append has_surrogate]. rewrite (IH Hr).
  replace (code c =? 237) with false by (symmetry; apply Z.eqb_neq; lia). reflexivity.
Qed.

Lemma all_digits_ascii (s : string) : all_digits s = true -> ascii_only s = true.
Proof.
  unfold ascii_only. induction s as [| c r IH]; [reflexivity |]. cbn. intro H.
  apply andb_prop in H as [Hc Hr]. rewrite (IH Hr), andb_true_r.
  unfold is_digit in Hc. apply andb_prop in Hc as [_ Hc]. apply Z.leb_le in Hc.
  apply Z.ltb_lt. lia.
Qed.

Lemma uint_all_digits (u : Decimal.uint) :
  all_digits (NilEmpty.string_of_uint u) = true.
Proof.
  induction u; cbn; auto.
Qed.

Lemma string_of_uint_ascii (u : Decimal.uint) :
  ascii_only (NilZero.string_of_uint u) = true.
Proof.
  unfold NilZero.string_of_uint.
  destruct u; try reflexivity; apply all_digits_ascii, uint_all_digits.
Qed.

Lemma repr_int_ascii (z : Z) : ascii_only (repr_int z) = true.
Proof.
  unfold repr_int, NilZero.string_of_int.
  destruct (Z.to_int z) as [u | u]; [apply string_of_uint_ascii |].
  change (ascii_only ("-" ++ NilZero.string_of_uint u) = true).
  now rewrite ascii_only_app, string_of_uint_ascii.
Qed.

Lemma ascii_only_repeat (s : string) (n : nat) :
  ascii_only s = true -> ascii_only (repeat_str s n) = true.
Proof.
  intro H. induction n as [| n IH]; [reflexivity |].
  cbn [repeat_str]. now rewrite ascii_only_app, H, IH.
Qed.

Lemma ascii_only_substring (s : string) :
  ascii_only s = true -> forall n m, ascii_only (substring n m s) = true.
Proof.
  unfold ascii_only. induction s as [| c r IH]; intros H n m.
  - destruct n, m; reflexivity.
  - cbn in H. apply andb_prop in H as [Hc Hr].
    destruct n as [| n]; cbn.
    + destruct m as [| m]; [reflexivity |]. cbn. rewrite Hc. now apply IH.
    + now apply IH.
Qed.

Lemma layout_ascii (ds : string) (dp : Z) :
  ascii_only ds = true -> ascii_only (PyFloat.layout ds dp) = true.
Proof.
  intro H. unfold PyFloat.layout. cbv zeta.
  destruct ((dp <=? -4) || (16 <? dp)).
  - rewrite !ascii_only_app, repr_int_ascii.
    assert (Hm : ascii_only match ds with
                            | String c EmptyString => ds
                            | String c r => String c ("." ++ r)
                            | EmptyString => ds
                            end = true).
    { destruct ds as [| c [| x r]]; exact H. }
    rewrite Hm. destruct (dp - 1 <? 0), (Z.abs (dp - 1) <? 10); reflexivity.
  - destruct (dp <=? 0).
    + rewrite !ascii_only_app, H, ascii_only_repeat; reflexivity.
    + destruct (slen ds <=? dp).
      * rewrite !ascii_only_app, H, ascii_only_repeat; reflexivity.
      * rewrite !ascii_only_app, !ascii_only_substring by exact H. reflexivity.
Qed.

Lemma repr_ascii (x : float) : ascii_only (PyFloat.repr x) = true.
Proof.
  destruct x as [s | s | | s m e]; cbn [PyFloat.repr].
  - now destruct s.
  - now destruct s.
  - reflexivity.
  - destruct (PyFloat.shortest m e) as [d E].
    rewrite ascii_only_app, layout_ascii by apply repr_int_ascii.
    now destruct s.
Qed.

Lemma floatstr_ascii (x : float) : ascii_only (Encoder.floatstr x) = true.
Proof.
  destruct x as [s | s | | s m e]; try apply repr_ascii; try reflexivity.
  now destruct s.
Qed.

Lemma header_printable (n : nat) : printable (Text (summary_header n)) = true.
Proof.
  unfold printable, summary_header.
  rewrite has_surrogate_app by (apply ascii_only_head; rewrite ascii_only_app, repr_int_ascii;
                                reflexivity).
  rewrite (ascii_only_no_surrogate (repr_int _ ++ _))
    by (rewrite ascii_only_app, repr_int_ascii; reflexivity).
  reflexivity.
Qed.

(** A line of the summary can be printed when the name and the organization
    can. *)
Lemma summary_entry_printable (entry : LeaderboardEntry) :
  printable (Text (summary_entry entry))
  = negb (has_surrogate (model entry)) && negb (has_surrogate (organization entry)).
Proof.
  unfold printable, summary_entry.
  rewrite (has_surrogate_ascii_app " - ") by reflexivity.
  rewrite has_surrogate_app by reflexivity.
  rewrite (has_surrogate_ascii_app " (") by reflexivity.
  rewrite has_surrogate_app by reflexivity.
  rewrite (has_surrogate_ascii_app "): ") by reflexivity.
  rewrite (ascii_only_no_surrogate _ (repr_ascii _)), orb_false_r.
  now rewrite negb_orb.
Qed.

(** ** The chunks of [json.dump] *)

Lemma escape_char_head (c : ascii) (r : string) :
  continuation_head (Encoder.escape_char c ++ r)
  = continuation_head (String c r).
Proof.
  unfold Encoder.escape_char. cbv zeta.
  destruct (code c =? 34) eqn:E1; [apply Z.eqb_eq in E1; cbn; rewrite E1; reflexivity |].
  destruct (code c =? 92) eqn:E2; [apply Z.eqb_eq in E2; cbn; rewrite E2; reflexivity |].
  destruct (code c =? 10) eqn:E3; [apply Z.eqb_eq in E3; cbn; rewrite E3; reflexivity |].
  destruct (code c =? 13) eqn:E4; [apply Z.eqb_eq in E4; cbn; rewrite E4; reflexivity |].
  destruct (code c =? 9) eqn:E5; [apply Z.eqb_eq in E5; cbn; rewrite E5; reflexivity |].
  destruct (code c =? 8) eqn:E6; [apply Z.eqb_eq in E6; cbn; rewrite E6; reflexivity |].
  destruct (code c =? 12) eqn:E7; [apply Z.eqb_eq in E7; cbn; rewrite E7; reflexivity |].
  destruct (code c <? 32) eqn:E8; [| reflexivity].
  apply Z.ltb_lt in E8. cbn.
  replace (160 <=? code c) with false by (symmetry; apply Z.leb_gt; lia). reflexivity.
Qed.

Lemma escape_char_ascii (c : ascii) :
  Encoder.escape_char c = String c EmptyString
  \/ (ascii_only (Encoder.escape_char c) = true /\ code c < 128).
Proof.
  destruct c as [[] [] [] [] [] [] [] []];
    first [left; reflexivity | right; split; reflexivity].
Qed.

Lemma escape_head (s r : string) :
  continuation_head r = false ->
  continuation_head (Encoder.escape s ++ r) = continuation_head (s ++ r).
Proof.
  intro Hr. destruct s as [| c t]; [reflexivity |].
  cbn [Encoder.escape append]. rewrite str_app_assoc, escape_char_head. reflexivity.
Qed.

(** Escaping neither makes nor removes a surrogate. *)
Lemma escape_surrogate (s : string) :
  has_surrogate (Encoder.escape s) = has_surrogate s.
Proof.
  induction s as [| c t IH]; [reflexivity |].
  cbn [Encoder.escape]. rewrite has_surrogate_cons.
  destruct (escape_char_ascii c) as [-> | [Ha Hc]].
  - change (String c EmptyString ++ Encoder.escape t) with (String c (Encoder.escape t)).
    rewrite has_surrogate_cons, IH.
    pose proof (escape_head t EmptyString eq_refl) as Hh.
    rewrite !append_nil_r in Hh. now rewrite Hh.
  - rewrite has_surrogate_ascii_app, IH by exact Ha.
    replace (code c =? 237) with false by (symmetry; apply Z.eqb_neq; lia). reflexivity.
Qed.

Lemma quoted_surrogate (s : string) : has_surrogate (quoted s) = has_surrogate s.
Proof.
  unfold quoted.
  rewrite (has_surrogate_ascii_app dq) by reflexivity.
  rewrite has_surrogate_app_ascii by reflexivity.
  apply escape_surrogate.
Qed.

Lemma intstr_ok (n : Z) :
  Encoder.intstr n = if int_writable n then inr (repr_int n) else inl ValueError.
Proof.
  unfold Encoder.intstr, int_writable. rewrite Z.leb_antisym.
  now destruct (max_str_digits <? slen (repr_int (Z.abs n))).
Qed.

(** *** Writing chunks *)

Lemma write_chunks_app (a b : list (exn + string)) :
  forall t,
    Encoder.write_chunks (a ++ b) t
    = match Encoder.write_chunks a t with
      | (None, t') => Encoder.write_chunks b t'
      | failed => failed
      end.
Proof.
  induction a as [| c a IH]; intro t; [reflexivity |].
  cbn [app Encoder.write_chunks]. destruct c as [e | u]; [reflexivity |].
  destruct (has_surrogate u); [reflexivity | apply IH].
Qed.

(** All the chunks are written exactly when each of them can be. *)
Lemma write_chunks_ok (chunks : list (exn + string)) :
  forall t,
    fst (Encoder.write_chunks chunks t) = None <-> forallb chunk_ok chunks = true.
Proof.
  induction chunks as [| c chunks IH]; intro t; [now split |].
  cbn [Encoder.write_chunks forallb]. destruct c as [e | v].
  - cbn. split; discriminate.
  - cbn [chunk_ok]. destruct (has_surrogate v); cbn; [split; discriminate |]. apply IH.
Qed.

(** What has been written when the chunks stop is the text of the first
    chunks: of them all when nothing was raised, and not otherwise. *)
Lemma write_chunks_prefix (chunks : list (exn + string)) (texts : list string) :
  Forall2 shadows chunks texts ->
  forall t,
    exists done left,
      texts = (done ++ left)%list
      /\ snd (Encoder.write_chunks chunks t) = t ++ concat_str done
      /\ (fst (Encoder.write_chunks chunks t) = None -> left = [])
      /\ (fst (Encoder.write_chunks chunks t) <> None -> left <> []).
Proof.
  induction 1 as [| c u chunks texts Hc _ IH]; intro t.
  - exists [], []. cbn. rewrite append_nil_r. repeat split; congruence.
  - cbn [Encoder.write_chunks]. destruct c as [e | v].
    + exists [], (u :: texts). cbn. rewrite append_nil_r. repeat split; congruence.
    + cbn in Hc. subst v. destruct (has_surrogate u).
      * exists [], (u :: texts). cbn. rewrite append_nil_r. repeat split; congruence.
      * destruct (IH (t ++ u)) as (done & left & -> & Hs & Hn & Hf).
        exists (u :: done), left. cbn [app concat_str].
        rewrite Hs, str_app_assoc. repeat split; assumption.
Qed.

(** *** The chunks of the validated entries *)

Lemma entry_chunks_eq (entry : LeaderboardEntry) :
  entry_chunks entry
  = [ inr "{"; inr (nl ++ "    ");
      inr (quoted "rank"); inr ": "; Encoder.intstr (rank entry); inr ("," ++ nl ++ "    ");
      inr (quoted "model"); inr ": "; inr (quoted (model entry)); inr ("," ++ nl ++ "    ");
      inr (quoted "arena score"); inr ": "; inr (Encoder.floatstr (arena_score entry));
      inr ("," ++ nl ++ "    ");
      inr (quoted "95% CI"); inr ": "; inr (quoted (ci_95 entry)); inr ("," ++ nl ++ "    ");
      inr (quoted "votes"); inr ": "; Encoder.intstr (votes entry); inr ("," ++ nl ++ "    ");
      inr (quoted "organization"); inr ": "; inr (quoted (organization entry));
      inr ("," ++ nl ++ "    ");
      inr (quoted "license"); inr ": "; inr (quoted (license entry));
      inr (nl ++ "  "); inr "}" ].
Proof. reflexivity. Qed.

Lemma shadows_intstr (n : Z) : shadows (Encoder.intstr n) (repr_int n).
Proof.
  rewrite intstr_ok. now destruct (int_writable n).
Qed.

Lemma chunk_ok_intstr (n : Z) : chunk_ok (Encoder.intstr n) = int_writable n.
Proof.
  rewrite intstr_ok. destruct (int_writable n); [| reflexivity].
  cbn. now rewrite (ascii_only_no_surrogate _ (repr_int_ascii n)).
Qed.

Lemma entry_shadows (entry : LeaderboardEntry) :
  Forall2 shadows (entry_chunks entry) (entry_texts entry).
Proof.
  rewrite entry_chunks_eq. unfold entry_texts.
  repeat (apply Forall2_cons; [first [apply shadows_intstr | reflexivity] |]).
  apply Forall2_nil.
Qed.

Lemma entry_chunks_ok (entry : LeaderboardEntry) :
  forallb chunk_ok (entry_chunks entry) = entry_writable entry.
Proof.
  rewrite entry_chunks_eq. unfold entry_writable.
  cbn [forallb]. rewrite !chunk_ok_intstr. cbn [chunk_ok].
  rewrite !quoted_surrogate.
  rewrite (ascii_only_no_surrogate _ (floatstr_ascii (arena_score entry))).
  destruct (int_writable (rank entry)), (has_surrogate (model entry)),
    (has_surrogate (ci_95 entry)), (int_writable (votes entry)),
    (has_surrogate (organization entry)), (has_surrogate (license entry)); reflexivity.
Qed.

Lemma entry_texts_concat (entry : LeaderboardEntry) :
  concat_str (entry_texts entry) = object_text entry.
Proof.
  unfold entry_texts, object_text, field_text. cbn [concat_str join].
  rewrite !str_app_assoc, append_nil_r. reflexivity.
Qed.

Lemma encode_entry (entry : LeaderboardEntry) :
  Encoder.encode 2 1 (JDict (model_dump entry)) = object_text entry.
Proof.
  destruct entry. reflexivity.
Qed.

Lemma dumps_array_text (entries : list LeaderboardEntry) :
  Encoder.dumps (dumped entries) = array_text entries.
Proof.
  destruct entries as [| entry rest]; [reflexivity |].
  unfold Encoder.dumps, dumped, array_text.
  change (Encoder.encode 2 0 (JList (map (fun item => JDict (model_dump item)) (entry :: rest))))
    with ("[" ++ Encoder.newline_indent 2 1
              ++ join ("," ++ Encoder.newline_indent 2 1)
                   (map (Encoder.encode 2 1)
                        (map (fun item => JDict (model_dump item)) (entry :: rest)))
              ++ Encoder.newline_indent 2 0 ++ "]").
  rewrite map_map, (map_ext _ object_text) by (intro; apply encode_entry).
  reflexivity.
Qed.

Lemma items_chunks_eq (entries : list LeaderboardEntry) :
  forall first,
    (fix items (first : bool) (l : list json) : list (exn + string) :=
       match l with
       | [] => []
       | item :: rest =>
           let buf := ((if first then "[" else ",") ++ Encoder.newline_indent 2 1)%string in
           (match Encoder.atom item with
            | Some (inr t) => [inr (buf ++ t)%string]
            | Some (inl e) => [inl e]
            | None => inr buf :: Encoder.iterencode 2 1 item
            end ++ items false rest)%list
       end) first (map (fun item => JDict (model_dump item)) entries)
    = items_chunks first entries.
Proof.
  induction entries as [| entry rest IH]; intro first; [reflexivity |].
  cbn [map items_chunks]. rewrite <- IH. reflexivity.
Qed.

(** The chunks of the array are those of its objects, between the opening
    bracket and the closing one. *)
Lemma iterencode_dumped (entry : LeaderboardEntry) (rest : list LeaderboardEntry) :
  Encoder.iterencode 2 0 (dumped (entry :: rest))
  = (items_chunks true (entry :: rest) ++ [inr nl; inr "]"])%list.
Proof.
  rewrite <- items_chunks_eq. reflexivity.
Qed.

Lemma items_shadows (entries : list LeaderboardEntry) :
  forall first, Forall2 shadows (items_chunks first entries) (items_texts first entries).
Proof.
  induction entries as [| entry rest IH]; intro first; [constructor |].
  cbn [items_chunks items_texts]. constructor; [reflexivity |].
  apply Forall2_app; [apply entry_shadows | apply IH].
Qed.

Lemma dump_shadows (entries : list LeaderboardEntry) :
  Forall2 shadows (Encoder.iterencode 2 0 (dumped entries)) (dump_texts entries).
Proof.
  destruct entries as [| entry rest]; [repeat constructor |].
  rewrite iterencode_dumped. unfold dump_texts.
  apply Forall2_app; [apply items_shadows | repeat constructor].
Qed.

Lemma concat_str_app (a b : list string) :
  concat_str (a ++ b) = concat_str a ++ concat_str b.
Proof.
  induction a as [| x a IH]; [reflexivity |]. cbn. now rewrite IH, str_app_assoc.
Qed.

Lemma items_texts_concat (entries : list LeaderboardEntry) :
  entries <> [] ->
  forall first,
    concat_str (items_texts first entries)
    = (if first then "[" else ",") ++ nl ++ "  "
        ++ join ("," ++ nl ++ "  ") (map object_text entries).
Proof.
  induction entries as [| entry rest IH]; [congruence |]. intros _ first.
  cbn [items_texts concat_str]. rewrite concat_str_app, entry_texts_concat.
  destruct rest as [| entry' rest].
  - cbn [items_texts concat_str map join]. rewrite append_nil_r, !str_app_assoc. reflexivity.
  - rewrite (IH ltac:(congruence) false). cbn [map join].
    rewrite !str_app_assoc. reflexivity.
Qed.

Lemma dump_texts_concat (entries : list LeaderboardEntry) :
  concat_str (dump_texts entries) = Encoder.dumps (dumped entries).
Proof.
  rewrite dumps_array_text. destruct entries as [| entry rest]; [reflexivity |].
  unfold dump_texts, array_text.
  rewrite concat_str_app, items_texts_concat by congruence.
  cbn [concat_str]. rewrite !str_app_assoc, append_nil_r. reflexivity.
Qed.

Lemma items_chunks_ok (entries : list LeaderboardEntry) :
  forall first,
    forallb chunk_ok (items_chunks first entries) = forallb entry_writable entries.
Proof.
  induction entries as [| entry rest IH]; intro first; [reflexivity |].
  cbn [items_chunks forallb]. rewrite forallb_app, entry_chunks_ok, IH.
  now destruct first.
Qed.

Lemma dump_chunks_ok (entries : list LeaderboardEntry) :
  forallb chunk_ok (Encoder.iterencode 2 0 (dumped entries))
  = forallb entry_writable entries.
Proof.
  destruct entries as [| entry rest]; [reflexivity |].
  rewrite iterencode_dumped, forallb_app, items_chunks_ok. cbn. now rewrite andb_true_r.
Qed.

(** *** What [json.dump] leaves in the file *)

(** The dump completes exactly when every entry can be written, and the
    file then holds the whole text. *)
Lemma written_complete (entries : list LeaderboardEntry) :
  forallb entry_writable entries = true ->
  written entries = (None, Encoder.dumps (dumped entries)).
Proof.
  intro H. unfold written.
  pose proof (proj2 (write_chunks_ok _ EmptyString) (eq_trans (dump_chunks_ok entries) H))
    as Hn.
  destruct (write_chunks_prefix _ _ (dump_shadows entries) EmptyString)
    as (done & left & Ht & Hs & Hl & _).
  rewrite (Hl Hn), app_nil_r in Ht. subst done.
  rewrite dump_texts_concat in Hs. cbn [append] in Hs.
  destruct (Encoder.write_chunks (Encoder.iterencode 2 0 (dumped entries)) EmptyString)
    as [failure text]. cbn in Hn, Hs. now subst.
Qed.

Lemma written_none (entries : list LeaderboardEntry) (text : string) :
  written entries = (None, text) ->
  forallb entry_writable entries = true /\ text = Encoder.dumps (dumped entries).
Proof.
  intro H.
  assert (Hw : forallb entry_writable entries = true).
  { rewrite <- dump_chunks_ok. apply (write_chunks_ok _ EmptyString).
    unfold written in H. now rewrite H. }
  split; [exact Hw |]. rewrite (written_complete entries Hw) in H. congruence.
Qed.

(** A dump that raises leaves the first part of the text, and not all of
    it. *)
Lemma written_partial (entries : list LeaderboardEntry) (e : exn) (text : string) :
  written entries = (Some e, text) ->
  forallb entry_writable entries = false
  /\ exists rest, rest <> EmptyString /\ Encoder.dumps (dumped entries) = text ++ rest.
Proof.
  intro H. split.
  - destruct (forallb entry_writable entries) eqn:Hw; [| reflexivity].
    rewrite (written_complete entries Hw) in H. discriminate.
  - unfold written in H.
    destruct (write_chunks_prefix _ _ (dump_shadows entries) EmptyString)
      as (done & left & Ht & Hs & _ & Hl).
    rewrite H in Hs, Hl. cbn [fst snd append] in Hs, Hl.
    exists (concat_str left). split.
    + assert (Hne : left <> []) by (apply Hl; discriminate).
      destruct (exists_last Hne) as (l' & a & ->).
      assert (Ha : a = "]").
      { destruct entries as [| entry rest]; [discriminate H |].
        unfold dump_texts in Ht.
        change [nl; "]"] with ([nl] ++ ["]"])%list in Ht.
        rewrite !app_assoc in Ht. apply app_inj_tail in Ht as [_ Ht]. now symmetry. }
      subst a. rewrite concat_str_app. cbn [concat_str].
      destruct (concat_str l'); discriminate.
    + rewrite <- dump_texts_concat, Ht, concat_str_app. now subst text.
Qed.

Lemma written_exn (entries : list LeaderboardEntry) (e : exn) (text : string) :
  written entries = (Some e, text) -> e = ValueError \/ e = UnicodeEncodeError.
Proof.
  unfold written.
  assert (H : forall chunks t,
             Forall (fun c => forall x, c = inl x -> x = ValueError) chunks ->
             Encoder.write_chunks chunks t = (Some e, text) ->
             e = ValueError \/ e = UnicodeEncodeError).
  { induction chunks as [| c chunks IH]; intros t Hc Hw; [discriminate |].
    inversion Hc as [| ? ? Hx Hr]; subst. cbn in Hw. destruct c as [x | u].
    - left. injection Hw as <- _. now apply Hx.
    - destruct (has_surrogate u); [right; congruence | now apply (IH (t ++ u))]. }
  apply H. clear H.
  assert (He : forall entry, Forall (fun c => forall x, c = inl x -> x = ValueError)
                                    (entry_chunks entry)).
  { intro entry. rewrite entry_chunks_eq.
    repeat (apply Forall_cons;
            [first [intros x Hx; rewrite intstr_ok in Hx;
                    destruct (int_writable _); congruence
                   | discriminate] |]).
    apply Forall_nil. }
  destruct entries as [| entry rest]; [repeat constructor; discriminate |].
  rewrite iterencode_dumped. apply Forall_app. split; [| repeat constructor; discriminate].
  generalize true. generalize (entry :: rest).
  induction l as [| a l IH]; intro first; [constructor |].
  cbn [items_chunks]. constructor; [discriminate |].
  apply Forall_app. split; [apply He | apply IH].
Qed.

(** ** Runs of the program *)

Lemma add_events_nil (w : World) : add_events [] w = w.
Proof.
  destruct w as [f c n evs]. unfold add_events. cbn. now rewrite app_nil_r.
Qed.

Lemma add_events_app (l1 l2 : list event) (w : World) :
  add_events l2 (add_events l1 w) = add_events (l1 ++ l2) w.
Proof.
  unfold add_events. cbn. now rewrite app_assoc.
Qed.

Lemma emit_event_add (ev : event) (w : World) : emit_event ev w = add_events [ev] w.
Proof. reflexivity. Qed.

Lemma comprehension_run (items : list json) :
  forall w,
    comprehension items w
    = (comprehension_result items, add_events (comprehension_events items) w).
Proof.
  induction items as [| item rest IH]; intro w.
  - cbn. now rewrite add_events_nil.
  - destruct item; cbn;
      try (unfold bind, raise; cbn; now rewrite add_events_nil).
    unfold bind, emit. cbn.
    destruct (LeaderboardEntry_init d) as [e | entry]; cbn.
    + unfold raise. reflexivity.
    + unfold ret. rewrite IH, emit_event_add, add_events_app. cbn.
      destruct (comprehension_result rest); reflexivity.
Qed.

(** The loop over the first records prints the lines up to the first one
    that cannot be encoded, and raises there. *)
Lemma for_each_print (entries : list LeaderboardEntry) :
  forall w,
    for_each entries (fun entry => print (Text (summary_entry entry))) w
    = (if forallb (fun entry => printable (Text (summary_entry entry))) entries
       then inr tt else inl UnicodeEncodeError,
       add_events (map (fun entry => Print (Text (summary_entry entry)))
                       (printed_entries entries)) w).
Proof.
  induction entries as [| a r IH]; intro w.
  - cbn. unfold ret. now rewrite add_events_nil.
  - cbn [for_each forallb printed_entries]. unfold bind at 1, print at 1.
    destruct (printable (Text (summary_entry a))).
    + rewrite IH, emit_event_add, add_events_app. reflexivity.
    + cbn. now rewrite add_events_nil.
Qed.

Lemma iterate_result_exn (v : json) (e : exn) :
  iterate_result v = inl e -> e = TypeError.
Proof.
  destruct v; cbn; congruence.
Qed.

Lemma LeaderboardEntry_init_exn (kw : dict json) (e : exn) :
  LeaderboardEntry_init kw = inl e -> exists errors, e = ValidationError errors.
Proof.
  unfold LeaderboardEntry_init.
  match goal with |- context [match ?f with inr _ => _ | inl _ => _ end] => destruct f end.
  - intro H. injection H as <-. eauto.
  - discriminate.
Qed.

Lemma construct_result_exn (item : json) (e : exn) :
  construct_result item = inl e -> e = TypeError \/ exists errors, e = ValidationError errors.
Proof.
  destruct item; cbn; try (intro H; left; congruence).
  intro H. right. now apply LeaderboardEntry_init_exn in H.
Qed.

Lemma comprehension_result_exn (items : list json) (e : exn) :
  comprehension_result items = inl e ->
  e = TypeError \/ exists errors, e = ValidationError errors.
Proof.
  induction items as [| item rest IH]; cbn; [discriminate |].
  destruct (construct_result item) as [e' | entry] eqn:Hc.
  - intro H. injection H as <-. now apply construct_result_exn in Hc.
  - destruct (comprehension_result rest); [| discriminate].
    intro H. injection H as <-. now apply IH.
Qed.

Lemma report_line_unexpected (e : exn) :
  e <> JSONDecodeError -> report_line e = Unexpected e.
Proof.
  destruct e; cbn; congruence.
Qed.

(** The handlers print one line for the exception caught. *)
Lemma handler_run (e : exn) (w : World) :
  match e with
  | JSONDecodeError => print (Text invalid_json_message)
  | _ => print (Unexpected e)
  end w = (inr tt, add_events [Print (report_line e)] w).
Proof.
  destruct e; reflexivity.
Qed.

Ltac step := unfold bind at 1; cbv beta iota.

Lemma main_failed (r : CrawlResult) (w : World) :
  success r = false ->
  main r w = (inr tt, add_events [Print (Text (scraping_error (error_message r)))] w).
Proof.
  intro Hs. unfold main, print. rewrite Hs. unfold printable, scraping_error.
  rewrite has_surrogate_ascii_app by reflexivity.
  now rewrite (error_message_text r).
Qed.

Lemma main_undecodable (r : CrawlResult) (w : World) (e : exn) :
  success r = true ->
  Decoder.loads (nesting w) (extracted_content r) = inl e ->
  main r w
  = (inr tt, add_events [Loads (extracted_content r); Print (report_line e)] w).
Proof.
  intros Hs Hl. unfold main. rewrite Hs. unfold try_except.
  step. unfold json_loads. step. unfold emit at 1. cbn [nesting emit_event]. rewrite Hl.
  rewrite handler_run, emit_event_add, add_events_app. reflexivity.
Qed.

Lemma iterate_run (v : json) (w : World) :
  iterate v w = (iterate_result v, w).
Proof.
  destruct v; reflexivity.
Qed.

Lemma main_not_iterable (r : CrawlResult) (w : World) (v : json) (e : exn) :
  success r = true ->
  Decoder.loads (nesting w) (extracted_content r) = inr v ->
  iterate_result v = inl e ->
  main r w = (inr tt, add_events [Loads (extracted_content r); Print (Unexpected e)] w).
Proof.
  intros Hs Hl Hi. unfold main. rewrite Hs. unfold try_except.
  step. unfold json_loads. step. unfold emit at 1. cbn [nesting emit_event]. rewrite Hl.
  step. rewrite iterate_run, Hi.
  pose proof (iterate_result_exn _ _ Hi) as ->.
  rewrite emit_event_add. cbn. unfold print. cbn. rewrite emit_event_add, add_events_app.
  reflexivity.
Qed.

Lemma main_rejected (r : CrawlResult) (w : World) (v : json) (items : list json) (e : exn) :
  success r = true ->
  Decoder.loads (nesting w) (extracted_content r) = inr v ->
  iterate_result v = inr items ->
  comprehension_result items = inl e ->
  main r w
  = (inr tt,
     add_events (Loads (extracted_content r) :: comprehension_events items
                   ++ [Print (Unexpected e)]) w).
Proof.
  intros Hs Hl Hi Hc.
  assert (Hne : e <> JSONDecodeError).
  { destruct (comprehension_result_exn _ _ Hc) as [-> | [errors ->]]; discriminate. }
  unfold main. rewrite Hs. unfold try_except.
  step. unfold json_loads. step. unfold emit at 1. cbn [nesting emit_event]. rewrite Hl.
  step. rewrite iterate_run, Hi. step. rewrite comprehension_run, Hc.
  rewrite handler_run, (report_line_unexpected e Hne).
  rewrite !emit_event_add, !add_events_app. reflexivity.
Qed.

(** What the [try] block does once the records are validated. *)
Lemma main_validated (r : CrawlResult) (w : World) (v : json) (items : list json)
      (entries : list LeaderboardEntry) :
  success r = true ->
  Decoder.loads (nesting w) (extracted_content r) = inr v ->
  iterate_result v = inr items ->
  comprehension_result items = inr entries ->
  main r w
  = try_except
      (for_each (firstn 3 entries) (fun entry => print (Text (summary_entry entry))) ;;
       dump_to_file OUTPUT_FILE (dumped entries) ;;
       print (Text saved_message) ;;
       show_usage)
      (fun e => print (report_line e))
      (add_events (Loads (extracted_content r) :: comprehension_events items
                     ++ [Print (Text (summary_header (List.length entries)))]) w).
Proof.
  intros Hs Hl Hi Hc.
  unfold main. rewrite Hs. unfold try_except.
  step. unfold json_loads. step. unfold emit at 1. cbn [nesting emit_event]. rewrite Hl.
  step. rewrite iterate_run, Hi. step. rewrite comprehension_run, Hc.
  step. unfold print at 1. rewrite header_printable.
  rewrite !emit_event_add, !add_events_app. cbn [app].
  unfold dumped.
  match goal with
  | |- match ?a with _ => _ end = match ?b with _ => _ end =>
      replace a with b by reflexivity; destruct b as [[e | []] w']
  end; [| reflexivity].
  destruct e; reflexivity.
Qed.

Lemma main_unprintable (r : CrawlResult) (w : World) (v : json) (items : list json)
      (entries : list LeaderboardEntry) :
  success r = true ->
  Decoder.loads (nesting w) (extracted_content r) = inr v ->
  iterate_result v = inr items ->
  comprehension_result items = inr entries ->
  summary_printable entries = false ->
  main r w
  = (inr tt,
     add_events (Loads (extracted_content r) :: comprehension_events items
                   ++ summary_events entries
                   ++ [Print (Unexpected UnicodeEncodeError)]) w).
Proof.
  intros Hs Hl Hi Hc Hp.
  rewrite (main_validated r w v items entries Hs Hl Hi Hc).
  unfold try_except. step. rewrite for_each_print.
  unfold summary_printable in Hp. rewrite Hp.
  unfold print. cbn [printable report_line].
  rewrite !emit_event_add, !add_events_app. unfold summary_events.
  cbn [app]. rewrite <- !app_assoc. reflexivity.
Qed.

Lemma main_unwritable (r : CrawlResult) (w : World) (v : json) (items : list json)
      (entries : list LeaderboardEntry) :
  success r = true ->
  Decoder.loads (nesting w) (extracted_content r) = inr v ->
  iterate_result v = inr items ->
  comprehension_result items = inr entries ->
  summary_printable entries = true ->
  can_open w = false ->
  main r w
  = (inr tt,
     add_events (Loads (extracted_content r) :: comprehension_events items
                   ++ summary_events entries ++ [Print (Unexpected OSError)]) w).
Proof.
  intros Hs Hl Hi Hc Hp Ho.
  rewrite (main_validated r w v items entries Hs Hl Hi Hc).
  unfold try_except. step. rewrite for_each_print.
  unfold summary_printable in Hp. rewrite Hp.
  step. unfold dump_to_file. cbn [can_open add_events]. rewrite Ho.
  unfold print. cbn [printable report_line].
  rewrite !emit_event_add, !add_events_app. unfold summary_events.
  cbn [app]. rewrite <- !app_assoc. reflexivity.
Qed.

(** [json.dump] raises part of the way: the file is closed with what was
    written and the generic handler reports the exception. *)
Lemma main_partial (r : CrawlResult) (w : World) (v : json) (items : list json)
      (entries : list LeaderboardEntry) (e : exn) (text : string) :
  success r = true ->
  Decoder.loads (nesting w) (extracted_content r) = inr v ->
  iterate_result v = inr items ->
  comprehension_result items = inr entries ->
  summary_printable entries = true ->
  can_open w = true ->
  written entries = (Some e, text) ->
  main r w
  = (inr tt,
     {| file := Some text;
        can_open := true;
        nesting := nesting w;
        events := (events w ++ Loads (extracted_content r) :: comprehension_events items
                     ++ summary_events entries
                     ++ file_events text ++ [Print (Unexpected e)])%list |}).
Proof.
  intros Hs Hl Hi Hc Hp Ho Hw.
  assert (Hne : e <> JSONDecodeError).
  { destruct (written_exn _ _ _ Hw) as [-> | ->]; discriminate. }
  rewrite (main_validated r w v items entries Hs Hl Hi Hc).
  unfold try_except. step. rewrite for_each_print.
  unfold summary_printable in Hp. rewrite Hp.
  step. unfold dump_to_file. cbn [can_open add_events]. rewrite Ho.
  unfold written in Hw. rewrite Hw.
  rewrite (report_line_unexpected e Hne).
  unfold print, set_file, emit_event, add_events, summary_events, file_events.
  cbn [printable file can_open events nesting]. rewrite Ho.
  repeat (rewrite <- app_assoc; cbn [app]). reflexivity.
Qed.

Lemma main_saved (r : CrawlResult) (w : World) (v : json) (items : list json)
      (entries : list LeaderboardEntry) :
  success r = true ->
  Decoder.loads (nesting w) (extracted_content r) = inr v ->
  iterate_result v = inr items ->
  comprehension_result items = inr entries ->
  summary_printable entries = true ->
  can_open w = true ->
  forallb entry_writable entries = true ->
  main r w
  = (inr tt,
     {| file := Some (Encoder.dumps (dumped entries));
        can_open := true;
        nesting := nesting w;
        events := (events w ++ Loads (extracted_content r) :: comprehension_events items
                     ++ summary_events entries ++ save_events entries)%list |}).
Proof.
  intros Hs Hl Hi Hc Hp Ho Hw.
  rewrite (main_validated r w v items entries Hs Hl Hi Hc).
  unfold try_except. step. rewrite for_each_print.
  unfold summary_printable in Hp. rewrite Hp.
  step. unfold dump_to_file. cbn [can_open add_events]. rewrite Ho.
  pose proof (written_complete entries Hw) as Hd. unfold written in Hd. rewrite Hd.
  step. unfold print, show_usage, emit, set_file, emit_event, add_events, summary_events,
    save_events.
  cbn [printable file can_open events nesting]. rewrite Ho.
  change (has_surrogate saved_message) with false.
  cbn [negb file can_open events nesting].
  repeat (rewrite <- app_assoc; cbn [app]). reflexivity.
Qed.


(** ** The decoder reads what the encoder writes *)

(** *** Strings *)

Lemma scanstring_escape_char (c : ascii) (f : nat) (t : string) :
  Decoder.scanstring (S f) (Encoder.escape_char c ++ t)
  = match Decoder.scanstring f t with
    | Some (u, rest) => Some (String c u, rest)
    | None => None
    end.
Proof.
  destruct c as [b0 b1 b2 b3 b4 b5 b6 b7].
  destruct b0, b1, b2, b3, b4, b5, b6, b7; reflexivity.
Qed.

Lemma scanstring_escape (s : string) :
  forall f rest,
    (String.length s < f)%nat ->
    Decoder.scanstring f (Encoder.escape s ++ dq ++ rest) = Some (s, rest).
Proof.
  induction s as [| c s IH]; intros f rest Hf.
  - destruct f as [| f]; [lia |]. reflexivity.
  - destruct f as [| f]; [lia |]. cbn [Encoder.escape].
    rewrite str_app_assoc, scanstring_escape_char, IH by (cbn in Hf; lia).
    reflexivity.
Qed.

(** A value follows its text when the decoder, started on the text, returns
    the value and stops right after it, whatever comes next. *)
Lemma scan_quoted (s : string) (f d : nat) (rest : string) :
  Decoder.scan_once (S f) d (quoted s ++ rest) = inr (JStr s, rest).
Proof.
  unfold quoted.
  change ((dq ++ Encoder.escape s ++ dq) ++ rest)
    with (String (ascii_of_nat 34) ((Encoder.escape s ++ dq) ++ rest)).
  rewrite scan_once_unfold. cbv zeta.
  change (code (ascii_of_nat 34) =? 34) with true. cbv iota.
  rewrite (scanstring_fuel _ (S (String.length ((Encoder.escape s ++ dq) ++ rest))
                                + S (String.length s))) by lia.
  rewrite str_app_assoc, scanstring_escape by lia.
  reflexivity.
Qed.

(** *** Ints *)

Ltac digit_arith :=
  repeat match goal with
         | |- context [digit_val ?c] =>
             let d := eval vm_compute in (digit_val c) in change (digit_val c) with d
         end;
  lia.

Lemma digits_value_acc (u : Decimal.uint) :
  forall acc, digits_value (Zpos acc) (NilEmpty.string_of_uint u)
              = Zpos (Pos.of_uint_acc u acc).
Proof.
  induction u; intro acc; cbn [NilEmpty.string_of_uint digits_value Pos.of_uint_acc];
    try reflexivity;
    match goal with
    | |- digits_value ?a _ = Zpos (Pos.of_uint_acc _ ?b) =>
        replace a with (Zpos b) by digit_arith
    end; apply IHu.
Qed.

Lemma digits_value_uint (u : Decimal.uint) :
  digits_value 0 (NilEmpty.string_of_uint u) = Z.of_N (Pos.of_uint u).
Proof.
  induction u; cbn [NilEmpty.string_of_uint digits_value Pos.of_uint];
    try reflexivity;
    try (match goal with
         | |- digits_value ?a _ = Z.of_N (N.pos (Pos.of_uint_acc _ ?b)) =>
             replace a with (Zpos b) by digit_arith
         end; apply digits_value_acc).
  exact IHu.
Qed.

Lemma to_uint_unorm (p : positive) :
  Decimal.unorm (Pos.to_uint p) = Pos.to_uint p.
Proof.
  rewrite <- (DecimalPos.Unsigned.to_of (Pos.to_uint p)), DecimalPos.Unsigned.of_to.
  reflexivity.
Qed.

Lemma to_uint_head (p : positive) :
  exists c r, NilEmpty.string_of_uint (Pos.to_uint p) = String c r
              /\ is_digit c = true /\ code c <> 48.
Proof.
  pose proof (to_uint_unorm p) as Hn.
  pose proof (DecimalPos.Unsigned.to_uint_nonnil p) as Hnil.
  destruct (Pos.to_uint p) as [| u | u | u | u | u | u | u | u | u | u] eqn:E;
    try contradiction;
    try (cbn; eexists; eexists; split; [reflexivity | split; [reflexivity | discriminate]]).
  exfalso.
  assert (Hu : Decimal.unorm u = Decimal.D0 u) by (rewrite <- Hn; reflexivity).
  destruct u as [| | | | | | | | | |];
    try (match type of Hu with
         | Decimal.unorm ?x = _ =>
             assert (Hd : (Decimal.nb_digits (Decimal.unorm x) <= Decimal.nb_digits x)%nat)
               by (apply DecimalFacts.nb_digits_unorm; discriminate)
         end;
         rewrite Hu in Hd; cbn in Hd; lia).
  now apply (DecimalPos.Unsigned.to_uint_nonzero p).
Qed.

Lemma terminated_head (rest : string) :
  terminated rest ->
  exists c r, rest = String c r /\ (code c = 44 \/ code c = 10).
Proof.
  intros (r & [-> | ->]);
    [exists (ascii_of_nat 44), r | exists (ascii_of_nat 10), r]; auto.
Qed.

Lemma span_digits_app (ds rest : string) :
  all_digits ds = true -> terminated rest ->
  Decoder.span_digits (ds ++ rest) = (ds, rest).
Proof.
  intros Hd Ht. induction ds as [| c ds IH]; cbn.
  - destruct Ht as (r & [-> | ->]); reflexivity.
  - cbn in Hd. apply andb_prop in Hd as [Hc Hds]. rewrite Hc, (IH Hds). reflexivity.
Qed.

Lemma prefix_head (p c : ascii) (s r : string) :
  p <> c -> prefix (String p s) (String c r) = false.
Proof.
  intro H. cbn. destruct (ascii_dec p c); [contradiction | reflexivity].
Qed.

Lemma prefix_same (a : ascii) (s r : string) :
  prefix (String a s) (String a r) = prefix s r.
Proof.
  change (prefix (String a s) (String a r))
    with (if ascii_dec a a then prefix s r else false).
  destruct (ascii_dec a a); [reflexivity | contradiction].
Qed.

Lemma digit_bounds (c : ascii) : is_digit c = true -> 48 <= code c <= 57.
Proof.
  unfold is_digit. intro H. apply andb_prop in H as [H1 H2].
  apply Z.leb_le in H1, H2. lia.
Qed.

Ltac code_false :=
  repeat match goal with
         | |- context [?a =? ?b] =>
             replace (a =? b) with false by (symmetry; apply Z.eqb_neq; lia)
         end.

(** A text that starts with a digit is read as a number. *)
Lemma scan_once_digit (f d : nat) (c : ascii) (r : string) :
  is_digit c = true ->
  Decoder.scan_once (S f) d (String c r) = Decoder.match_number (String c r).
Proof.
  intro Hc. pose proof (digit_bounds c Hc) as Hb.
  rewrite scan_once_unfold. cbv zeta. code_false.
  rewrite !prefix_head; [reflexivity | | | | | |];
    intros <-; vm_compute in Hb; destruct Hb as [H1 H2];
    try (now apply H1); now apply H2.
Qed.

Lemma fraction_part_terminated (rest : string) :
  terminated rest -> Decoder.fraction_part rest = (None, rest).
Proof.
  intros (r & [-> | ->]); destruct r; reflexivity.
Qed.

Lemma exponent_part_terminated (rest : string) :
  terminated rest -> Decoder.exponent_part rest = (None, rest).
Proof.
  intros (r & [-> | ->]); reflexivity.
Qed.

Lemma match_number_digits (neg : bool) (c : ascii) (ds rest : string) :
  all_digits (String c ds) = true ->
  (code c = 48 -> ds = EmptyString) ->
  slen (String c ds) <= max_str_digits ->
  terminated rest ->
  Decoder.match_number ((if neg then "-" else EmptyString) ++ String c ds ++ rest)
  = inr (JInt (cond_Zopp neg (digits_value 0 (String c ds))), rest).
Proof.
  intros Hd Hz Hlen Ht.
  assert (Hc : is_digit c = true) by (cbn in Hd; now apply andb_prop in Hd as [Hc _]).
  pose proof (digit_bounds c Hc) as Hb.
  unfold Decoder.match_number.
  assert (Hs : Decoder.minus_sign ((if neg then "-" else EmptyString) ++ String c ds ++ rest)
               = (neg, String c ds ++ rest)).
  { destruct neg; [reflexivity |]. cbn. now code_false. }
  rewrite Hs.
  assert (Hi : Decoder.integer_part (String c ds ++ rest) = Some (String c ds, rest)).
  { unfold Decoder.integer_part. cbn [append]. rewrite Hc.
    destruct (code c =? 48) eqn:E.
    - apply Z.eqb_eq in E. rewrite (Hz E).
      assert (c = "0"%char) as ->.
      { rewrite <- (ascii_nat_embedding c). unfold code in E.
        replace (nat_of_ascii c) with 48%nat by lia. reflexivity. }
      reflexivity.
    - change (String c (ds ++ rest)) with (String c ds ++ rest).
      now rewrite span_digits_app. }
  rewrite Hi, (fraction_part_terminated rest Ht), (exponent_part_terminated rest Ht).
  replace (max_str_digits <? slen (String c ds)) with false
    by (symmetry; apply Z.ltb_ge; exact Hlen).
  reflexivity.
Qed.

Lemma repr_int_shape (n : Z) :
  exists (neg : bool) (c : ascii) (ds : string),
    repr_int n = (if neg then "-" else EmptyString) ++ String c ds
    /\ String c ds = repr_int (Z.abs n)
    /\ all_digits (String c ds) = true
    /\ (code c = 48 -> ds = EmptyString)
    /\ cond_Zopp neg (digits_value 0 (String c ds)) = n.
Proof.
  assert (Hp : forall p, exists c ds,
               NilZero.string_of_uint (Pos.to_uint p) = String c ds
               /\ all_digits (String c ds) = true
               /\ (code c = 48 -> ds = EmptyString)
               /\ digits_value 0 (String c ds) = Zpos p).
  { intro p. destruct (to_uint_head p) as (c & ds & E & Hc & H48).
    exists c, ds.
    assert (En : NilZero.string_of_uint (Pos.to_uint p)
                 = NilEmpty.string_of_uint (Pos.to_uint p)).
    { pose proof (DecimalPos.Unsigned.to_uint_nonnil p).
      destruct (Pos.to_uint p); [contradiction | reflexivity ..]. }
    rewrite En, E. repeat split.
    - rewrite <- E. apply uint_all_digits.
    - intro H. contradiction.
    - rewrite <- E, digits_value_uint, DecimalPos.Unsigned.of_to. reflexivity. }
  destruct n as [| p | p].
  - exists false, "0"%char, EmptyString. repeat split.
  - destruct (Hp p) as (c & ds & E & H1 & H2 & H3).
    exists false, c, ds. repeat split; auto.
  - destruct (Hp p) as (c & ds & E & H1 & H2 & H3).
    exists true, c, ds. repeat split; auto.
    + unfold repr_int. cbn. unfold NilZero.string_of_uint in E. now rewrite <- E.
    + cbn [cond_Zopp]. now rewrite H3.
Qed.

Lemma scan_repr_int (n : Z) : int_writable n = true -> scans_as (repr_int n) (JInt n).
Proof.
  intro Hw.
  destruct (repr_int_shape n) as (neg & c & ds & E & Habs & Hd & Hz & Hn).
  assert (Hlen : slen (String c ds) <= max_str_digits).
  { unfold int_writable in Hw. rewrite <- Habs in Hw. now apply Z.leb_le in Hw. }
  rewrite E. clear E Habs Hw.
  intros f d rest Ht.
  assert (Hc : is_digit c = true) by (cbn in Hd; now apply andb_prop in Hd as [Hc _]).
  pose proof (digit_bounds c Hc) as Hb.
  rewrite str_app_assoc.
  pose proof (match_number_digits neg c ds rest Hd Hz Hlen Ht) as Hm. rewrite Hn in Hm.
  destruct neg.
  - split.
    + reflexivity.
    + change ("-" ++ String c ds ++ rest) with (String "-" (String c (ds ++ rest))) in *.
      rewrite scan_once_unfold. cbv zeta.
      change (code "-" =? 34) with false. change (code "-" =? 123) with false.
      change (code "-" =? 91) with false. cbv iota.
      rewrite !prefix_head by discriminate.
      assert (Hi : prefix "-Infinity" (String "-" (String c (ds ++ rest))) = false).
      { rewrite prefix_same. apply prefix_head. intros <-.
        vm_compute in Hb. destruct Hb as [_ H2]. now apply H2. }
      rewrite Hi. exact Hm.
  - cbn [append] in *. split.
    + cbn [Decoder.skip_ws]. unfold Decoder.is_ws. cbv zeta. code_false. reflexivity.
    + rewrite scan_once_digit by exact Hc. exact Hm.
Qed.

Lemma scans_quoted (s : string) : scans_as (quoted s) (JStr s).
Proof.
  intros f d rest _. split; [reflexivity | apply scan_quoted].
Qed.

(** *** Fuel *)

Lemma scan_mono (f : nat) :
  (forall d s x, Decoder.scan_once f d s = inr x -> Decoder.scan_once (S f) d s = inr x)
  /\ (forall d s acc x, Decoder.parse_array f d s acc = inr x
                        -> Decoder.parse_array (S f) d s acc = inr x)
  /\ (forall d s acc x, Decoder.parse_object f d s acc = inr x
                        -> Decoder.parse_object (S f) d s acc = inr x).
Proof.
  induction f as [| f (IHs & IHa & IHo)].
  { repeat split; intros; discriminate. }
  repeat split.
  - intros d s x H. destruct s as [| c t]; [discriminate |].
    rewrite scan_once_unfold in *. cbv zeta in *.
    destruct (code c =? 34); [exact H |].
    destruct (code c =? 123).
    { destruct d as [| d]; [exact H |].
      destruct (prefix "}" (Decoder.skip_ws t)); [exact H | now apply IHo]. }
    destruct (code c =? 91).
    { destruct d as [| d]; [exact H |].
      destruct (prefix "]" (Decoder.skip_ws t)); [exact H | now apply IHa]. }
    exact H.
  - intros d s acc x H. rewrite parse_array_unfold in *.
    destruct (Decoder.scan_once f d s) as [e | [v t]] eqn:E; [discriminate |].
    rewrite (IHs _ _ _ E).
    destruct (prefix "]" (Decoder.skip_ws t)); [exact H |].
    destruct (prefix "," (Decoder.skip_ws t)); [| discriminate].
    now apply IHa.
  - intros d s acc x H. destruct s as [| c t]; [discriminate |].
    rewrite parse_object_unfold in *.
    destruct (negb (code c =? 34)); [discriminate |].
    destruct (Decoder.scanstring (S (String.length t)) t) as [[k r1] |]; [| discriminate].
    destruct (negb (prefix ":" (Decoder.skip_ws r1))); [discriminate |].
    destruct (Decoder.scan_once f d (Decoder.skip_ws (Decoder.drop 1 (Decoder.skip_ws r1))))
      as [e | [v r3]] eqn:E3; [discriminate |].
    rewrite (IHs _ _ _ E3).
    destruct (prefix "}" (Decoder.skip_ws r3)); [exact H |].
    destruct (prefix "," (Decoder.skip_ws r3)); [| discriminate].
    now apply IHo.
Qed.

Lemma scan_once_more_fuel (f f' d : nat) (s : string) (x : json * string) :
  (f <= f')%nat -> Decoder.scan_once f d s = inr x -> Decoder.scan_once f' d s = inr x.
Proof.
  induction 1 as [| f' _ IH]; [auto |].
  intro H. apply (proj1 (scan_mono f')). auto.
Qed.

(** A text the decoder reads with some fuel, [json.loads] reads. *)
Lemma loads_of_scan (f d : nat) (s : string) (v : json) :
  Decoder.skip_ws s = s ->
  Decoder.scan_once f d s = inr (v, EmptyString) ->
  Decoder.loads d s = inr v.
Proof.
  intros Hw H. unfold Decoder.loads. rewrite Hw.
  set (F := (2 * String.length s + 2)%nat).
  assert (HF : Decoder.scan_once (Nat.max f F) d s = inr (v, EmptyString)).
  { apply (scan_once_more_fuel f); [lia | exact H]. }
  rewrite (proj1 (scan_fuel F (Nat.max f F)) d s) by lia.
  now rewrite HF.
Qed.

(** *** Objects *)

Lemma terminated_comma (r : string) : terminated ("," ++ r).
Proof. exists r. now left. Qed.

Lemma terminated_nl (r : string) : terminated (nl ++ r).
Proof. exists r. now right. Qed.

Lemma fields_layout_head (fields : list (string * string)) (tail : string) :
  fields <> [] ->
  exists r, fields_layout fields tail = String (ascii_of_nat 34) r.
Proof.
  destruct fields as [| [key text] rest]; [congruence |]. intros _.
  cbn [fields_layout]. unfold quoted. eexists. reflexivity.
Qed.

(** The loop of [JSONObject] on the fields as written: each key and value is
    read and set, in order. *)
Lemma parse_fields (fields : list (string * string)) (values : list json) :
  Forall2 (fun field v => scans_as (snd field) v) fields values ->
  fields <> [] ->
  forall f d tail acc,
    Decoder.parse_object (List.length fields + S f) d (fields_layout fields tail) acc
    = inr (JDict (fold_left set_pair (combine (map fst fields) values) acc), tail).
Proof.
  induction 1 as [| [key text] v fields values Hv Hrest IH]; [congruence |].
  intros _ f d tail acc.
  cbn [fields_layout List.length Nat.add map combine fold_left fst snd] in *.
  unfold quoted at 1.
  change ((dq ++ Encoder.escape key ++ dq) ++ ?x)
    with (String (ascii_of_nat 34) ((Encoder.escape key ++ dq) ++ x)).
  rewrite parse_object_unfold.
  change (code (ascii_of_nat 34) =? 34) with true. cbv iota. cbn [negb].
  match goal with
  | |- context [Decoder.scanstring (S (String.length ?r)) ?r] =>
      rewrite (scanstring_fuel _ (S (String.length r) + S (String.length key))) by lia
  end.
  rewrite str_app_assoc, scanstring_escape by lia.
  cbv iota beta.
  change (Decoder.skip_ws (": " ++ ?x)) with (String ":" (String " " x)).
  change (prefix ":" (String ":" ?x)) with (prefix EmptyString x).
  change (Decoder.drop 1 (String ":" ?x)) with x.
  assert (Hp : forall x : string, prefix EmptyString x = true) by (now intros []).
  rewrite Hp. cbn [negb]. cbv iota.
  set (R := match fields with
            | [] => nl ++ "  }" ++ tail
            | _ :: _ => "," ++ nl ++ "    " ++ fields_layout fields tail
            end).
  assert (HR : terminated R).
  { subst R. destruct fields; [apply terminated_nl | apply terminated_comma]. }
  change (Decoder.skip_ws (String " " (text ++ R))) with (Decoder.skip_ws (text ++ R)).
  rewrite Nat.add_succ_r.
  destruct (Hv (List.length fields + f)%nat d R HR) as [Hw Hs].
  rewrite Hw, Hs. cbv iota beta.
  subst R. destruct fields as [| field fields].
  - inversion Hrest; subst.
    change (Decoder.skip_ws (nl ++ "  }" ++ tail)) with (String "}" tail).
    change (prefix "}" (String "}" tail)) with (prefix EmptyString tail).
    rewrite Hp. reflexivity.
  - destruct (fields_layout_head (field :: fields) tail) as [r Hr]; [congruence |].
    rewrite Hr.
    change (Decoder.skip_ws ("," ++ ?x)) with ("," ++ x).
    change (prefix "}" ("," ++ ?x)) with false.
    change (prefix "," ("," ++ ?x)) with (prefix EmptyString x).
    rewrite Hp. cbv iota.
    change (Decoder.skip_ws (Decoder.drop 1 ("," ++ nl ++ "    " ++ String (ascii_of_nat 34) r)))
      with (String (ascii_of_nat 34) r).
    rewrite <- Hr.
    specialize (IH ltac:(congruence) f d tail (dict_set acc key v)).
    rewrite <- Nat.add_succ_r. exact IH.
Qed.

Lemma object_text_layout (entry : LeaderboardEntry) (tail : string) :
  object_text entry ++ tail
  = String "{" (nl ++ "    " ++ fields_layout (entry_fields entry) tail).
Proof.
  unfold object_text, entry_fields, field_text.
  cbn [join fields_layout]. unfold quoted at 1 3 5 7 9 11 13.
  change (Encoder.escape "rank") with "rank".
  change (Encoder.escape "model") with "model".
  change (Encoder.escape "arena score") with "arena score".
  change (Encoder.escape "95% CI") with "95% CI".
  change (Encoder.escape "votes") with "votes".
  change (Encoder.escape "organization") with "organization".
  change (Encoder.escape "license") with "license".
  rewrite !str_app_assoc. reflexivity.
Qed.

(** One object of the file is read back as the dumped entry. *)
Lemma scan_object_text (entry : LeaderboardEntry) :
  reads_back (arena_score entry) ->
  int_writable (rank entry) = true ->
  int_writable (votes entry) = true ->
  forall f d tail,
    Decoder.scan_once (9 + f) (S d) (object_text entry ++ tail)
    = inr (JDict (model_dump entry), tail).
Proof.
  intros Hx Hr Hv f d tail. rewrite object_text_layout.
  change (9 + f)%nat with (S (8 + f)). rewrite scan_once_unfold. cbv zeta.
  change (code "{" =? 34) with false. change (code "{" =? 123) with true. cbv iota.
  destruct (fields_layout_head (entry_fields entry) tail) as [r Er]; [discriminate |].
  rewrite Er.
  change (Decoder.skip_ws (nl ++ "    " ++ String (ascii_of_nat 34) r))
    with (String (ascii_of_nat 34) r).
  change (prefix "}" (String (ascii_of_nat 34) r)) with false. cbv iota.
  rewrite <- Er.
  change (8 + f)%nat with (List.length (entry_fields entry) + S f)%nat.
  rewrite (parse_fields (entry_fields entry)
             [ JInt (rank entry); JStr (model entry); JFloat (arena_score entry);
               JStr (ci_95 entry); JInt (votes entry); JStr (organization entry);
               JStr (license entry) ]).
  - reflexivity.
  - unfold entry_fields.
    repeat (apply Forall2_cons; cbn [snd];
            [first [apply scan_repr_int; assumption | apply scans_quoted | exact Hx] |]).
    apply Forall2_nil.
  - discriminate.
Qed.

(** *** The array *)

Lemma items_layout_head (entries : list LeaderboardEntry) (tail : string) :
  entries <> [] ->
  exists r, items_layout entries tail = String "{" r.
Proof.
  destruct entries as [| entry rest]; [congruence |]. intros _.
  cbn [items_layout]. rewrite object_text_layout. eexists. reflexivity.
Qed.

(** The loop of [JSONArray] on the objects as written. *)
Lemma parse_items (entries : list LeaderboardEntry) :
  Forall readable entries ->
  entries <> [] ->
  forall f d tail acc,
    Decoder.parse_array (List.length entries + (9 + f)) (S d) (items_layout entries tail) acc
    = inr (JList (acc ++ map (fun item => JDict (model_dump item)) entries)%list, tail).
Proof.
  induction 1 as [| entry rest (Hx & Hr & Hv) Hrest IH]; [congruence |].
  intros _ f d tail acc.
  assert (Hp : forall x : string, prefix EmptyString x = true) by (now intros []).
  cbn [items_layout List.length map]. 
  change (S (List.length rest) + (9 + f))%nat with (S (List.length rest + (9 + f))).
  rewrite parse_array_unfold.
  replace (List.length rest + (9 + f))%nat with (9 + (List.length rest + f))%nat at 1 by lia.
  rewrite (scan_object_text entry Hx Hr Hv). cbv iota beta.
  destruct rest as [| entry' rest].
  - change (Decoder.skip_ws (nl ++ "]" ++ tail)) with (String "]" tail).
    change (prefix "]" (String "]" tail)) with (prefix EmptyString tail).
    rewrite Hp. reflexivity.
  - destruct (items_layout_head (entry' :: rest) tail) as [r Er]; [congruence |].
    rewrite Er.
    change (Decoder.skip_ws ("," ++ ?x)) with ("," ++ x).
    change (prefix "]" ("," ++ ?x)) with false.
    change (prefix "," ("," ++ ?x)) with (prefix EmptyString x).
    rewrite Hp. cbv iota.
    change (Decoder.skip_ws (Decoder.drop 1 ("," ++ nl ++ "  " ++ String "{" r)))
      with (String "{" r).
    rewrite <- Er, IH by congruence.
    now rewrite <- app_assoc.
Qed.

Lemma array_text_layout (entries : list LeaderboardEntry) :
  entries <> [] ->
  array_text entries = String "[" (nl ++ "  " ++ items_layout entries EmptyString).
Proof.
  intro Hne. destruct entries as [| entry rest]; [congruence |].
  unfold array_text.
  change ("[" ++ ?x) with (String "[" x). f_equal.
  change (nl ++ ?x) with (String (ascii_of_nat 10) x). f_equal.
  change ("  " ++ ?x) with (String " " (String " " x)). do 2 f_equal.
  clear Hne. revert entry. induction rest as [| entry' rest IH]; intro entry.
  - reflexivity.
  - cbn [map join items_layout] in *. rewrite !str_app_assoc, IH. reflexivity.
Qed.

(** The text of the file is read back by [json.loads] as the value that was
    dumped, when the text of every score is. *)
Lemma loads_dumps (entries : list LeaderboardEntry) (d : nat) :
  Forall readable entries ->
  Decoder.loads (S (S d)) (Encoder.dumps (dumped entries)) = inr (dumped entries).
Proof.
  intro H. destruct entries as [| entry rest]; [reflexivity |].
  rewrite dumps_array_text.
  apply (loads_of_scan (S (List.length (entry :: rest) + (9 + 0)))).
  - rewrite array_text_layout by congruence. reflexivity.
  - rewrite array_text_layout by congruence.
    rewrite scan_once_unfold. cbv zeta.
    change (code "[" =? 34) with false. change (code "[" =? 123) with false.
    change (code "[" =? 91) with true. cbv iota.
    destruct (items_layout_head (entry :: rest) EmptyString) as [r Hr]; [congruence |].
    rewrite Hr.
    change (Decoder.skip_ws (nl ++ "  " ++ String "{" r)) with (String "{" r).
    change (prefix "]" (String "{" r)) with false. cbv iota.
    rewrite <- Hr, parse_items by (auto; congruence).
    reflexivity.
Qed.

(** *** Floats: the scanner does not look past a comma or a newline *)

Lemma same_float_eq (x y : float) : same_float x y = true -> x = y.
Proof.
  destruct x as [a | a | | a m e], y as [b | b | | b m' e']; cbn; try discriminate.
  - intro H. apply Bool.eqb_prop in H. now subst.
  - intro H. apply Bool.eqb_prop in H. now subst.
  - reflexivity.
  - intro H. apply andb_prop in H as [H He]. apply andb_prop in H as [Ha Hm].
    apply Bool.eqb_prop in Ha. apply Pos.eqb_eq in Hm. apply Z.eqb_eq in He. now subst.
Qed.

Lemma span_digits_local (t rest : string) :
  terminated rest ->
  Decoder.span_digits (t ++ rest)
  = (fst (Decoder.span_digits t), snd (Decoder.span_digits t) ++ rest).
Proof.
  intro Ht. induction t as [| c t IH].
  - destruct Ht as (r & [-> | ->]); reflexivity.
  - cbn [append Decoder.span_digits]. destruct (is_digit c); [| reflexivity].
    rewrite IH. now destruct (Decoder.span_digits t).
Qed.

Lemma minus_sign_local (t rest : string) :
  terminated rest ->
  Decoder.minus_sign (t ++ rest)
  = (fst (Decoder.minus_sign t), snd (Decoder.minus_sign t) ++ rest).
Proof.
  intro Ht. destruct t as [| c t].
  - destruct Ht as (r & [-> | ->]); reflexivity.
  - cbn [append Decoder.minus_sign]. now destruct (code c =? 45).
Qed.

Lemma integer_part_local (t rest : string) :
  terminated rest ->
  Decoder.integer_part (t ++ rest)
  = match Decoder.integer_part t with
    | Some (ip, r) => Some (ip, r ++ rest)
    | None => None
    end.
Proof.
  intro Ht. destruct t as [| c t].
  - destruct Ht as (r & [-> | ->]); reflexivity.
  - unfold Decoder.integer_part. cbn [append]. destruct (is_digit c); [| reflexivity].
    destruct (code c =? 48); [reflexivity |].
    change (String c (t ++ rest)) with (String c t ++ rest).
    rewrite span_digits_local by assumption.
    now destruct (Decoder.span_digits (String c t)).
Qed.

Lemma fraction_part_local (t rest : string) :
  terminated rest ->
  Decoder.fraction_part (t ++ rest)
  = (fst (Decoder.fraction_part t), snd (Decoder.fraction_part t) ++ rest).
Proof.
  intro Ht. destruct t as [| p [| d t]].
  - now apply fraction_part_terminated.
  - destruct Ht as (r & [-> | ->]); cbn; now destruct (code p =? 46).
  - unfold Decoder.fraction_part. cbn [append].
    destruct ((code p =? 46) && is_digit d); [| reflexivity].
    change (String d (t ++ rest)) with (String d t ++ rest).
    rewrite span_digits_local by assumption.
    now destruct (Decoder.span_digits (String d t)).
Qed.

Lemma exponent_part_local (t rest : string) :
  terminated rest ->
  Decoder.exponent_part (t ++ rest)
  = (fst (Decoder.exponent_part t), snd (Decoder.exponent_part t) ++ rest).
Proof.
  intro Ht. destruct t as [| e t].
  - now apply exponent_part_terminated.
  - unfold Decoder.exponent_part. cbn [append].
    destruct ((code e =? 101) || (code e =? 69)); [| reflexivity].
    destruct t as [| g t].
    + destruct Ht as (r & [-> | ->]); reflexivity.
    + cbn [append].
      destruct (code g =? 45); [| destruct (code g =? 43)].
      * rewrite span_digits_local by assumption.
        destruct (Decoder.span_digits t) as [[| ? ?] ?]; reflexivity.
      * rewrite span_digits_local by assumption.
        destruct (Decoder.span_digits t) as [[| ? ?] ?]; reflexivity.
      * change (String g (t ++ rest)) with (String g t ++ rest).
        rewrite span_digits_local by assumption.
        destruct (Decoder.span_digits (String g t)) as [[| ? ?] ?]; reflexivity.
Qed.

(** A number is read the same, whatever follows the comma or the newline
    after it. *)
Lemma match_number_local (t rest : string) :
  terminated rest ->
  Decoder.match_number (t ++ rest)
  = match Decoder.match_number t with
    | inr (v, r) => inr (v, r ++ rest)
    | inl e => inl e
    end.
Proof.
  intro Ht. unfold Decoder.match_number.
  rewrite minus_sign_local by assumption.
  destruct (Decoder.minus_sign t) as [neg s1]. cbn [fst snd].
  rewrite integer_part_local by assumption.
  destruct (Decoder.integer_part s1) as [[ip s2] |]; [| reflexivity].
  rewrite fraction_part_local by assumption.
  destruct (Decoder.fraction_part s2) as [fp s3]. cbn [fst snd].
  rewrite exponent_part_local by assumption.
  destruct (Decoder.exponent_part s3) as [ex s4]. cbn [fst snd].
  destruct fp, ex; try reflexivity.
  destruct (max_str_digits <? slen ip); reflexivity.
Qed.

Lemma code_inj (c d : ascii) : code c = code d -> c = d.
Proof.
  unfold code. intro H. apply Nat2Z.inj in H.
  rewrite <- (ascii_nat_embedding c), <- (ascii_nat_embedding d). now rewrite H.
Qed.

(** A number starts with a digit, or with a minus sign and a digit. *)
Lemma match_number_head (t : string) (x : json * string) :
  Decoder.match_number t = inr x ->
  exists c r, t = String c r
    /\ (is_digit c = true
        \/ (c = "-"%char /\ exists d r', r = String d r' /\ is_digit d = true)).
Proof.
  unfold Decoder.match_number, Decoder.minus_sign. intro H.
  destruct t as [| c r]; [discriminate |]. exists c, r. split; [reflexivity |].
  destruct (code c =? 45) eqn:E.
  - right. split; [apply code_inj, Z.eqb_eq, E |].
    destruct r as [| d r']; [discriminate |]. exists d, r'. split; [reflexivity |].
    unfold Decoder.integer_part in H. now destruct (is_digit d).
  - left. unfold Decoder.integer_part in H. now destruct (is_digit c).
Qed.

Lemma prefix_exact (p s : string) :
  prefix p s = true -> Decoder.drop (String.length p) s = EmptyString -> s = p.
Proof.
  revert s. induction p as [| a p IH]; intros s Hp Hd.
  - exact Hd.
  - destruct s as [| c s]; [discriminate |].
    cbn [prefix] in Hp. destruct (ascii_dec a c); [| discriminate]. subst.
    f_equal. now apply IH.
Qed.

Lemma digit_not_letter (a c : ascii) (s r : string) :
  is_digit c = true -> is_digit a = false -> prefix (String a s) (String c r) = false.
Proof.
  intros Hc Ha. apply prefix_head. intros ->. congruence.
Qed.

(** The check on the text alone gives the reading in the file. *)
Lemma float_text_local (t : string) (x : float) :
  Decoder.scan_once 1 0 t = inr (JFloat x, EmptyString) -> scans_as t (JFloat x).
Proof.
  intros H f d rest Ht.
  destruct t as [| c r]; [discriminate |].
  rewrite scan_once_unfold in H. cbv zeta in H.
  destruct (code c =? 34) eqn:E34.
  { destruct (Decoder.scanstring (S (String.length r)) r) as [[? ?] |]; discriminate. }
  destruct (code c =? 123) eqn:E123; [discriminate |].
  destruct (code c =? 91) eqn:E91; [discriminate |].
  destruct (prefix "null" (String c r)); [discriminate |].
  destruct (prefix "true" (String c r)); [discriminate |].
  destruct (prefix "false" (String c r)); [discriminate |].
  destruct (prefix "NaN" (String c r)) eqn:Enan.
  { assert (Hd : Decoder.drop 3 (String c r) = EmptyString) by congruence.
    assert (x = S754_nan) by congruence. subst x.
    rewrite (prefix_exact "NaN" _ Enan Hd).
    destruct Ht as (r' & [-> | ->]); split; reflexivity. }
  destruct (prefix "Infinity" (String c r)) eqn:Einf.
  { assert (Hd : Decoder.drop 8 (String c r) = EmptyString) by congruence.
    assert (x = S754_infinity false) by congruence. subst x.
    rewrite (prefix_exact "Infinity" _ Einf Hd).
    destruct Ht as (r' & [-> | ->]); split; reflexivity. }
  destruct (prefix "-Infinity" (String c r)) eqn:Eminf.
  { assert (Hd : Decoder.drop 9 (String c r) = EmptyString) by congruence.
    assert (x = S754_infinity true) by congruence. subst x.
    rewrite (prefix_exact "-Infinity" _ Eminf Hd).
    destruct Ht as (r' & [-> | ->]); split; reflexivity. }
  pose proof (match_number_local (String c r) rest Ht) as Hn. rewrite H in Hn.
  cbn [append] in Hn |- *.
  assert (Hw : Decoder.is_ws c = false).
  { destruct (match_number_head _ _ H) as (c' & r' & Heq & Hc). injection Heq as <- <-.
    destruct Hc as [Hc | [-> _]]; [| reflexivity].
    apply digit_bounds in Hc. unfold Decoder.is_ws. cbv zeta. now code_false. }
  split; [cbn [Decoder.skip_ws]; now rewrite Hw |].
  rewrite scan_once_unfold. cbv zeta. rewrite E34, E123, E91.
  destruct (match_number_head _ _ H) as (c' & r' & Heq & Hc). injection Heq as <- <-.
  destruct Hc as [Hc | [-> (d' & r' & -> & Hd)]].
  - rewrite !(digit_not_letter _ c) by (assumption || reflexivity).
    exact Hn.
  - cbn [append] in *.
    rewrite !(prefix_head _ "-"%char) by discriminate.
    rewrite prefix_same, (digit_not_letter _ d') by (assumption || reflexivity).
    exact Hn.
Qed.

Lemma float_reads_back_sound (x : float) :
  float_reads_back x = true -> reads_back x.
Proof.
  unfold float_reads_back, reads_back. intro H.
  destruct (Decoder.scan_once 1 0 (Encoder.floatstr x)) as [e | [[] []]] eqn:E;
    try discriminate.
  apply same_float_eq in H. subst. now apply float_text_local.
Qed.

(** ** What [json.loads] can raise *)

Lemma match_number_exn (s : string) (e : exn) :
  Decoder.match_number s = inl e -> e = JSONDecodeError \/ e = ValueError.
Proof.
  unfold Decoder.match_number.
  destruct (Decoder.minus_sign s) as [neg s1].
  destruct (Decoder.integer_part s1) as [[ip s2] |]; [| intro H; left; congruence].
  destruct (Decoder.fraction_part s2) as [fp s3].
  destruct (Decoder.exponent_part s3) as [ex s4].
  destruct fp, ex; try discriminate.
  destruct (max_str_digits <? slen ip); [intro H; right; congruence | discriminate].
Qed.

Lemma scan_exn (f : nat) :
  (forall d s e, Decoder.scan_once f d s = inl e -> decode_error e)
  /\ (forall d s acc e, Decoder.parse_array f d s acc = inl e -> decode_error e)
  /\ (forall d s acc e, Decoder.parse_object f d s acc = inl e -> decode_error e).
Proof.
  unfold decode_error.
  induction f as [| f (IHs & IHa & IHo)].
  { repeat split; intros; left; cbn in *; congruence. }
  repeat split.
  - intros d s e H. destruct s as [| c t]; [left; cbn in H; congruence |].
    rewrite scan_once_unfold in H. cbv zeta in H.
    destruct (code c =? 34).
    { destruct (Decoder.scanstring (S (String.length t)) t) as [[? ?] |];
        [discriminate | left; congruence]. }
    destruct (code c =? 123).
    { destruct d as [| d]; [right; right; congruence |].
      destruct (prefix "}" (Decoder.skip_ws t)); [discriminate | now apply IHo in H]. }
    destruct (code c =? 91).
    { destruct d as [| d]; [right; right; congruence |].
      destruct (prefix "]" (Decoder.skip_ws t)); [discriminate | now apply IHa in H]. }
    repeat match type of H with
           | (if ?b then _ else _) = _ => destruct b; [discriminate |]
           end.
    apply match_number_exn in H. tauto.
  - intros d s acc e H. rewrite parse_array_unfold in H.
    destruct (Decoder.scan_once f d s) as [e' | [v t]] eqn:E.
    { injection H as <-. now apply IHs in E. }
    destruct (prefix "]" (Decoder.skip_ws t)); [discriminate |].
    destruct (prefix "," (Decoder.skip_ws t)); [now apply IHa in H | left; congruence].
  - intros d s acc e H. destruct s as [| c t]; [left; cbn in H; congruence |].
    rewrite parse_object_unfold in H.
    destruct (negb (code c =? 34)); [left; congruence |].
    destruct (Decoder.scanstring (S (String.length t)) t) as [[k r1] |]; [| left; congruence].
    destruct (negb (prefix ":" (Decoder.skip_ws r1))); [left; congruence |].
    destruct (Decoder.scan_once f d (Decoder.skip_ws (Decoder.drop 1 (Decoder.skip_ws r1))))
      as [e' | [v r3]] eqn:E3.
    { injection H as <-. now apply IHs in E3. }
    destruct (prefix "}" (Decoder.skip_ws r3)); [discriminate |].
    destruct (prefix "," (Decoder.skip_ws r3)); [now apply IHo in H | left; congruence].
Qed.

Lemma loads_exn (d : nat) (s : string) (e : exn) :
  Decoder.loads d s = inl e -> decode_error e.
Proof.
  unfold Decoder.loads.
  destruct (Decoder.scan_once _ d (Decoder.skip_ws s)) as [e' | [v r]] eqn:E.
  - intro H. injection H as <-. exact (proj1 (scan_exn _) _ _ _ E).
  - destruct (Decoder.skip_ws r); [discriminate |]. intro H. left. congruence.
Qed.

(** ** The comprehension: all items or the first exception *)

Lemma construct_result_cases (item : json) : accepted item \/ rejected item.
Proof.
  unfold accepted, rejected. destruct (construct_result item); eauto.
Qed.

Lemma first_rejected (items : list json) :
  Exists rejected items ->
  exists pre bad post e,
    items = (pre ++ bad :: post)%list /\ Forall accepted pre /\ construct_result bad = inl e.
Proof.
  induction items as [| item rest IH]; intro H.
  - inversion H.
  - destruct (construct_result_cases item) as [Ha | [e He]].
    + assert (Hrest : Exists rejected rest).
      { inversion H as [? ? [e He] | ]; subst; [| assumption].
        destruct Ha as [entry Ha]. congruence. }
      destruct (IH Hrest) as (pre & bad & post & e & -> & Hpre & Hbad).
      exists (item :: pre), bad, post, e. repeat split; auto.
    + exists [], item, rest, e. repeat split; auto.
Qed.

Lemma comprehension_result_first (pre post : list json) (bad : json) (e : exn) :
  Forall accepted pre ->
  construct_result bad = inl e ->
  comprehension_result (pre ++ bad :: post) = inl e.
Proof.
  intros Hpre Hbad. induction Hpre as [| item pre [entry Hi] _ IH]; cbn.
  - now rewrite Hbad.
  - now rewrite Hi, IH.
Qed.

Lemma comprehension_events_first (pre post : list json) (bad : json) (e : exn) :
  Forall accepted pre ->
  construct_result bad = inl e ->
  comprehension_events (pre ++ bad :: post) = comprehension_events (pre ++ [bad]).
Proof.
  intros Hpre Hbad. induction Hpre as [| item pre [entry Hi] _ IH]; cbn.
  - destruct bad; cbn in *; try reflexivity. now rewrite Hbad.
  - destruct item; cbn in Hi; try discriminate. now rewrite Hi, IH.
Qed.

Lemma comprehension_events_no_file (items : list json) :
  forallb (fun ev => negb (is_file_event ev)) (comprehension_events items) = true.
Proof.
  induction items as [| item rest IH]; [reflexivity |].
  destruct item; try reflexivity. cbn.
  destruct (LeaderboardEntry_init d); [reflexivity | exact IH].
Qed.

Lemma comprehension_events_printed (items : list json) :
  printed (comprehension_events items) = [].
Proof.
  induction items as [| item rest IH]; [reflexivity |].
  destruct item; try reflexivity. cbn.
  destruct (LeaderboardEntry_init d); [reflexivity | exact IH].
Qed.

Lemma printed_app (l1 l2 : list event) : printed (l1 ++ l2) = (printed l1 ++ printed l2)%list.
Proof.
  induction l1 as [| ev r IH]; [reflexivity |].
  destruct ev; cbn; rewrite IH; reflexivity.
Qed.

Lemma comprehension_valid (items : list json) (entries : list LeaderboardEntry) :
  Forall2 valid_record items entries ->
  comprehension_result items = inr entries.
Proof.
  induction 1 as [| item entry items entries (kw & -> & Hk) _ IH]; cbn.
  - reflexivity.
  - now rewrite Hk, IH.
Qed.

(** The events of a comprehension in which every record is accepted: one
    constructor call for each record, in order. *)
Lemma comprehension_events_valid (items : list json) :
  Forall accepted items ->
  forall kws, items = map JDict kws -> comprehension_events items = map Validate kws.
Proof.
  induction 1 as [| item items [entry Hi] _ IH]; intros kws E.
  - destruct kws; [reflexivity | discriminate].
  - destruct kws as [| kw kws]; [discriminate |]. injection E as -> ->.
    cbn in Hi |- *. rewrite Hi. f_equal. now apply IH.
Qed.

(** ** Facts shared by the statements *)

Lemma init_model_dump (entry : LeaderboardEntry) :
  LeaderboardEntry_init (model_dump entry) = inr entry.
Proof.
  destruct entry. reflexivity.
Qed.

Lemma dumped_valid (entries : list LeaderboardEntry) :
  Forall2 valid_record (map (fun item => JDict (model_dump item)) entries) entries.
Proof.
  induction entries as [| entry rest IH]; cbn; constructor; [| exact IH].
  exists (model_dump entry). split; [reflexivity | apply init_model_dump].
Qed.

Lemma printed_map_print {A} (f : A -> line) (l : list A) :
  printed (map (fun a => Print (f a)) l) = map f l.
Proof.
  induction l as [| a l IH]; cbn; [reflexivity | now rewrite IH].
Qed.

Lemma printed_summary (entries : list LeaderboardEntry) :
  printed (summary_events entries)
  = Text (summary_header (List.length entries))
      :: map (fun entry => Text (summary_entry entry)) (printed_entries (firstn 3 entries)).
Proof.
  unfold summary_events. cbn.
  now rewrite (printed_map_print (fun entry => Text (summary_entry entry))).
Qed.

Lemma printed_entries_all (l : list LeaderboardEntry) :
  forallb (fun entry => printable (Text (summary_entry entry))) l = true ->
  printed_entries l = l.
Proof.
  induction l as [| entry rest IH]; cbn; [reflexivity |].
  intro H. apply andb_prop in H as [He Hr]. now rewrite He, (IH Hr).
Qed.

Lemma firstn_In {A} (n : nat) (l : list A) (a : A) : In a (firstn n l) -> In a l.
Proof.
  revert l. induction n as [| n IH]; intros [| x l]; cbn; try tauto.
  intros [-> | H]; auto.
Qed.

(** An entry that can be written has a line that can be printed. *)
Lemma writable_printable (entries : list LeaderboardEntry) :
  forallb entry_writable entries = true -> summary_printable entries = true.
Proof.
  intro H. unfold summary_printable. apply forallb_forall. intros entry Hin.
  apply firstn_In in Hin. rewrite forallb_forall in H. specialize (H entry Hin).
  rewrite summary_entry_printable.
  unfold entry_writable in H.
  repeat (apply andb_prop in H as [H ?]).
  apply andb_true_intro. split; assumption.
Qed.

Lemma filter_file_comprehension (items : list json) :
  filter is_file_event (comprehension_events items) = [].
Proof.
  induction items as [| item rest IH]; [reflexivity |].
  destruct item; try reflexivity. cbn.
  destruct (LeaderboardEntry_init d); [reflexivity | exact IH].
Qed.

Lemma filter_file_prints {A} (f : A -> line) (l : list A) :
  filter is_file_event (map (fun a => Print (f a)) l) = [].
Proof.
  induction l as [| a l IH]; [reflexivity | exact IH].
Qed.

Lemma filter_file_summary (entries : list LeaderboardEntry) :
  filter is_file_event (summary_events entries) = [].
Proof.
  unfold summary_events. cbn [filter is_file_event].
  apply (filter_file_prints (fun entry => Text (summary_entry entry))).
Qed.

Lemma Forall2_accepted (items : list json) (entries : list LeaderboardEntry) :
  Forall2 valid_record items entries -> Forall accepted items.
Proof.
  induction 1 as [| item entry items entries (kw & -> & Hk) _ IH]; constructor.
  - exists entry. exact Hk.
  - exact IH.
Qed.

Lemma filter_usage_comprehension (items : list json) :
  filter is_usage (comprehension_events items) = [].
Proof.
  induction items as [| item rest IH]; [reflexivity |].
  destruct item; try reflexivity. cbn.
  destruct (LeaderboardEntry_init d); [reflexivity | exact IH].
Qed.

Lemma filter_usage_summary (entries : list LeaderboardEntry) :
  filter is_usage (summary_events entries) = [].
Proof.
  unfold summary_events. cbn [filter is_usage].
  induction (printed_entries (firstn 3 entries)) as [| a l IH]; [reflexivity | exact IH].
Qed.

(** ** A decimal-digit string read as an int *)

Lemma digit_not_space (c : ascii) :
  is_digit c = true -> Pydantic.is_space (String c EmptyString) = false.
Proof.
  intro H. destruct c as [[] [] [] [] [] [] [] []]; try discriminate H; reflexivity.
Qed.

Lemma digit_not_continuation (c : ascii) :
  is_digit c = true -> (128 <=? code c) && (code c <? 192) = false.
Proof.
  intro H. apply digit_bounds in H. apply andb_false_intro1, Z.leb_gt. lia.
Qed.

(** The characters of a digit string are its digits, one by one. *)
Lemma chars_digits (s : string) :
  all_digits s = true ->
  chars s = map (fun c => String c EmptyString) (list_ascii_of_string s).
Proof.
  induction s as [| c s IH]; [reflexivity |].
  intro H. cbn in H. apply andb_prop in H as [Hc Hs].
  cbn [chars list_ascii_of_string map]. rewrite (IH Hs).
  destruct s as [| c' s']; [reflexivity |].
  cbn [list_ascii_of_string map].
  cbn in Hs. apply andb_prop in Hs as [Hc' _].
  now rewrite (digit_not_continuation c' Hc').
Qed.

Lemma concat_singletons (l : list ascii) :
  concat_str (map (fun c => String c EmptyString) l) = string_of_list_ascii l.
Proof.
  induction l as [| c l IH]; [reflexivity |]. cbn. now rewrite IH.
Qed.

Lemma trim_start_digit (l : list string) (c : ascii) :
  is_digit c = true ->
  Pydantic.trim_start (String c EmptyString :: l) = String c EmptyString :: l.
Proof.
  intro H. cbn [Pydantic.trim_start]. now rewrite (digit_not_space c H).
Qed.

Lemma forallb_digits (s : string) :
  all_digits s = true -> forallb is_digit (list_ascii_of_string s) = true.
Proof.
  induction s as [| c s IH]; [reflexivity |]. cbn. intro H.
  apply andb_prop in H as [Hc Hs]. now rewrite Hc, (IH Hs).
Qed.

Lemma trim_start_digits (l : list ascii) :
  match l with c :: _ => is_digit c = true | [] => True end ->
  Pydantic.trim_start (map (fun c => String c EmptyString) l)
  = map (fun c => String c EmptyString) l.
Proof.
  destruct l as [| c l]; [reflexivity |]. intro H. cbn [map]. now apply trim_start_digit.
Qed.

Lemma trim_digits (s : string) : all_digits s = true -> Pydantic.trim s = s.
Proof.
  intro H. unfold Pydantic.trim. rewrite (chars_digits s H).
  pose proof (forallb_digits s H) as Hd.
  set (l := list_ascii_of_string s) in *.
  rewrite trim_start_digits.
  2: { destruct l as [| c l']; [exact I |]. cbn in Hd. now apply andb_prop in Hd as [Hc _]. }
  rewrite <- map_rev, trim_start_digits.
  2: { destruct (rev l) as [| c l'] eqn:E; [exact I |].
       rewrite forallb_forall in Hd. apply Hd, in_rev. rewrite E. now left. }
  rewrite map_rev, rev_involutive, concat_singletons.
  apply string_of_list_ascii_of_string.
Qed.

Lemma span_digits_all (s : string) :
  all_digits s = true -> Decoder.span_digits s = (s, EmptyString).
Proof.
  induction s as [| c s IH]; [reflexivity |]. cbn. intro H.
  apply andb_prop in H as [Hc Hs]. now rewrite Hc, (IH Hs).
Qed.

Lemma digit_string_head (s : string) :
  digit_string s ->
  exists c r, s = String c r /\ is_digit c = true /\ all_digits r = true.
Proof.
  intros (Hne & H & _). destruct s as [| c r]; [contradiction |].
  cbn in H. apply andb_prop in H as [Hc Hr]. eauto.
Qed.

Lemma int_too_long_digits (s : string) :
  digit_string s -> Pydantic.int_too_long s = false.
Proof.
  intro Hs. destruct (digit_string_head s Hs) as (c & r & -> & Hc & Hr).
  destruct Hs as (_ & Hd & Hlen).
  pose proof (digit_bounds c Hc) as Hb.
  unfold Pydantic.int_too_long, Decoder.minus_sign.
  replace (code c =? 45) with false by (symmetry; apply Z.eqb_neq; lia).
  rewrite (span_digits_all _ Hd). cbn [fst].
  replace (4300 <? 0 + slen (String c r)) with false by (symmetry; apply Z.ltb_ge; lia).
  now rewrite andb_false_r.
Qed.

(** Leading zeros are skipped up to the first other digit; a text of zeros
    keeps the last one. *)
Lemma skip_zeros_digits (r : string) :
  all_digits r = true ->
  forall acc,
  exists t,
    Pydantic.skip_zeros "0"%char r = Some t
    /\ Pydantic.json_int t = Some (digits_value 0 r)
    /\ all_digits t = true
    /\ slen t <= 1 + slen r
    /\ digits_value acc (String "0" r) = digits_value (10 * acc) r.
Proof.
  intros Hr acc.
  assert (Hlast : digits_value acc (String "0" r) = digits_value (10 * acc) r).
  { cbn [digits_value]. f_equal. change (digit_val "0") with 0. lia. }
  induction r as [| c r IH].
  - exists "0". repeat split; try reflexivity; try exact Hlast; discriminate.
  - cbn in Hr. apply andb_prop in Hr as [Hc Hr]. pose proof (digit_bounds c Hc) as Hb.
    cbn [Pydantic.skip_zeros].
    replace (code c =? 95) with false by (symmetry; apply Z.eqb_neq; lia).
    rewrite orb_false_r. destruct (code c =? 48) eqn:E.
    + apply Z.eqb_eq in E.
      assert (c = "0"%char) as -> by (apply code_inj; exact E).
      destruct IH as (t & Ht & Hj & Hd & Hl & _); [exact Hr | |].
      { cbn [digits_value]. f_equal. change (digit_val "0") with 0. lia. }
      exists t.
      split; [exact Ht |].
      split; [rewrite Hj; reflexivity |].
      split; [exact Hd |].
      split; [unfold slen in *; cbn [String.length]; lia | exact Hlast].
    + rewrite Hc. cbn [orb]. exists (String c r).
      split; [reflexivity |].
      split.
      { unfold Pydantic.json_int, Decoder.minus_sign.
        replace (code c =? 45) with false by (symmetry; apply Z.eqb_neq; lia).
        cbn [all_digits]. rewrite Hc, Hr, E. reflexivity. }
      split; [cbn [all_digits]; now rewrite Hc, Hr |].
      split; [unfold slen; cbn [String.length]; lia | exact Hlast].
Qed.

Lemma strip_leading_zeros_digits (s : string) :
  digit_string s ->
  exists t,
    Pydantic.strip_leading_zeros s = Some t
    /\ Pydantic.json_int t = Some (digits_value 0 s)
    /\ all_digits t = true
    /\ slen t <= slen s.
Proof.
  intro Hs. destruct (digit_string_head s Hs) as (c & r & -> & Hc & Hr).
  destruct Hs as (_ & Hd & Hlen). pose proof (digit_bounds c Hc) as Hb.
  unfold Pydantic.strip_leading_zeros. rewrite Hc.
  destruct (code c =? 48) eqn:E.
  - apply Z.eqb_eq in E.
    assert (c = "0"%char) as -> by (apply code_inj; exact E).
    destruct (skip_zeros_digits r Hr 0) as (t & Ht & Hj & Hdt & Hl & Hv).
    exists t.
    split; [exact Ht |].
    split; [rewrite Hj, Hv; reflexivity |].
    split; [exact Hdt |].
    unfold slen in *. cbn [String.length]. lia.
  - exists (String c r).
    split; [reflexivity |].
    split.
    { unfold Pydantic.json_int, Decoder.minus_sign.
      replace (code c =? 45) with false by (symmetry; apply Z.eqb_neq; lia).
      rewrite Hd, E. reflexivity. }
    split; [exact Hd | lia].
Qed.

Lemma strip_decimal_zeros_digits (t : string) :
  all_digits t = true -> Pydantic.strip_decimal_zeros t = Some t.
Proof.
  induction t as [| c t IH]; [reflexivity |]. cbn. intro H.
  apply andb_prop in H as [Hc Ht]. pose proof (digit_bounds c Hc) as Hb.
  replace (code c =? 46) with false by (symmetry; apply Z.eqb_neq; lia).
  now rewrite (IH Ht).
Qed.

Lemma contains_char_digits (t : string) (n : Z) :
  all_digits t = true -> ~ 48 <= n <= 57 -> Pydantic.contains_char n t = false.
Proof.
  intros H Hn. induction t as [| c t IH]; [reflexivity |]. cbn in *.
  apply andb_prop in H as [Hc Ht]. pose proof (digit_bounds c Hc) as Hb.
  replace (code c =? n) with false by (symmetry; apply Z.eqb_neq; lia).
  now apply IH.
Qed.

Lemma str_as_int_digits (s : string) :
  digit_string s -> Pydantic.str_as_int s = inr (digits_value 0 s).
Proof.
  intro Hs. pose proof Hs as (Hne & Hd & Hlen).
  destruct (digit_string_head s Hs) as (c & r & E & Hc & Hr).
  pose proof (digit_bounds c Hc) as Hb.
  unfold Pydantic.str_as_int.
  rewrite (ascii_only_no_surrogate s (all_digits_ascii s Hd)).
  rewrite (int_too_long_digits s Hs), (trim_digits s Hd).
  assert (Hsign : Pydantic.split_sign s = (false, s)).
  { rewrite E. unfold Pydantic.split_sign.
    replace (code c =? 45) with false by (symmetry; apply Z.eqb_neq; lia).
    replace (code c =? 43) with false by (symmetry; apply Z.eqb_neq; lia).
    reflexivity. }
  rewrite Hsign.
  destruct (strip_leading_zeros_digits s Hs) as (t & Ht & Hj & Hdt & Hl).
  rewrite Ht. cbn [append].
  rewrite (strip_decimal_zeros_digits t Hdt).
  unfold Pydantic.strip_underscores.
  rewrite (contains_char_digits t 95 Hdt) by lia. cbn [negb].
  replace (4300 <? slen t) with false by (symmetry; apply Z.ltb_ge; lia).
  now rewrite Hj.
Qed.

(** ** [float(n)] is exact up to [2^53] *)

Lemma digits2_size (m : positive) : digits2_pos m = Pos.size m.
Proof.
  induction m; cbn; congruence.
Qed.

Lemma digits2_shift (m k : positive) :
  digits2_pos (Pos.iter xO m k) = (digits2_pos m + k)%positive.
Proof.
  induction k as [| k IH] using Pos.peano_ind.
  - cbn. lia.
  - rewrite Pos.iter_succ. cbn [digits2_pos]. rewrite IH. lia.
Qed.

Lemma shift_value (m k : positive) :
  Zpos (Pos.iter xO m k) = Zpos m * 2 ^ Zpos k.
Proof.
  induction k as [| k IH] using Pos.peano_ind.
  - cbn. lia.
  - rewrite Pos.iter_succ, Pos2Z.inj_succ, Z.pow_succ_r by lia.
    change (Zpos (Pos.iter xO m k)~0) with (2 * Zpos (Pos.iter xO m k)).
    rewrite IH. lia.
Qed.

Lemma digits2_bound (m : positive) :
  Zpos m < 2 ^ 53 -> Zpos (digits2_pos m) <= 53.
Proof.
  intro H. rewrite digits2_size.
  pose proof (Pos.size_le m) as Hle.
  destruct (Z.le_gt_cases (Zpos (Pos.size m)) 53) as [Hc | Hc]; [exact Hc | exfalso].
  assert (Hp : 2 ^ 54 <= 2 ^ Zpos (Pos.size m)) by (apply Z.pow_le_mono_r; lia).
  assert (Hq : 2 ^ Zpos (Pos.size m) <= Zpos m~0).
  { apply Pos2Z.pos_le_pos in Hle. now rewrite Pos2Z.inj_pow in Hle. }
  change (2 ^ 54) with (2 * 2 ^ 53) in Hp. lia.
Qed.

(** The float nearest to an integer of at most 53 bits is the integer. *)
Lemma binary_round_exact (s : bool) (m : positive) :
  Zpos m < 2 ^ 53 ->
  exists mz ez,
    binary_round PyFloat.prec PyFloat.emax s m 0 = S754_finite s mz ez
    /\ - 52 <= ez <= 0
    /\ Zpos mz = Zpos m * 2 ^ (- ez).
Proof.
  intro Hm. pose proof (digits2_bound m Hm) as Hd.
  assert (Hd1 : 1 <= Zpos (digits2_pos m)) by lia.
  unfold binary_round, shl_align, fexp, emin, PyFloat.prec, PyFloat.emax.
  rewrite Z.add_0_r, Z.sub_0_r.
  replace (Z.max (Zpos (digits2_pos m) - 53) (3 - 1024 - 53))
    with (Zpos (digits2_pos m) - 53) by lia.
  destruct (Zpos (digits2_pos m) - 53) as [| p | k] eqn:Ek; [| lia |].
  - exists m, 0. split; [| split; [lia | cbn; lia]].
    unfold binary_round_aux, shr_fexp, fexp, emin, Zdigits2, shr_record_of_loc.
    rewrite Z.add_0_r, Z.sub_0_r.
    replace (Z.max (Zpos (digits2_pos m) - 53) (3 - 1024 - 53)) with 0 by lia.
    cbn [shr shr_m loc_of_shr_record round_nearest_even].
    unfold shr_fexp, fexp, emin, Zdigits2, shr_record_of_loc.
    rewrite Z.add_0_r, Z.sub_0_r.
    replace (Z.max (Zpos (digits2_pos m) - 53) (3 - 1024 - 53)) with 0 by lia.
    reflexivity.
  - exists (Pos.iter xO m k), (Zneg k).
    assert (Hk : Zpos k <= 52) by lia.
    split; [| split; [lia | rewrite shift_value; reflexivity]].
    assert (Hz : Z.max (Zpos (digits2_pos (Pos.iter xO m k)) + Zneg k - 53) (3 - 1024 - 53)
                 - Zneg k = 0).
    { rewrite digits2_shift. lia. }
    unfold binary_round_aux, shr_fexp, fexp, emin, Zdigits2, shr_record_of_loc.
    rewrite Hz.
    cbn [shr shr_m loc_of_shr_record round_nearest_even].
    unfold shr_fexp, fexp, emin, Zdigits2, shr_record_of_loc.
    rewrite Hz.
    cbn [shr shr_m].
    replace (Zneg k <=? 1024 - 53) with true by (symmetry; apply Z.leb_le; lia).
    reflexivity.
Qed.

Lemma to_integral_scaled (s : bool) (m mz : positive) (ez : Z) :
  - 52 <= ez <= 0 ->
  Zpos mz = Zpos m * 2 ^ (- ez) ->
  PyFloat.to_integral (S754_finite s mz ez) = Some (cond_Zopp s (Zpos m)).
Proof.
  intros He Hv. unfold PyFloat.to_integral.
  destruct (0 <=? ez) eqn:E.
  - apply Z.leb_le in E. assert (ez = 0) as -> by lia.
    cbn in Hv. rewrite Hv. f_equal. f_equal. cbn. lia.
  - assert (Hp : 0 < 2 ^ (- ez)) by (apply Z.pow_pos_nonneg; lia).
    rewrite Hv, Z.mod_mul, Z.eqb_refl, Z.div_mul by lia. reflexivity.
Qed.

Lemma of_int_exact (n : Z) :
  Z.abs n <= 2 ^ 53 ->
  exists x, PyFloat.of_int n = Some x /\ PyFloat.to_integral x = Some n.
Proof.
  intro Hn.
  destruct (Z.eq_dec (Z.abs n) (2 ^ 53)) as [E | E].
  { destruct (Z.abs_eq_or_opp n) as [H | H]; rewrite H in E.
    - subst n. eexists. split; vm_compute; reflexivity.
    - assert (n = - 2 ^ 53) as -> by lia. eexists. split; vm_compute; reflexivity. }
  unfold PyFloat.of_int, PyFloat.of_scaled, binary_normalize.
  destruct n as [| m | m].
  - eexists. split; reflexivity.
  - destruct (binary_round_exact false m) as (mz & ez & -> & He & Hv); [lia |].
    eexists. split; [reflexivity |]. exact (to_integral_scaled false m mz ez He Hv).
  - destruct (binary_round_exact true m) as (mz & ez & -> & He & Hv); [lia |].
    eexists. split; [reflexivity |]. exact (to_integral_scaled true m mz ez He Hv).
Qed.

(** ** The ints that reach [json.dump] have at most 4300 digits *)

Lemma uint_of_digits_string (s : string) :
  all_digits s = true -> NilEmpty.string_of_uint (uint_of_digits s) = s.
Proof.
  induction s as [| c s IH]; [reflexivity |]. intro H. cbn in H.
  apply andb_prop in H as [Hc Hs].
  cbn [uint_of_digits]. specialize (IH Hs).
  destruct c as [[] [] [] [] [] [] [] []]; try discriminate Hc;
    match goal with
    | |- context [Z.to_nat (digit_val ?c)] =>
        let v := eval vm_compute in (Z.to_nat (digit_val c)) in
        change (Z.to_nat (digit_val c)) with v
    end;
    cbn; f_equal; exact IH.
Qed.

Lemma string_of_uint_length (u : Decimal.uint) :
  String.length (NilEmpty.string_of_uint u) = Decimal.nb_digits u.
Proof.
  induction u; cbn; congruence.
Qed.

Lemma N_to_uint_string (n : N) :
  repr_int (Z.of_N n) = NilZero.string_of_uint (N.to_uint n).
Proof.
  destruct n as [| p]; reflexivity.
Qed.

Lemma nilzero_length (u : Decimal.uint) :
  u <> Decimal.Nil ->
  NilZero.string_of_uint u = NilEmpty.string_of_uint u.
Proof.
  destruct u; [congruence | reflexivity ..].
Qed.

(** The text of the value of a digit string is no longer than the
    string. *)
Lemma repr_digits_length (s : string) :
  s <> EmptyString -> all_digits s = true ->
  slen (repr_int (digits_value 0 s)) <= slen s.
Proof.
  intros Hne Hd.
  rewrite <- (uint_of_digits_string s Hd) at 1.
  rewrite digits_value_uint, N_to_uint_string, DecimalN.Unsigned.to_of.
  assert (Hlen : slen s = Z.of_nat (Decimal.nb_digits (uint_of_digits s))).
  { unfold slen. now rewrite <- string_of_uint_length, uint_of_digits_string. }
  rewrite Hlen.
  assert (Hu : uint_of_digits s <> Decimal.Nil).
  { destruct s as [| c r]; [congruence |]. cbn.
    destruct (Z.to_nat (digit_val c)) as [| [| [| [| [| [| [| [| [| k]]]]]]]]]; discriminate. }
  pose proof (DecimalFacts.nb_digits_unorm (uint_of_digits s) Hu) as Hn.
  assert (Hz : Decimal.unorm (uint_of_digits s) <> Decimal.Nil).
  { apply DecimalFacts.unorm_nonnil. }
  rewrite (nilzero_length _ Hz). unfold slen. rewrite string_of_uint_length. lia.
Qed.

Lemma digits_value_nonneg (s : string) :
  all_digits s = true -> 0 <= digits_value 0 s.
Proof.
  intro H. rewrite <- (uint_of_digits_string s H), digits_value_uint. lia.
Qed.

Lemma digits_writable (neg : bool) (s : string) :
  s <> EmptyString -> all_digits s = true -> slen s <= max_str_digits ->
  int_writable (cond_Zopp neg (digits_value 0 s)) = true.
Proof.
  intros Hne Hd Hlen. unfold int_writable.
  pose proof (digits_value_nonneg s Hd) as Hpos.
  pose proof (repr_digits_length s Hne Hd) as Hr.
  replace (Z.abs (cond_Zopp neg (digits_value 0 s))) with (digits_value 0 s)
    by (destruct neg; cbn; lia).
  apply Z.leb_le. lia.
Qed.

(** *** Ints read by [json.loads] *)

Lemma integer_part_digits (s ip r : string) :
  Decoder.integer_part s = Some (ip, r) -> ip <> EmptyString /\ all_digits ip = true.
Proof.
  unfold Decoder.integer_part. destruct s as [| c t]; [discriminate |].
  destruct (is_digit c) eqn:Hc; [| discriminate].
  destruct (code c =? 48).
  - intro H. injection H as <- _. split; [discriminate | reflexivity].
  - cbn [Decoder.span_digits]. rewrite Hc.
    destruct (Decoder.span_digits t) as [d u] eqn:E. intro H. injection H as <- _.
    split; [discriminate |]. cbn. rewrite Hc. cbn.
    clear Hc. revert d u E. induction t as [| c' t IH]; cbn; intros d u E.
    + now injection E as <- _.
    + destruct (is_digit c') eqn:Hc'.
      * destruct (Decoder.span_digits t) as [d' u'] eqn:E'. injection E as <- _.
        cbn. rewrite Hc'. now apply (IH d' u').
      * now injection E as <- _.
Qed.

Lemma match_number_writable (s : string) (v : json) (r : string) :
  Decoder.match_number s = inr (v, r) -> ints_writable v = true.
Proof.
  unfold Decoder.match_number.
  destruct (Decoder.minus_sign s) as [neg s1].
  destruct (Decoder.integer_part s1) as [[ip s2] |] eqn:Ei; [| discriminate].
  apply integer_part_digits in Ei as [Hne Hd].
  destruct (Decoder.fraction_part s2) as [fp s3].
  destruct (Decoder.exponent_part s3) as [ex s4].
  destruct fp, ex; try (intro H; injection H as <- _; reflexivity).
  destruct (max_str_digits <? slen ip) eqn:El; [discriminate |].
  intro H. injection H as <- _. cbn. apply Z.ltb_ge in El.
  now apply digits_writable.
Qed.

Lemma forallb_snoc {A} (p : A -> bool) (l : list A) (a : A) :
  forallb p (l ++ [a]) = forallb p l && p a.
Proof.
  rewrite forallb_app. cbn. now rewrite andb_true_r.
Qed.

Lemma ints_writable_dict_set (d : dict json) (k : string) (v : json) :
  forallb (fun kv => ints_writable (snd kv)) d = true ->
  ints_writable v = true ->
  forallb (fun kv => ints_writable (snd kv)) (dict_set d k v) = true.
Proof.
  intros Hd Hv. induction d as [| [k' v'] d IH]; cbn in *.
  - now rewrite Hv.
  - apply andb_prop in Hd as [H1 H2]. destruct (String.eqb k' k); cbn.
    + now rewrite Hv, H2.
    + now rewrite H1, IH.
Qed.

Lemma scan_writable (f : nat) :
  (forall d s v r, Decoder.scan_once f d s = inr (v, r) -> ints_writable v = true)
  /\ (forall d s acc v r,
         forallb ints_writable acc = true ->
         Decoder.parse_array f d s acc = inr (v, r) -> ints_writable v = true)
  /\ (forall d s acc v r,
         forallb (fun kv => ints_writable (snd kv)) acc = true ->
         Decoder.parse_object f d s acc = inr (v, r) -> ints_writable v = true).
Proof.
  induction f as [| f (IHs & IHa & IHo)].
  { repeat split; intros; discriminate. }
  repeat split.
  - intros d s v r H. destruct s as [| c t]; [discriminate |].
    rewrite scan_once_unfold in H. cbv zeta in H.
    destruct (code c =? 34).
    { destruct (Decoder.scanstring (S (String.length t)) t) as [[? ?] |]; [| discriminate].
      injection H as <- _. reflexivity. }
    destruct (code c =? 123).
    { destruct d as [| d]; [discriminate |].
      destruct (prefix "}" (Decoder.skip_ws t)).
      - injection H as <- _. reflexivity.
      - now apply IHo in H. }
    destruct (code c =? 91).
    { destruct d as [| d]; [discriminate |].
      destruct (prefix "]" (Decoder.skip_ws t)).
      - injection H as <- _. reflexivity.
      - now apply IHa in H. }
    repeat match type of H with
           | (if ?b then _ else _) = _ => destruct b; [injection H as <- _; reflexivity |]
           end.
    now apply match_number_writable in H.
  - intros d s acc v r Hacc H. rewrite parse_array_unfold in H.
    destruct (Decoder.scan_once f d s) as [e | [x t]] eqn:E; [discriminate |].
    apply IHs in E.
    assert (Hacc' : forallb ints_writable (acc ++ [x]) = true)
      by (now rewrite forallb_snoc, Hacc, E).
    destruct (prefix "]" (Decoder.skip_ws t)).
    + injection H as <- _. exact Hacc'.
    + destruct (prefix "," (Decoder.skip_ws t)); [| discriminate].
      now apply IHa in H.
  - intros d s acc v r Hacc H. destruct s as [| c t]; [discriminate |].
    rewrite parse_object_unfold in H.
    destruct (negb (code c =? 34)); [discriminate |].
    destruct (Decoder.scanstring (S (String.length t)) t) as [[k r1] |]; [| discriminate].
    destruct (negb (prefix ":" (Decoder.skip_ws r1))); [discriminate |].
    destruct (Decoder.scan_once f d (Decoder.skip_ws (Decoder.drop 1 (Decoder.skip_ws r1))))
      as [e | [x r3]] eqn:E3; [discriminate |].
    apply IHs in E3.
    pose proof (ints_writable_dict_set acc k x Hacc E3) as Hacc'.
    destruct (prefix "}" (Decoder.skip_ws r3)).
    + injection H as <- _. exact Hacc'.
    + destruct (prefix "," (Decoder.skip_ws r3)); [| discriminate].
      now apply IHo in H.
Qed.

(** Every int in a value returned by [json.loads] has at most 4300
    digits. *)
Lemma loads_ints_writable (d : nat) (s : string) (v : json) :
  Decoder.loads d s = inr v -> ints_writable v = true.
Proof.
  unfold Decoder.loads.
  destruct (Decoder.scan_once _ d (Decoder.skip_ws s)) as [e | [x r]] eqn:E; [discriminate |].
  destruct (Decoder.skip_ws r); [| discriminate].
  intro H. injection H as <-. exact (proj1 (scan_writable _) _ _ _ _ E).
Qed.

(** *** Ints accepted by the model *)

Lemma json_int_writable (t : string) (n : Z) :
  slen t <= max_str_digits -> Pydantic.json_int t = Some n -> int_writable n = true.
Proof.
  unfold Pydantic.json_int, Decoder.minus_sign. intros Hlen H.
  assert (Hgen : forall neg d,
             slen d <= max_str_digits ->
             match d with
             | String c r =>
                 if all_digits d && (negb (code c =? 48) || (r =? "")%string)
                 then Some (cond_Zopp neg (digits_value 0 d)) else None
             | EmptyString => None
             end = Some n -> int_writable n = true).
  { intros neg d Hd Hj. destruct d as [| c r]; [discriminate |].
    destruct (all_digits (String c r)) eqn:Ha; [| discriminate].
    destruct (negb (code c =? 48) || (r =? "")%string); [| discriminate].
    injection Hj as <-.
    exact (digits_writable neg (String c r) ltac:(discriminate) Ha Hd). }
  destruct t as [| c r]; [discriminate |].
  destruct (code c =? 45).
  - apply (Hgen true r); [| exact H]. unfold slen in *. cbn [String.length] in Hlen. lia.
  - now apply (Hgen false (String c r)).
Qed.

Lemma str_as_int_writable (s : string) (n : Z) :
  Pydantic.str_as_int s = inr n -> int_writable n = true.
Proof.
  unfold Pydantic.str_as_int.
  destruct (has_surrogate s); [discriminate |].
  destruct (Pydantic.int_too_long s); [discriminate |].
  destruct (Pydantic.split_sign (Pydantic.trim s)) as [neg body].
  destruct (Pydantic.strip_leading_zeros body) as [b |]; [| discriminate].
  destruct (Pydantic.strip_decimal_zeros _) as [u |]; [| discriminate].
  destruct (Pydantic.strip_underscores u) as [t |]; [| discriminate].
  destruct (4300 <? slen t) eqn:E; [discriminate |].
  destruct (Pydantic.json_int t) as [k |] eqn:Ej; [| discriminate].
  intro H. injection H as <-. apply Z.ltb_ge in E. now apply (json_int_writable t).
Qed.

Lemma nb_digits_double (u : Decimal.uint) :
  (Decimal.nb_digits (Decimal.Little.double u) <= S (Decimal.nb_digits u))%nat
  /\ (Decimal.nb_digits (Decimal.Little.succ_double u) <= S (Decimal.nb_digits u))%nat.
Proof.
  induction u as [| u [IH1 IH2] | u [IH1 IH2] | u [IH1 IH2] | u [IH1 IH2] | u [IH1 IH2]
                  | u [IH1 IH2] | u [IH1 IH2] | u [IH1 IH2] | u [IH1 IH2] | u [IH1 IH2]];
    cbn; split; lia.
Qed.

Lemma nb_digits_little (p : positive) :
  (Decimal.nb_digits (Pos.to_little_uint p) <= Pos.size_nat p)%nat.
Proof.
  induction p as [p IH | p IH |]; cbn [Pos.to_little_uint Pos.size_nat].
  - pose proof (proj2 (nb_digits_double (Pos.to_little_uint p))). lia.
  - pose proof (proj1 (nb_digits_double (Pos.to_little_uint p))). lia.
  - cbn. lia.
Qed.

Lemma size_nat_bound (p : positive) (k : nat) :
  Zpos p < 2 ^ Z.of_nat k -> (Pos.size_nat p <= k)%nat.
Proof.
  revert k. induction p as [p IH | p IH |]; intros k H; cbn [Pos.size_nat].
  - destruct k as [| k]; [cbn in H; lia |].
    rewrite Nat2Z.inj_succ, Z.pow_succ_r in H by lia.
    specialize (IH k). lia.
  - destruct k as [| k]; [cbn in H; lia |].
    rewrite Nat2Z.inj_succ, Z.pow_succ_r in H by lia.
    specialize (IH k). lia.
  - destruct k as [| k]; [cbn in H; lia | lia].
Qed.

(** An int of less than 64 bits has fewer than 4300 digits. *)
Lemma small_int_writable (n : Z) :
  - 2 ^ 63 < n < 2 ^ 63 -> int_writable n = true.
Proof.
  intro H. unfold int_writable, max_str_digits. apply Z.leb_le.
  destruct (Z.abs n) as [| p | p] eqn:E; [cbn; lia | | lia].
  assert (Hp : Zpos p < 2 ^ Z.of_nat 63) by (change (Z.of_nat 63) with 63; lia).
  pose proof (size_nat_bound p 63 Hp) as Hs.
  pose proof (nb_digits_little p) as Hl.
  change (repr_int (Zpos p)) with (NilZero.string_of_uint (Pos.to_uint p)).
  rewrite nilzero_length by apply DecimalPos.Unsigned.to_uint_nonnil.
  unfold slen. rewrite string_of_uint_length.
  unfold Pos.to_uint. rewrite DecimalFacts.nb_digits_rev. lia.
Qed.

Lemma validate_int_writable (v : json) (n : Z) :
  ints_writable v = true -> Pydantic.validate_int v = inr n -> int_writable n = true.
Proof.
  intros Hv H. destruct v as [| b | k | x | s | l | d]; cbn in H; try discriminate.
  - injection H as <-. now destruct b.
  - injection H as <-. exact Hv.
  - unfold Pydantic.float_as_int in H.
    destruct (negb (PyFloat.is_finite x)); [discriminate |].
    destruct (PyFloat.to_integral x) as [k |]; [| discriminate].
    destruct ((- 2 ^ 63 <? k) && (k <? 2 ^ 63)) eqn:E; [| discriminate].
    injection H as <-. apply andb_prop in E as [E1 E2].
    apply Z.ltb_lt in E1, E2. now apply small_int_writable.
  - now apply str_as_int_writable in H.
Qed.

(** *** What the constructor gives for each field *)

Lemma ap_value {A B} (f : list Pydantic.line_error + (A -> B))
      (x : list Pydantic.line_error + A) (b : B) :
  Pydantic.ap f x = inr b -> exists g a, f = inr g /\ x = inr a /\ b = g a.
Proof.
  destruct f as [e | g], x as [e' | a]; cbn; try discriminate.
  intro H. injection H as <-. eauto.
Qed.

Lemma field_value_inv {A} (kw : dict json) (key : string)
      (validate : json -> error_type + A) (a : A) :
  Pydantic.field kw key validate = inr a ->
  exists v, dict_get kw key = Some v /\ validate v = inr a.
Proof.
  unfold Pydantic.field. destruct (dict_get kw key) as [v |]; [| discriminate].
  destruct (validate v) as [t | a'] eqn:E; [discriminate |].
  intro H. injection H as <-. eauto.
Qed.

(** An accepted record holds, under the key of every field, a value that
    validates to the value of the field. *)
Lemma init_inv (kw : dict json) (entry : LeaderboardEntry) :
  LeaderboardEntry_init kw = inr entry ->
  (exists v, dict_get kw "rank" = Some v /\ Pydantic.validate_int v = inr (rank entry))
  /\ (exists v, dict_get kw "model" = Some v /\ Pydantic.validate_str v = inr (model entry))
  /\ (exists v, dict_get kw "arena score" = Some v
                /\ Pydantic.validate_float v = inr (arena_score entry))
  /\ (exists v, dict_get kw "95% CI" = Some v /\ Pydantic.validate_str v = inr (ci_95 entry))
  /\ (exists v, dict_get kw "votes" = Some v /\ Pydantic.validate_int v = inr (votes entry))
  /\ (exists v, dict_get kw "organization" = Some v
                /\ Pydantic.validate_str v = inr (organization entry))
  /\ (exists v, dict_get kw "license" = Some v
                /\ Pydantic.validate_str v = inr (license entry)).
Proof.
  unfold LeaderboardEntry_init.
  match goal with
  | |- match ?f with inr _ => _ | inl _ => _ end = _ -> _ => destruct f as [e | x] eqn:E
  end; [discriminate |].
  intro H. injection H as <-.
  apply ap_value in E as (g7 & a7 & E & H7 & ->).
  apply ap_value in E as (g6 & a6 & E & H6 & ->).
  apply ap_value in E as (g5 & a5 & E & H5 & ->).
  apply ap_value in E as (g4 & a4 & E & H4 & ->).
  apply ap_value in E as (g3 & a3 & E & H3 & ->).
  apply ap_value in E as (g2 & a2 & E & H2 & ->).
  apply ap_value in E as (g1 & a1 & E & H1 & ->).
  injection E as <-. cbn.
  repeat split; now apply field_value_inv.
Qed.

Lemma dict_get_forallb {A} (p : string * A -> bool) (d : dict A) (k : string) (v : A) :
  forallb p d = true -> dict_get d k = Some v -> exists k', p (k', v) = true.
Proof.
  induction d as [| [k0 v0] d IH]; cbn; [discriminate |].
  intros H Hg. apply andb_prop in H as [H0 Hd].
  destruct (String.eqb k0 k).
  - injection Hg as <-. eauto.
  - now apply IH.
Qed.

Lemma valid_record_writable (item : json) (entry : LeaderboardEntry) :
  ints_writable item = true ->
  valid_record item entry ->
  entry_writable entry = text_writable entry.
Proof.
  intros Hw (kw & -> & Hi). cbn in Hw.
  destruct (init_inv kw entry Hi) as ((v1 & G1 & V1) & _ & _ & _ & (v5 & G5 & V5) & _ & _).
  destruct (dict_get_forallb _ _ _ _ Hw G1) as [k1 W1].
  destruct (dict_get_forallb _ _ _ _ Hw G5) as [k5 W5].
  cbn in W1, W5.
  unfold entry_writable, text_writable.
  rewrite (validate_int_writable v1 _ W1 V1), (validate_int_writable v5 _ W5 V5).
  cbn. now rewrite andb_true_r.
Qed.

(** The entries validated from a payload that [json.loads] returned can be
    written as soon as their texts can. *)
Lemma loaded_entries_writable (d : nat) (s : string) (items : list json)
      (entries : list LeaderboardEntry) :
  Decoder.loads d s = inr (JList items) ->
  Forall2 valid_record items entries ->
  forallb entry_writable entries = forallb text_writable entries.
Proof.
  intros Hl Hv. apply loads_ints_writable in Hl. cbn in Hl.
  induction Hv as [| item entry items entries Hi _ IH]; [reflexivity |].
  cbn in Hl |- *. apply andb_prop in Hl as [H1 H2].
  now rewrite (valid_record_writable item entry H1 Hi), (IH H2).
Qed.

(** *** [json.dump] in a run raises on a text only *)

Lemma entry_writable_split (entry : LeaderboardEntry) :
  entry_writable entry = entry_ints_writable entry && text_writable entry.
Proof.
  unfold entry_writable, entry_ints_writable, text_writable.
  destruct (int_writable (rank entry)), (int_writable (votes entry)),
    (has_surrogate (model entry)), (has_surrogate (ci_95 entry)),
    (has_surrogate (organization entry)), (has_surrogate (license entry)); reflexivity.
Qed.

Lemma written_exn_text (entries : list LeaderboardEntry) (e : exn) (text : string) :
  forallb entry_ints_writable entries = true ->
  written entries = (Some e, text) -> e = UnicodeEncodeError.
Proof.
  intro Hi. unfold written.
  assert (H : forall chunks t,
             Forall (fun c => forall x, c <> inl x) chunks ->
             Encoder.write_chunks chunks t = (Some e, text) ->
             e = UnicodeEncodeError).
  { induction chunks as [| c chunks IH]; intros t Hc Hw; [discriminate |].
    inversion Hc as [| ? ? Hx Hr]; subst. cbn in Hw. destruct c as [x | u].
    - now destruct (Hx x).
    - destruct (has_surrogate u); [congruence | now apply (IH (t ++ u))]. }
  apply H. clear H.
  assert (He : forall entry, entry_ints_writable entry = true ->
                             Forall (fun c => forall x, c <> inl x) (entry_chunks entry)).
  { intros entry Hw. unfold entry_ints_writable in Hw. apply andb_prop in Hw as [Hr Hv].
    rewrite entry_chunks_eq, !intstr_ok, Hr, Hv.
    repeat (apply Forall_cons; [discriminate |]). apply Forall_nil. }
  destruct entries as [| entry rest]; [repeat constructor; discriminate |].
  rewrite iterencode_dumped. apply Forall_app. split; [| repeat constructor; discriminate].
  revert Hi. generalize (entry :: rest). clear entry rest. intros l Hi.
  assert (Hg : forall first, Forall (fun c => forall x, c <> inl x) (items_chunks first l)).
  { induction l as [| a l IH]; intro first; [constructor |].
    cbn in Hi. apply andb_prop in Hi as [Ha Hl].
    cbn [items_chunks]. constructor; [discriminate |].
    apply Forall_app. split; [now apply He | now apply IH]. }
  apply Hg.
Qed.

Lemma valid_ints_writable (items : list json) (entries : list LeaderboardEntry) :
  forallb ints_writable items = true ->
  Forall2 valid_record items entries ->
  forallb entry_ints_writable entries = true.
Proof.
  intros Hl Hv.
  induction Hv as [| item entry items entries Hi _ IH]; [reflexivity |].
  cbn in Hl |- *. apply andb_prop in Hl as [H1 H2].
  rewrite (IH H2), andb_true_r.
  destruct Hi as (kw & -> & Hk). cbn in H1.
  destruct (init_inv kw entry Hk) as ((v1 & G1 & V1) & _ & _ & _ & (v5 & G5 & V5) & _ & _).
  destruct (dict_get_forallb _ _ _ _ H1 G1) as [k1 W1].
  destruct (dict_get_forallb _ _ _ _ H1 G5) as [k5 W5].
  cbn in W1, W5. unfold entry_ints_writable.
  now rewrite (validate_int_writable v1 _ W1 V1), (validate_int_writable v5 _ W5 V5).
Qed.

Lemma iterate_ints_writable (v : json) (items : list json) :
  ints_writable v = true ->
  iterate_result v = inr items ->
  forallb ints_writable items = true.
Proof.
  intros Hv Hi. destruct v; cbn in Hi; try discriminate; injection Hi as <-.
  - apply forallb_forall. intros x Hx. apply in_map_iff in Hx as (t & <- & _). reflexivity.
  - exact Hv.
  - apply forallb_forall. intros x Hx. apply in_map_iff in Hx as (t & <- & _). reflexivity.
Qed.

Lemma loaded_ints_writable (d : nat) (s : string) (items : list json)
      (entries : list LeaderboardEntry) :
  Decoder.loads d s = inr (JList items) ->
  Forall2 valid_record items entries ->
  forallb entry_ints_writable entries = true.
Proof.
  intros Hl Hv. apply loads_ints_writable in Hl. now apply (valid_ints_writable items).
Qed.

(** * The claims of the specification *)

(** ** C1: all-or-nothing validation *)

(** C1. When the payload is a list in which some record is rejected by the
    model, the comprehension stops at the first such record: the records
    after it are never constructed, the only line printed is the report of
    the exception, nothing is opened or written, and the output file is what
    it was before (absent if it was absent). *)
Theorem C1_all_or_nothing (r : CrawlResult) (w : World) (items : list json) :
  success r = true ->
  Decoder.loads (nesting w) (extracted_content r) = inr (JList items) ->
  Exists rejected items ->
  exists pre bad post e trace,
    items = (pre ++ bad :: post)%list /\
    Forall accepted pre /\
    construct_result bad = inl e /\
    trace = (Loads (extracted_content r) :: comprehension_events (pre ++ [bad])
               ++ [Print (Unexpected e)])%list /\
    main r w = (inr tt, add_events trace w) /\
    file (snd (main r w)) = file w /\
    forallb (fun ev => negb (is_file_event ev)) trace = true /\
    printed trace = [Unexpected e].
Proof.
  intros Hs Hl Hex.
  destruct (first_rejected items Hex) as (pre & bad & post & e & -> & Hpre & Hbad).
  pose proof (comprehension_result_first pre post bad e Hpre Hbad) as Hres.
  pose proof (comprehension_events_first pre post bad e Hpre Hbad) as Hev.
  assert (Hrun : main r w
                 = (inr tt,
                    add_events (Loads (extracted_content r)
                                  :: comprehension_events (pre ++ [bad])
                                  ++ [Print (Unexpected e)]) w)).
  { rewrite <- Hev. now apply (main_rejected r w (JList (pre ++ bad :: post))). }
  exists pre, bad, post, e. eexists. repeat split; try eassumption.
  - now rewrite Hrun.
  - cbn. rewrite forallb_app, comprehension_events_no_file. reflexivity.
  - cbn. now rewrite printed_app, comprehension_events_printed.
Qed.

Lemma C1_witness :
  success (ok mixed_payload) = true
  /\ Decoder.loads (nesting old_world) (extracted_content (ok mixed_payload))
     = inr (JList mixed_items)
  /\ Exists rejected mixed_items
  /\ exists pre bad post e trace,
      mixed_items = (pre ++ bad :: post)%list /\
      Forall accepted pre /\
      construct_result bad = inl e /\
      trace = (Loads (extracted_content (ok mixed_payload))
                 :: comprehension_events (pre ++ [bad]) ++ [Print (Unexpected e)])%list /\
      main (ok mixed_payload) old_world = (inr tt, add_events trace old_world) /\
      file (snd (main (ok mixed_payload) old_world)) = file old_world /\
      forallb (fun ev => negb (is_file_event ev)) trace = true /\
      printed trace = [Unexpected e].
Proof.
  assert (H1 : success (ok mixed_payload) = true) by reflexivity.
  assert (H2 : Decoder.loads (nesting old_world) (extracted_content (ok mixed_payload))
               = inr (JList mixed_items))
    by (vm_compute; reflexivity).
  assert (H3 : Exists rejected mixed_items).
  { apply Exists_cons_tl, Exists_cons_hd. eexists. vm_compute. reflexivity. }
  repeat split; try assumption.
  exact (C1_all_or_nothing (ok mixed_payload) old_world mixed_items H1 H2 H3).
Defined.

(** The run on the payload whose second record lacks five fields, written
    out: the first record is validated, the second raises, the third is
    never looked at, and the old file stays. *)
Example mixed_run :
  main (ok mixed_payload) old_world
  = (inr tt,
     {| file := Some "old";
        can_open := true;
        nesting := 900;
        events :=
          [ Loads mixed_payload;
            Validate [ ("rank", JInt 1); ("model", JStr "A"); ("arena score", JInt 1300);
                       ("95% CI", JStr "+1/-1"); ("votes", JInt 7);
                       ("organization", JStr "O"); ("license", JStr "MIT") ];
            Validate [ ("rank", JInt 2); ("model", JStr "B") ];
            Print (Unexpected (ValidationError
                     [ ("arena score", missing); ("95% CI", missing); ("votes", missing);
                       ("organization", missing); ("license", missing) ])) ] |}).
Proof. vm_compute. reflexivity. Qed.

(** ** C2: the scenario of the specification *)

(** C2. The record of the scenario is the one the instruction given to the
    language model asks for, with the keys [Rank], [Model] and [License]
    spelled with a capital.  The model has aliases for [arena score] and
    [95% CI] only and looks the other fields up under [rank], [model] and
    [license]: it finds none of them and raises, the generic handler prints
    the error, and no file is written. *)
Theorem C2_scenario_rejected :
  Decoder.loads (nesting new_world) scenario_payload = inr (JList [JDict scenario_record])
  /\ LeaderboardEntry_init scenario_record
     = inl (ValidationError [("rank", missing); ("model", missing); ("license", missing)])
  /\ main (ok scenario_payload) new_world
     = (inr tt,
        {| file := None;
           can_open := true;
           nesting := 900;
           events :=
             [ Loads scenario_payload;
               Validate scenario_record;
               Print (Unexpected (ValidationError
                        [("rank", missing); ("model", missing); ("license", missing)])) ] |}).
Proof.
  split; [| split]; vm_compute; reflexivity.
Qed.

(** ** C3: how failures are reported *)






(** The last lines of runs that meet the limits of the interpreter: a lone
    surrogate in a text written to the file or printed, a number of 4301
    digits, 901 brackets. *)
Example last_lines_at_the_limits :
  last_line (ok surrogate_license_payload) new_world = Unexpected UnicodeEncodeError
  /\ last_line (ok surrogate_model_payload) new_world = Unexpected UnicodeEncodeError
  /\ last_line (ok long_number_payload) new_world = Unexpected ValueError
  /\ last_line (ok deep_payload) new_world = Unexpected RecursionError.
Proof.
  repeat split; vm_compute; reflexivity.
Qed.

(** ** C4: text that is not JSON *)

(** A bracket followed by a number of 4301 digits and a text of 901
    brackets are not JSON; [json.loads] raises [ValueError] on the first
    and [RecursionError] on the second, and the script prints the generic
    line, not the invalid-JSON message. *)
Lemma C4_counterexample :
  Decoder.loads (nesting new_world) long_number_payload = inl ValueError
  /\ printed (events (snd (main (ok long_number_payload) new_world)))
     = [ Unexpected ValueError ]
  /\ Decoder.loads (nesting new_world) deep_payload = inl RecursionError
  /\ printed (events (snd (main (ok deep_payload) new_world)))
     = [ Unexpected RecursionError ].
Proof.
  repeat split; vm_compute; reflexivity.
Qed.

(** C4, amended. When [json.loads] raises on the extracted text, the script
    prints one line and ends normally; no constructor call is made, nothing
    is opened or written, and the output file is unchanged.  The line is the
    invalid-JSON message exactly when the exception is [JSONDecodeError]; it
    is the generic line with the exception when [json.loads] raised
    [ValueError], on an integer of more than 4300 digits, or
    [RecursionError], on nesting deeper than the interpreter allows. *)
Theorem C4_malformed_payload (r : CrawlResult) (w : World) (e : exn) :
  success r = true ->
  Decoder.loads (nesting w) (extracted_content r) = inl e ->
  (e = JSONDecodeError \/ e = ValueError \/ e = RecursionError)
  /\ main r w
     = (inr tt,
        add_events [ Loads (extracted_content r);
                     Print (if exn_is_decode e then Text invalid_json_message
                            else Unexpected e) ] w)
  /\ file (snd (main r w)) = file w
  /\ filter is_validate (events (snd (main r w))) = filter is_validate (events w)
  /\ filter is_file_event (events (snd (main r w))) = filter is_file_event (events w).
Proof.
  intros Hs Hl. split; [exact (loads_exn _ _ _ Hl) |].
  rewrite (main_undecodable r w e Hs Hl). cbn.
  rewrite !filter_app. cbn. rewrite !app_nil_r.
  repeat split. now destruct e.
Qed.

Lemma C4_witness :
  success (ok "[{") = true
  /\ Decoder.loads (nesting old_world) (extracted_content (ok "[{")) = inl JSONDecodeError
  /\ main (ok "[{") old_world
     = (inr tt, add_events [Loads "[{"; Print (Text invalid_json_message)] old_world)
  /\ file (snd (main (ok "[{") old_world)) = file old_world
  /\ filter is_validate (events (snd (main (ok "[{") old_world)))
     = filter is_validate (events old_world)
  /\ filter is_file_event (events (snd (main (ok "[{") old_world)))
     = filter is_file_event (events old_world).
Proof.
  assert (H1 : success (ok "[{") = true) by reflexivity.
  assert (H2 : Decoder.loads (nesting old_world) (extracted_content (ok "[{"))
               = inl JSONDecodeError) by (vm_compute; reflexivity).
  split; [exact H1 | split; [exact H2 |]].
  exact (proj2 (C4_malformed_payload (ok "[{") old_world JSONDecodeError H1 H2)).
Defined.

(** ** C5: the extraction service failed *)



(** ** C6: the output file *)

Lemma escape_char_unescaped (c : ascii) :
  unescaped c = true -> Encoder.escape_char c = String c EmptyString.
Proof.
  unfold unescaped, Encoder.escape_char. intro H.
  apply andb_prop in H as [H H92]. apply andb_prop in H as [H32 H34].
  apply Z.leb_le in H32. apply negb_true_iff in H34, H92. rewrite H34, H92.
  repeat match goal with
         | |- context [?a =? ?b] => replace (a =? b) with false by (symmetry; apply Z.eqb_neq; lia)
         end.
  replace (code c <? 32) with false by (symmetry; apply Z.ltb_ge; lia).
  reflexivity.
Qed.

Lemma escape_unescaped (s : string) :
  forall_chars unescaped s = true -> Encoder.escape s = s.
Proof.
  induction s as [| c s IH]; cbn; [reflexivity |].
  intro H. apply andb_prop in H as [Hc Hs].
  now rewrite (escape_char_unescaped c Hc), (IH Hs).
Qed.

Lemma non_ascii_unescaped (c : ascii) : non_ascii c = true -> unescaped c = true.
Proof.
  unfold non_ascii, unescaped. intro H. apply Z.leb_le in H.
  apply andb_true_intro; split; [apply andb_true_intro; split |].
  - apply Z.leb_le. lia.
  - apply negb_true_iff, Z.eqb_neq. lia.
  - apply negb_true_iff, Z.eqb_neq. lia.
Qed.

(** The text of a file that was written whole is read back as the value
    that was dumped, when the text of every score is. *)
Lemma written_reads_back (entries : list LeaderboardEntry) (d : nat) :
  forallb entry_writable entries = true ->
  forallb (fun entry => float_reads_back (arena_score entry)) entries = true ->
  Decoder.loads (S (S d)) (Encoder.dumps (dumped entries)) = inr (dumped entries).
Proof.
  intros Hw Hf. apply loads_dumps, Forall_forall. intros entry Hin.
  rewrite forallb_forall in Hw, Hf. specialize (Hw entry Hin). specialize (Hf entry Hin).
  unfold entry_writable in Hw. repeat (apply andb_prop in Hw as [Hw ?]).
  split; [now apply float_reads_back_sound | now split].
Qed.

(** A record with a lone surrogate in its license is accepted by the model,
    and [json.dump] raises when it reaches that text: the file, truncated
    when it was opened, keeps what was written before, which is not a JSON
    array. *)
Lemma C6_counterexample :
  Decoder.loads (nesting old_world) surrogate_license_payload
  = inr (JList [JDict (model_dump surrogate_license_entry)])
  /\ Forall2 valid_record [JDict (model_dump surrogate_license_entry)]
             [surrogate_license_entry]
  /\ main (ok surrogate_license_payload) old_world
     = (inr tt,
        {| file := Some surrogate_license_output;
           can_open := true;
           nesting := 900;
           events :=
             [ Loads surrogate_license_payload;
               Validate (model_dump surrogate_license_entry);
               Print (Text "Datos extraídos exitosamente (1 registros):");
               Print (Text " - X (Acme): 1300.5");
               Open OUTPUT_FILE;
               Write OUTPUT_FILE surrogate_license_output;
               Print (Unexpected UnicodeEncodeError) ] |})
  /\ Decoder.loads (nesting old_world) surrogate_license_output = inl JSONDecodeError.
Proof.
  split; [vm_compute; reflexivity |].
  split; [repeat constructor; eexists; split; [reflexivity | vm_compute; reflexivity] |].
  split; vm_compute; reflexivity.
Qed.

(** C6, amended. For a payload that is a list of [N] records, all accepted,
    none of whose texts holds a lone surrogate, and an output file that can
    be opened, the run ends normally and the file holds the array of the
    [N] entries in the order of the records: one object per entry, indented
    by two spaces, its fields by four, under the keys [rank], [model],
    [arena score], [95% CI], [votes], [organization], [license]; characters
    that are not the quote, the backslash or a control character, so all
    non-ASCII ones, are written as they are; each object is accepted by the
    model again; and [json.loads] reads the text of the file as the list of
    the objects dumped, when the text of every score reads back as the
    score. *)
Theorem C6_output_artifact (r : CrawlResult) (w : World) (items : list json)
        (entries : list LeaderboardEntry) :
  success r = true ->
  Decoder.loads (nesting w) (extracted_content r) = inr (JList items) ->
  Forall2 valid_record items entries ->
  forallb text_writable entries = true ->
  can_open w = true ->
  fst (main r w) = inr tt
  /\ file (snd (main r w)) = Some (Encoder.dumps (dumped entries))
  /\ filter is_file_event (events (snd (main r w)))
     = (filter is_file_event (events w)
          ++ [Open OUTPUT_FILE; Write OUTPUT_FILE (Encoder.dumps (dumped entries))])%list
  /\ Encoder.dumps (dumped entries) = array_text entries
  /\ List.length entries = List.length items
  /\ Forall (fun entry => keys (model_dump entry) = field_keys
                          /\ LeaderboardEntry_init (model_dump entry) = inr entry) entries
  /\ (forall s, forall_chars unescaped s = true -> quoted s = dq ++ s ++ dq)
  /\ (forall c, non_ascii c = true -> unescaped c = true)
  /\ (forall d,
        forallb (fun entry => float_reads_back (arena_score entry)) entries = true ->
        Decoder.loads (S (S d)) (Encoder.dumps (dumped entries)) = inr (dumped entries)).
Proof.
  intros Hs Hl Hv Ht Ho.
  assert (Hw : forallb entry_writable entries = true)
    by (now rewrite (loaded_entries_writable _ _ _ _ Hl Hv)).
  rewrite (main_saved r w (JList items) items entries Hs Hl eq_refl
             (comprehension_valid _ _ Hv) (writable_printable _ Hw) Ho Hw).
  cbn [fst snd file events].
  repeat split.
  - rewrite filter_app. cbn [filter is_file_event].
    rewrite !filter_app, filter_file_comprehension, filter_file_summary. reflexivity.
  - apply dumps_array_text.
  - symmetry. exact (Forall2_length Hv).
  - apply Forall_forall. intros entry _. split; [reflexivity | apply init_model_dump].
  - intros s Hu. unfold quoted. now rewrite (escape_unescaped s Hu).
  - apply non_ascii_unescaped.
  - intros d Hf. now apply written_reads_back.
Qed.

Lemma accented_loads :
  Decoder.loads (nesting old_world) (extracted_content (ok accented_payload))
  = inr (JList accented_items).
Proof. vm_compute. reflexivity. Qed.

Lemma accented_valid : Forall2 valid_record accented_items accented_entries.
Proof.
  repeat constructor; eexists; (split; [reflexivity | vm_compute; reflexivity]).
Qed.

Lemma C6_witness :
  success (ok accented_payload) = true
  /\ forallb text_writable accented_entries = true
  /\ can_open old_world = true
  /\ fst (main (ok accented_payload) old_world) = inr tt
  /\ file (snd (main (ok accented_payload) old_world))
     = Some (Encoder.dumps (dumped accented_entries))
  /\ filter is_file_event (events (snd (main (ok accented_payload) old_world)))
     = (filter is_file_event (events old_world)
          ++ [Open OUTPUT_FILE; Write OUTPUT_FILE (Encoder.dumps (dumped accented_entries))])%list
  /\ Encoder.dumps (dumped accented_entries) = array_text accented_entries
  /\ List.length accented_entries = List.length accented_items
  /\ Forall (fun entry => keys (model_dump entry) = field_keys
                          /\ LeaderboardEntry_init (model_dump entry) = inr entry)
            accented_entries
  /\ (forall s, forall_chars unescaped s = true -> quoted s = dq ++ s ++ dq)
  /\ (forall c, non_ascii c = true -> unescaped c = true)
  /\ (forall d,
        forallb (fun entry => float_reads_back (arena_score entry)) accented_entries = true ->
        Decoder.loads (S (S d)) (Encoder.dumps (dumped accented_entries))
        = inr (dumped accented_entries)).
Proof.
  split; [reflexivity | split; [reflexivity | split; [reflexivity |]]].
  exact (C6_output_artifact (ok accented_payload) old_world accented_items accented_entries
           eq_refl accented_loads accented_valid eq_refl eq_refl).
Defined.

(** The file written for the two accented records, as text: the accents
    are kept, the key that belongs to no field is gone, and the rank given
    as a string is an int. *)
Example accented_output :
  file (snd (main (ok accented_payload) old_world))
  = Some (concat_str
      [ "["; nl;
        qq "  {"; nl;
        qq "    'rank': 1,"; nl;
        qq "    'model': 'X',"; nl;
        qq "    'arena score': 1300.5,"; nl;
        qq "    '95% CI': '+2/-2',"; nl;
        qq "    'votes': 500,"; nl;
        qq "    'organization': 'Acme',"; nl;
        qq "    'license': 'MIT'"; nl;
        qq "  },"; nl;
        qq "  {"; nl;
        qq "    'rank': 2,"; nl;
        qq "    'model': 'Modèle é',"; nl;
        qq "    'arena score': 1299.0,"; nl;
        qq "    '95% CI': '±3',"; nl;
        qq "    'votes': 41,"; nl;
        qq "    'organization': 'Société',"; nl;
        qq "    'license': 'Apache 2.0'"; nl;
        qq "  }"; nl;
        "]" ])
  /\ Decoder.loads 2 (Encoder.dumps (dumped accented_entries)) = inr (dumped accented_entries)
  /\ Encoder.escape (qq "a'b\c") = chr 97 ++ chr 92 ++ dq ++ chr 98 ++ chr 92 ++ chr 92 ++ chr 99.
Proof. repeat split; vm_compute; reflexivity. Qed.

(** ** C7: dumping and validating again *)

(** C7. The objects produced by [model_dump(by_alias=True)] for any list of
    entries are accepted by the model and yield the same entries, field for
    field; dumping the entries read back gives the same value and the same
    text. *)
Theorem C7_round_trip (entries : list LeaderboardEntry) (w : World) :
  Forall2 valid_record (map (fun item => JDict (model_dump item)) entries) entries
  /\ fst (comprehension (map (fun item => JDict (model_dump item)) entries) w) = inr entries
  /\ match fst (comprehension (map (fun item => JDict (model_dump item)) entries) w) with
     | inr reread =>
         dumped reread = dumped entries
         /\ Encoder.dumps (dumped reread) = Encoder.dumps (dumped entries)
     | inl _ => False
     end.
Proof.
  pose proof (dumped_valid entries) as Hv.
  rewrite comprehension_run, (comprehension_valid _ _ Hv). cbn. auto.
Qed.

(** The text written for the two accented records decodes to the objects
    dumped, which validate to the same entries. *)
Example accented_text_round_trip :
  Decoder.loads (nesting old_world) (Encoder.dumps (dumped accented_entries))
  = inr (dumped accented_entries)
  /\ comprehension_result (map (fun item => JDict (model_dump item)) accented_entries)
     = inr accented_entries.
Proof. split; vm_compute; reflexivity. Qed.

(** ** C8: the console summary *)

Lemma summary_entry_occurs (entry : LeaderboardEntry) :
  occurs_in (model entry) (summary_entry entry)
  /\ occurs_in (organization entry) (summary_entry entry)
  /\ occurs_in (PyFloat.repr (arena_score entry)) (summary_entry entry).
Proof.
  unfold occurs_in, summary_entry. repeat split.
  - exists " - ", (" (" ++ organization entry ++ "): " ++ PyFloat.repr (arena_score entry)).
    reflexivity.
  - exists (" - " ++ model entry ++ " ("), ("): " ++ PyFloat.repr (arena_score entry)).
    now rewrite !str_app_assoc.
  - exists (" - " ++ model entry ++ " (" ++ organization entry ++ "): "), EmptyString.
    now rewrite append_nil_r, !str_app_assoc.
Qed.

Lemma score_text_exact_sound (x : float) :
  score_text_exact x = true -> Pydantic.parse_float (PyFloat.repr x) = Some x.
Proof.
  unfold score_text_exact.
  destruct (Pydantic.parse_float (PyFloat.repr x)) as [y |]; [| discriminate].
  intro H. now rewrite (same_float_eq y x H).
Qed.

(** The lines printed by a run in which every record is accepted: the
    summary, then the last line. *)
Lemma main_printed_valid (r : CrawlResult) (w : World) (items : list json)
      (entries : list LeaderboardEntry) :
  success r = true ->
  Decoder.loads (nesting w) (extracted_content r) = inr (JList items) ->
  comprehension_result items = inr entries ->
  printed (events (snd (main r w)))
  = (printed (events w) ++ printed (summary_events entries) ++ [last_line r w])%list.
Proof.
  intros Hs Hl Hc. unfold last_line, processing_error. rewrite Hs, Hl. cbn [iterate_result].
  rewrite Hc.
  destruct (summary_printable entries) eqn:Hp; cbn [negb].
  2: { rewrite (main_unprintable r w (JList items) items entries Hs Hl eq_refl Hc Hp).
       cbn [snd events add_events].
       rewrite printed_app. cbn [printed].
       now rewrite !printed_app, comprehension_events_printed. }
  destruct (can_open w) eqn:Ho.
  2: { rewrite (main_unwritable r w (JList items) items entries Hs Hl eq_refl Hc Hp Ho).
       cbn [snd events add_events].
       rewrite printed_app. cbn [printed].
       now rewrite !printed_app, comprehension_events_printed. }
  destruct (written entries) as [[e |] text] eqn:Hw; cbn [fst].
  - rewrite (main_partial r w (JList items) items entries e text Hs Hl eq_refl Hc Hp Ho Hw).
    cbn [snd events].
    rewrite printed_app. cbn [printed].
    now rewrite !printed_app, comprehension_events_printed.
  - apply written_none in Hw as [Hw _].
    rewrite (main_saved r w (JList items) items entries Hs Hl eq_refl Hc Hp Ho Hw).
    cbn [snd events].
    rewrite printed_app. cbn [printed].
    now rewrite !printed_app, comprehension_events_printed.
Qed.

Lemma printed_entries_prefix (l : list LeaderboardEntry) :
  forallb (fun entry => printable (Text (summary_entry entry))) l = false ->
  exists bad post,
    l = (printed_entries l ++ bad :: post)%list
    /\ printable (Text (summary_entry bad)) = false.
Proof.
  induction l as [| entry rest IH]; [discriminate |].
  cbn [forallb printed_entries].
  destruct (printable (Text (summary_entry entry))) eqn:E.
  - cbn [andb]. intro H. destruct (IH H) as (bad & post & Hl & Hb).
    exists bad, post. split; [| exact Hb]. cbn [app]. now rewrite <- Hl.
  - intros _. exists entry, rest. auto.
Qed.

(** A record whose name holds a lone surrogate is accepted by the model;
    the header is printed, the line of the record cannot be, and the run
    ends with the generic error: no record is listed and no file is
    opened. *)
Lemma C8_counterexample :
  Decoder.loads (nesting new_world) surrogate_model_payload
  = inr (JList [JDict (model_dump surrogate_model_entry)])
  /\ Forall2 valid_record [JDict (model_dump surrogate_model_entry)] [surrogate_model_entry]
  /\ main (ok surrogate_model_payload) new_world
     = (inr tt,
        {| file := None;
           can_open := true;
           nesting := 900;
           events :=
             [ Loads surrogate_model_payload;
               Validate (model_dump surrogate_model_entry);
               Print (Text "Datos extraídos exitosamente (1 registros):");
               Print (Unexpected UnicodeEncodeError) ] |}).
Proof.
  split; [vm_compute; reflexivity |].
  split; [repeat constructor; eexists; split; [reflexivity | vm_compute; reflexivity] |].
  vm_compute. reflexivity.
Qed.

(** C8, amended. When every record of the list is accepted, the lines
    printed by the run are: the header with the number [N] of records, then
    one line for each of the first three entries in order (all of them
    when [N <= 3]), holding its model, organization and score, then the
    last line of the run.  The list stops before the first of these
    entries whose model or organization holds a lone surrogate, and the
    last line is then the generic error; when no text of the entries holds
    one, all three lines are printed, and the last line is the path of the
    file saved if the file can be opened.  The text of a score that passes
    the check reads as the score itself. *)
Theorem C8_console_summary (r : CrawlResult) (w : World) (items : list json)
        (entries : list LeaderboardEntry) :
  success r = true ->
  Decoder.loads (nesting w) (extracted_content r) = inr (JList items) ->
  Forall2 valid_record items entries ->
  printed (events (snd (main r w)))
  = (printed (events w)
       ++ Text (summary_header (List.length items))
       :: map (fun entry => Text (summary_entry entry)) (printed_entries (firstn 3 entries))
       ++ [last_line r w])%list
  /\ (summary_printable entries = true
      -> printed_entries (firstn 3 entries) = firstn 3 entries
         /\ (can_open w = false -> last_line r w = Unexpected OSError))
  /\ (forallb text_writable entries = true
      -> printed_entries (firstn 3 entries) = firstn 3 entries
         /\ (can_open w = true -> last_line r w = Text saved_message))
  /\ (summary_printable entries = false
      -> last_line r w = Unexpected UnicodeEncodeError
         /\ exists bad post,
             firstn 3 entries = (printed_entries (firstn 3 entries) ++ bad :: post)%list
             /\ (has_surrogate (model bad) = true \/ has_surrogate (organization bad) = true))
  /\ List.length (firstn 3 entries) = Nat.min 3 (List.length items)
  /\ summary_header (List.length items)
     = "Datos extraídos exitosamente (" ++ repr_int (Z.of_nat (List.length items))
         ++ " registros):"
  /\ Forall (fun entry =>
               summary_entry entry
               = " - " ++ model entry ++ " (" ++ organization entry ++ "): "
                       ++ PyFloat.repr (arena_score entry)
               /\ occurs_in (model entry) (summary_entry entry)
               /\ occurs_in (organization entry) (summary_entry entry)
               /\ occurs_in (PyFloat.repr (arena_score entry)) (summary_entry entry)
               /\ (score_text_exact (arena_score entry) = true
                   -> Pydantic.parse_float (PyFloat.repr (arena_score entry))
                      = Some (arena_score entry)))
            (firstn 3 entries).
Proof.
  intros Hs Hl Hv.
  pose proof (comprehension_valid _ _ Hv) as Hc.
  pose proof (Forall2_length Hv) as Hlen.
  pose proof (loaded_entries_writable _ _ _ _ Hl Hv) as Hwt.
  split; [| split; [| split; [| split; [| split; [| split]]]]].
  - rewrite (main_printed_valid r w items entries Hs Hl Hc), printed_summary, Hlen.
    reflexivity.
  - intro Hp. split; [now apply printed_entries_all |].
    intro Ho. unfold last_line, processing_error. rewrite Hs, Hl. cbn [iterate_result].
    now rewrite Hc, Hp, Ho.
  - intro Ht. rewrite <- Hwt in Ht. pose proof (writable_printable _ Ht) as Hp.
    split; [now apply printed_entries_all |].
    intro Ho. unfold last_line, processing_error. rewrite Hs, Hl. cbn [iterate_result].
    rewrite Hc, Hp, Ho. cbn [negb]. now rewrite (written_complete entries Ht).
  - intro Hp. split.
    + unfold last_line, processing_error. rewrite Hs, Hl. cbn [iterate_result].
      now rewrite Hc, Hp.
    + destruct (printed_entries_prefix _ Hp) as (bad & post & E & Hb).
      exists bad, post. split; [exact E |].
      rewrite summary_entry_printable in Hb.
      destruct (has_surrogate (model bad)); [now left |].
      destruct (has_surrogate (organization bad)); [now right | discriminate].
  - rewrite length_firstn, Hlen. reflexivity.
  - reflexivity.
  - apply Forall_forall. intros entry _. split; [reflexivity |].
    destruct (summary_entry_occurs entry) as (H1 & H2 & H3).
    repeat split; try assumption. apply score_text_exact_sound.
Qed.

Lemma four_loads :
  Decoder.loads (nesting old_world) (extracted_content (ok four_payload))
  = inr (JList four_items).
Proof. vm_compute. reflexivity. Qed.

Lemma four_valid : Forall2 valid_record four_items four_entries.
Proof.
  repeat constructor; eexists; (split; [reflexivity | vm_compute; reflexivity]).
Qed.

Lemma C8_witness :
  success (ok four_payload) = true
  /\ printed (events (snd (main (ok four_payload) old_world)))
     = [ Text "Datos extraídos exitosamente (4 registros):";
         Text " - A (Lab): 1399.0";
         Text " - B (Lab): 1398.0";
         Text " - C (Lab): 1397.0";
         Text saved_message ]
  /\ forallb (fun entry => score_text_exact (arena_score entry)) four_entries = true.
Proof.
  split; [reflexivity |].
  split; [| vm_compute; reflexivity].
  rewrite (proj1 (C8_console_summary (ok four_payload) old_world four_items four_entries
                    eq_refl four_loads four_valid)).
  vm_compute. reflexivity.
Defined.

(** ** C9: keys that belong to no field *)

Lemma dict_get_set_other {A} (d : dict A) (k k' : string) (v : A) :
  k <> k' -> dict_get (dict_set d k v) k' = dict_get d k'.
Proof.
  intro Hne. induction d as [| [k0 v0] d IH]; cbn.
  - destruct (String.eqb_spec k k'); [contradiction | reflexivity].
  - destruct (String.eqb_spec k0 k) as [-> | Hk0]; cbn.
    + destruct (String.eqb_spec k k'); [contradiction | reflexivity].
    + destruct (String.eqb_spec k0 k'); [reflexivity | exact IH].
Qed.

Lemma init_ext (kw kw' : dict json) :
  (forall k, In k field_keys -> dict_get kw' k = dict_get kw k) ->
  LeaderboardEntry_init kw' = LeaderboardEntry_init kw.
Proof.
  intro H. unfold LeaderboardEntry_init, Pydantic.field.
  rewrite !H by (cbn; tauto). reflexivity.
Qed.

Lemma model_dump_other_key (entry : LeaderboardEntry) (k : string) :
  ~ In k field_keys -> dict_get (model_dump entry) k = None.
Proof.
  intro H. unfold model_dump. cbn [dict_get].
  repeat match goal with
         | |- context [String.eqb ?a k] =>
             destruct (String.eqb_spec a k) as [<- | _]; [exfalso; apply H; cbn; tauto |]
         end.
  reflexivity.
Qed.

(** A record with an acceptable value under every key is accepted. *)
Lemma init_accepts (kw : dict json) :
  (forall k, In k field_keys ->
             exists v, dict_get kw k = Some v /\ field_accepts k v = true) ->
  exists entry, LeaderboardEntry_init kw = inr entry.
Proof.
  intro H.
  unfold LeaderboardEntry_init, Pydantic.field.
  destruct (H "rank") as (v1 & -> & A1); [cbn; tauto |].
  destruct (H "model") as (v2 & -> & A2); [cbn; tauto |].
  destruct (H "arena score") as (v3 & -> & A3); [cbn; tauto |].
  destruct (H "95% CI") as (v4 & -> & A4); [cbn; tauto |].
  destruct (H "votes") as (v5 & -> & A5); [cbn; tauto |].
  destruct (H "organization") as (v6 & -> & A6); [cbn; tauto |].
  destruct (H "license") as (v7 & -> & A7); [cbn; tauto |].
  unfold field_accepts in *. cbn [String.eqb Ascii.eqb Bool.eqb orb] in A1, A2, A3, A4, A5, A6, A7.
  destruct (Pydantic.validate_int v1); [discriminate |].
  destruct (Pydantic.validate_str v2); [discriminate |].
  destruct (Pydantic.validate_float v3); [discriminate |].
  destruct (Pydantic.validate_str v4); [discriminate |].
  destruct (Pydantic.validate_int v5); [discriminate |].
  destruct (Pydantic.validate_str v6); [discriminate |].
  destruct (Pydantic.validate_str v7); [discriminate |].
  cbn. eauto.
Qed.

(** The object dumped for an accepted record holds, under the key of each
    field, the value validated from what the record holds there. *)
Lemma dumped_field_value (kw : dict json) (entry : LeaderboardEntry) (k : string) (v : json) :
  LeaderboardEntry_init kw = inr entry ->
  In k field_keys ->
  dict_get kw k = Some v ->
  dict_get (model_dump entry) k = field_value k v.
Proof.
  intros Hi Hk Hg.
  destruct (init_inv kw entry Hi)
    as ((v1 & G1 & V1) & (v2 & G2 & V2) & (v3 & G3 & V3) & (v4 & G4 & V4)
        & (v5 & G5 & V5) & (v6 & G6 & V6) & (v7 & G7 & V7)).
  cbn in Hk.
  repeat (destruct Hk as [<- | Hk];
          [match goal with
           | G : dict_get kw ?key = Some ?x |- dict_get _ ?key = _ =>
               rewrite G in Hg; injection Hg as <-
           end;
           unfold field_value; cbn [String.eqb Ascii.eqb Bool.eqb orb];
           first [rewrite V1 | rewrite V2 | rewrite V3 | rewrite V4
                 | rewrite V5 | rewrite V6 | rewrite V7];
           reflexivity |]).
  contradiction.
Qed.

Lemma well_typed_value (k : string) (v : json) :
  well_typed k v = true -> field_value k v = Some v.
Proof.
  unfold well_typed, field_value.
  destruct (String.eqb k "rank" || String.eqb k "votes");
    [| destruct (String.eqb k "arena score")];
    destruct v; try discriminate; reflexivity.
Qed.

(** C9. A record that holds, under each of the seven keys, a value its field
    accepts is accepted whatever other keys it holds.  The object dumped for
    it has the seven keys and no other; under each key it holds the value
    validated from the value of the record, which is that value itself when
    it has the type of the field; adding or changing a key that belongs to
    no field changes nothing; and when the record is the payload, the file
    holds the array of that one object. *)
Theorem C9_extra_keys_dropped (kw : dict json) :
  (forall k, In k field_keys ->
             exists v, dict_get kw k = Some v /\ field_accepts k v = true) ->
  exists entry,
    LeaderboardEntry_init kw = inr entry
    /\ keys (model_dump entry) = field_keys
    /\ (forall k, ~ In k field_keys -> dict_get (model_dump entry) k = None)
    /\ (forall k v, In k field_keys -> dict_get kw k = Some v ->
                    dict_get (model_dump entry) k = field_value k v)
    /\ (forall k v, In k field_keys -> dict_get kw k = Some v -> well_typed k v = true ->
                    dict_get (model_dump entry) k = Some v)
    /\ (forall k v, ~ In k field_keys -> LeaderboardEntry_init (dict_set kw k v) = inr entry)
    /\ (forall r w,
          success r = true ->
          Decoder.loads (nesting w) (extracted_content r) = inr (JList [JDict kw]) ->
          text_writable entry = true ->
          can_open w = true ->
          file (snd (main r w)) = Some (array_text [entry])).
Proof.
  intro H.
  destruct (init_accepts kw H) as [entry Hinit]. exists entry.
  split; [exact Hinit |].
  split; [reflexivity |].
  split; [intros k Hk; now apply model_dump_other_key |].
  split; [intros k v Hk Hg; now apply (dumped_field_value kw) |].
  split.
  { intros k v Hk Hg Ht. rewrite (dumped_field_value kw entry k v Hinit Hk Hg).
    now apply well_typed_value. }
  split.
  { intros k v Hk. rewrite <- Hinit. apply init_ext.
    intros k' Hk'. apply dict_get_set_other. intros ->. contradiction. }
  intros r w Hs Hl Ht Ho.
  assert (Hv : Forall2 valid_record [JDict kw] [entry]).
  { repeat constructor. exists kw. auto. }
  assert (Hw : forallb entry_writable [entry] = true).
  { rewrite (loaded_entries_writable _ _ _ _ Hl Hv). cbn. now rewrite Ht. }
  rewrite (main_saved r w (JList [JDict kw]) [JDict kw] [entry] Hs Hl eq_refl
             (comprehension_valid _ _ Hv) (writable_printable _ Hw) Ho Hw).
  cbn [snd file]. now rewrite dumps_array_text.
Qed.

Lemma C9_witness :
  exists entry,
    LeaderboardEntry_init extra_record = inr entry
    /\ keys (model_dump entry) = field_keys
    /\ (forall k, ~ In k field_keys -> dict_get (model_dump entry) k = None)
    /\ (forall k v, In k field_keys -> dict_get extra_record k = Some v ->
                    dict_get (model_dump entry) k = field_value k v)
    /\ (forall k v, In k field_keys -> dict_get extra_record k = Some v ->
                    well_typed k v = true -> dict_get (model_dump entry) k = Some v)
    /\ (forall k v, ~ In k field_keys
                    -> LeaderboardEntry_init (dict_set extra_record k v) = inr entry)
    /\ (forall r w,
          success r = true ->
          Decoder.loads (nesting w) (extracted_content r) = inr (JList [JDict extra_record]) ->
          text_writable entry = true ->
          can_open w = true ->
          file (snd (main r w)) = Some (array_text [entry])).
Proof.
  apply (C9_extra_keys_dropped extra_record).
  intros k Hk. cbn in Hk.
  repeat (destruct Hk as [<- | Hk];
          [eexists; split; [reflexivity | vm_compute; reflexivity] |]).
  contradiction.
Defined.

(** The record with two keys that belong to no field, and the object
    dumped for it, written out. *)
Example extra_record_dumped :
  LeaderboardEntry_init extra_record
  = inr {| rank := 3; model := "M"; arena_score := score_1250_5; ci_95 := "+4/-4";
           votes := 12; organization := "Org"; license := "MIT" |}
  /\ match LeaderboardEntry_init extra_record with
     | inr entry =>
         model_dump entry
         = [ ("rank", JInt 3); ("model", JStr "M"); ("arena score", JFloat score_1250_5);
             ("95% CI", JStr "+4/-4"); ("votes", JInt 12); ("organization", JStr "Org");
             ("license", JStr "MIT") ]
     | inl _ => False
     end.
Proof. split; vm_compute; reflexivity. Qed.

(** ** C10: coercion of the typed fields *)

(** C10. A record whose [rank] and [votes] are decimal-digit strings and
    whose [arena score] is an int that [float] can represent is accepted,
    with the ints read from the digits and the float nearest to the int,
    which is the int itself up to [2^53]: every int up to there is accepted
    by a [float] field, with a float of exactly its value.  A value is
    refused by an [int] field only if it is not an int, not a bool, not such
    a digit string and not a finite float with an integral value inside the
    64-bit range, and refused for its type only if it is null, a list or an
    object; by a [float] field only if it is not a float, not a bool and not
    an int that [float] can represent. *)
Theorem C10_coercion (r v : string) (n : Z) (x : float) (m c o l : string) :
  digit_string r ->
  digit_string v ->
  PyFloat.of_int n = Some x ->
  Pydantic.validate_int (JStr r) = inr (digits_value 0 r)
  /\ Pydantic.validate_float (JInt n) = inr x
  /\ (Z.abs n <= 2 ^ 53 -> PyFloat.to_integral x = Some n)
  /\ (forall k, Z.abs k <= 2 ^ 53 ->
                exists y, Pydantic.validate_float (JInt k) = inr y
                          /\ PyFloat.to_integral y = Some k)
  /\ LeaderboardEntry_init (coerced_record r v n m c o l)
     = inr {| rank := digits_value 0 r; model := m; arena_score := x; ci_95 := c;
              votes := digits_value 0 v; organization := o; license := l |}
  /\ (forall u t,
         Pydantic.validate_int u = inl t ->
         (forall k, u <> JInt k) /\ (forall b, u <> JBool b)
         /\ (forall s, u = JStr s -> ~ digit_string s)
         /\ (forall y z, u = JFloat y -> PyFloat.is_finite y = true ->
                         PyFloat.to_integral y = Some z -> ~ (- 2 ^ 63 < z < 2 ^ 63))
         /\ (t = int_type -> u = JNull \/ (exists a, u = JList a) \/ (exists d, u = JDict d)))
  /\ (forall u t,
         Pydantic.validate_float u = inl t ->
         (forall y, u <> JFloat y) /\ (forall b, u <> JBool b)
         /\ (forall k y, u = JInt k -> PyFloat.of_int k <> Some y)).
Proof.
  intros Hr Hv Hn.
  assert (Hri : Pydantic.validate_int (JStr r) = inr (digits_value 0 r))
    by (exact (str_as_int_digits r Hr)).
  assert (Hnf : Pydantic.validate_float (JInt n) = inr x)
    by (unfold Pydantic.validate_float; now rewrite Hn).
  split; [exact Hri |].
  split; [exact Hnf |].
  split.
  { intro Hb. destruct (of_int_exact n Hb) as (y & Hy & Hz). congruence. }
  split.
  { intros k Hb. destruct (of_int_exact k Hb) as (y & Hy & Hz).
    exists y. split; [| exact Hz]. unfold Pydantic.validate_float. now rewrite Hy. }
  split.
  { unfold LeaderboardEntry_init, coerced_record, Pydantic.field.
    cbn [dict_get String.eqb Ascii.eqb Bool.eqb].
    unfold Pydantic.validate_int, Pydantic.validate_float, Pydantic.validate_str.
    rewrite (str_as_int_digits r Hr), (str_as_int_digits v Hv), Hn.
    reflexivity. }
  split.
  - intros u t H. repeat split.
    + intros k ->. discriminate.
    + intros b ->. discriminate.
    + intros s -> Hs. unfold Pydantic.validate_int in H.
      rewrite (str_as_int_digits s Hs) in H. discriminate.
    + intros y z -> Hfin Hz [Hlo Hhi]. unfold Pydantic.validate_int, Pydantic.float_as_int in H.
      rewrite Hfin, Hz in H. cbn [negb] in H.
      replace (- 2 ^ 63 <? z) with true in H by (symmetry; apply Z.ltb_lt; exact Hlo).
      replace (z <? 2 ^ 63) with true in H by (symmetry; apply Z.ltb_lt; exact Hhi).
      discriminate.
    + intros ->. destruct u as [| b | k | y | s | a | d]; cbn in H; eauto; try discriminate.
      * unfold Pydantic.float_as_int in H.
        destruct (negb (PyFloat.is_finite y)); [discriminate |].
        destruct (PyFloat.to_integral y) as [z |]; [| discriminate].
        destruct ((- 2 ^ 63 <? z) && (z <? 2 ^ 63)); discriminate.
      * exfalso. revert H. unfold Pydantic.str_as_int.
        repeat match goal with
               | |- (if ?b then _ else _) = _ -> _ => destruct b; [discriminate |]
               | |- (let '(_, _) := ?p in _) = _ -> _ => destruct p
               | |- match ?o with Some _ => _ | None => _ end = _ -> _ =>
                   destruct o; [| discriminate]
               end.
        discriminate.
  - intros u t H. repeat split.
    + intros y ->. discriminate.
    + intros b ->. discriminate.
    + intros k y -> Hk. unfold Pydantic.validate_float in H. rewrite Hk in H. discriminate.
Qed.

Lemma C10_witness :
  digit_string "1"
  /\ digit_string "500"
  /\ PyFloat.of_int 1300 = Some score_1300
  /\ Pydantic.validate_int (JStr "1") = inr 1
  /\ Pydantic.validate_float (JInt 1300) = inr (S754_finite false 5717460464435200 (-42))
  /\ PyFloat.to_integral (S754_finite false 5717460464435200 (-42)) = Some 1300
  /\ LeaderboardEntry_init (coerced_record "1" "500" 1300 "X" "+2/-2" "Acme" "MIT")
     = inr {| rank := 1; model := "X";
              arena_score := S754_finite false 5717460464435200 (-42);
              ci_95 := "+2/-2"; votes := 500; organization := "Acme"; license := "MIT" |}
  /\ PyFloat.repr (S754_finite false 5717460464435200 (-42)) = "1300.0".
Proof.
  assert (H1 : digit_string "1").
  { split; [discriminate | split; [reflexivity | vm_compute; discriminate]]. }
  assert (H2 : digit_string "500").
  { split; [discriminate | split; [reflexivity | vm_compute; discriminate]]. }
  assert (H3 : PyFloat.of_int 1300 = Some score_1300) by (vm_compute; reflexivity).
  split; [exact H1 | split; [exact H2 | split; [exact H3 |]]].
  destruct (C10_coercion "1" "500" 1300 score_1300 "X" "+2/-2" "Acme" "MIT"
              H1 H2 H3) as (A & B & C & _ & D & _).
  split; [exact A | split; [exact B | split; [| split; [exact D | reflexivity]]]].
  apply C. vm_compute. discriminate.
Defined.

(** * Further properties of the program *)

(** ** The output file over all runs *)

Lemma comprehension_sound (items : list json) :
  forall entries,
    comprehension_result items = inr entries -> Forall2 valid_record items entries.
Proof.
  induction items as [| item rest IH]; cbn; intros entries H.
  - injection H as <-. constructor.
  - destruct (construct_result item) as [e | entry] eqn:Hc; [discriminate |].
    destruct (comprehension_result rest) as [e | es] eqn:Hr; [discriminate |].
    injection H as <-. constructor; [| now apply IH].
    destruct item; cbn in Hc; try discriminate. exists d. auto.
Qed.

(** X1. Whatever the result of the crawler and the state of the file, a run
    does one of three things with the output file.  It leaves it as it was
    and opens nothing.  Or it opens it once, which truncates it, and closes
    it with a text in it, and this happens only when the crawler succeeded,
    the text decoded, every item was accepted, the summary was printed and
    the file could be opened; the text is then the whole dump of the
    entries, when none of their texts holds a lone surrogate, or else a
    first part of it that is not the whole, when [json.dump] raised
    [UnicodeEncodeError] on the way, and the generic handler reported it.
    The permission of the file is never changed. *)
Theorem output_file_untouched_partial_or_complete (r : CrawlResult) (w : World) :
  can_open (snd (main r w)) = can_open w
  /\ ((file (snd (main r w)) = file w
       /\ filter is_file_event (events (snd (main r w))) = filter is_file_event (events w))
      \/ exists v items entries text,
           success r = true
           /\ can_open w = true
           /\ Decoder.loads (nesting w) (extracted_content r) = inr v
           /\ iterate_result v = inr items
           /\ Forall2 valid_record items entries
           /\ summary_printable entries = true
           /\ file (snd (main r w)) = Some text
           /\ filter is_file_event (events (snd (main r w)))
              = (filter is_file_event (events w)
                   ++ [Open OUTPUT_FILE; Write OUTPUT_FILE text])%list
           /\ ((forallb text_writable entries = true
                /\ text = Encoder.dumps (dumped entries)
                /\ last_line r w = Text saved_message)
               \/ (forallb text_writable entries = false
                   /\ (exists rest, rest <> EmptyString
                                    /\ Encoder.dumps (dumped entries) = text ++ rest)
                   /\ last_line r w = Unexpected UnicodeEncodeError))).
Proof.
  destruct (success r) eqn:Hs.
  2: { rewrite (main_failed r w Hs). cbn. split; [reflexivity | left].
       rewrite filter_app. cbn. now rewrite app_nil_r. }
  destruct (Decoder.loads (nesting w) (extracted_content r)) as [e | v] eqn:Hl.
  { rewrite (main_undecodable r w e Hs Hl). cbn. split; [reflexivity | left].
    rewrite filter_app. destruct e; cbn; now rewrite app_nil_r. }
  destruct (iterate_result v) as [e | items] eqn:Hi.
  { rewrite (main_not_iterable r w v e Hs Hl Hi). cbn. split; [reflexivity | left].
    rewrite filter_app. cbn. now rewrite app_nil_r. }
  destruct (comprehension_result items) as [e | entries] eqn:Hc.
  { rewrite (main_rejected r w v items e Hs Hl Hi Hc). cbn. split; [reflexivity | left].
    rewrite filter_app. cbn. rewrite filter_app, filter_file_comprehension. cbn.
    now rewrite app_nil_r. }
  destruct (summary_printable entries) eqn:Hp.
  2: { rewrite (main_unprintable r w v items entries Hs Hl Hi Hc Hp).
       cbn [snd file can_open events add_events]. split; [reflexivity | left].
       split; [reflexivity |].
       rewrite filter_app. cbn [filter is_file_event].
       rewrite !filter_app, filter_file_comprehension, filter_file_summary.
       cbn. now rewrite app_nil_r. }
  destruct (can_open w) eqn:Ho.
  2: { rewrite (main_unwritable r w v items entries Hs Hl Hi Hc Hp Ho).
       cbn [snd file can_open events add_events]. split; [exact Ho | left].
       split; [reflexivity |].
       rewrite filter_app. cbn [filter is_file_event].
       rewrite !filter_app, filter_file_comprehension, filter_file_summary.
       cbn. now rewrite app_nil_r. }
  assert (Hlast : last_line r w
                  = match fst (written entries) with
                    | Some e => Unexpected e
                    | None => Text saved_message
                    end).
  { unfold last_line, processing_error. now rewrite Hs, Hl, Hi, Hc, Hp, Ho. }
  assert (Hints : forallb entry_ints_writable entries = true).
  { apply (valid_ints_writable items); [| now apply comprehension_sound].
    apply (iterate_ints_writable v); [| exact Hi]. exact (loads_ints_writable _ _ _ Hl). }
  assert (Hwt : forallb entry_writable entries = forallb text_writable entries).
  { clear - Hints. induction entries as [| entry rest IH]; [reflexivity |].
    cbn in Hints |- *. apply andb_prop in Hints as [H1 H2].
    now rewrite entry_writable_split, H1, (IH H2). }
  destruct (written entries) as [[e |] text] eqn:Hw; cbn [fst] in Hlast.
  - pose proof (written_exn_text entries e text Hints Hw) as ->.
    rewrite (main_partial r w v items entries _ text Hs Hl Hi Hc Hp Ho Hw).
    cbn [snd file can_open events]. split; [reflexivity | right].
    exists v, items, entries, text.
    destruct (written_partial entries _ text Hw) as [Hnw Hrest]. rewrite Hwt in Hnw.
    repeat (split; [solve [auto using comprehension_sound] |]).
    split.
    + rewrite filter_app. cbn [filter is_file_event].
      rewrite !filter_app, filter_file_comprehension, filter_file_summary. reflexivity.
    + right. split; [exact Hnw |]. split; [exact Hrest | exact Hlast].
  - apply written_none in Hw as [Hw ->]. pose proof Hw as Hw'. rewrite Hwt in Hw'.
    rewrite (main_saved r w v items entries Hs Hl Hi Hc Hp Ho Hw).
    cbn [snd file can_open events]. split; [reflexivity | right].
    exists v, items, entries, (Encoder.dumps (dumped entries)).
    repeat (split; [solve [auto using comprehension_sound] |]).
    split.
    + rewrite filter_app. cbn [filter is_file_event].
      rewrite !filter_app, filter_file_comprehension, filter_file_summary. reflexivity.
    + left. auto.
Qed.

(** ** Payloads that are not lists *)

Lemma chars_nonempty (c : ascii) (s : string) : exists t l, chars (String c s) = t :: l.
Proof.
  cbn. destruct (chars s) as [| t l]; [eauto |].
  destruct t as [| c' t']; [eauto |].
  destruct ((128 <=? code c') && (code c' <? 192)); eauto.
Qed.

(** X2. A payload that decodes to something other than a list is iterated as
    Python iterates it.  The empty object and the empty string hold no item:
    the run reports zero records and saves the empty array.  Any other object
    or string yields keys or characters, which are not mappings, and numbers,
    booleans and null cannot be iterated: the run prints the generic error
    with a [TypeError], constructs nothing and leaves the file alone. *)
Theorem payload_not_a_list (r : CrawlResult) (w : World) (v : json) :
  success r = true ->
  Decoder.loads (nesting w) (extracted_content r) = inr v ->
  (forall l, v <> JList l) ->
  match v with
  | JDict [] | JStr EmptyString => main r w = zero_records_run (extracted_content r) w
  | _ =>
      main r w
      = (inr tt, add_events [Loads (extracted_content r); Print (Unexpected TypeError)] w)
  end.
Proof.
  intros Hs Hl Hv.
  assert (Hzero : forall items, iterate_result v = inr items -> items = [] ->
                                main r w = zero_records_run (extracted_content r) w).
  { intros items Hi ->. unfold zero_records_run. destruct (can_open w) eqn:Ho.
    - rewrite (main_saved r w v [] [] Hs Hl Hi eq_refl eq_refl Ho eq_refl). reflexivity.
    - rewrite (main_unwritable r w v [] [] Hs Hl Hi eq_refl eq_refl Ho). reflexivity. }
  assert (Hstr : forall items k rest, iterate_result v = inr items -> items = JStr k :: rest ->
                   main r w
                   = (inr tt,
                      add_events [Loads (extracted_content r); Print (Unexpected TypeError)] w)).
  { intros items k rest Hi ->.
    now rewrite (main_rejected r w v (JStr k :: rest) TypeError Hs Hl Hi eq_refl). }
  destruct v as [| b | n | x | s | l | d].
  - now apply (main_not_iterable r w JNull).
  - now apply (main_not_iterable r w (JBool b)).
  - now apply (main_not_iterable r w (JInt n)).
  - now apply (main_not_iterable r w (JFloat x)).
  - destruct s as [| c s].
    + now apply (Hzero []).
    + destruct (chars_nonempty c s) as (t & l & Hc).
      apply (Hstr (map JStr (chars (String c s))) t (map JStr l)); [reflexivity |].
      now rewrite Hc.
  - now destruct (Hv l).
  - destruct d as [| [k x] d].
    + now apply (Hzero []).
    + now apply (Hstr (map JStr (keys ((k, x) :: d))) k (map JStr (keys d))).
Qed.

Lemma payload_not_a_list_witness :
  main (ok (qq "{'rank':1,'model':'X'}")) old_world
  = (inr tt, add_events [Loads (qq "{'rank':1,'model':'X'}"); Print (Unexpected TypeError)]
               old_world).
Proof.
  apply (payload_not_a_list (ok (qq "{'rank':1,'model':'X'}")) old_world
           (JDict [("rank", JInt 1); ("model", JStr "X")])).
  - reflexivity.
  - vm_compute. reflexivity.
  - intros l H. discriminate H.
Defined.

(** ** Which fields a [ValidationError] names *)

Lemma field_outcome {A} (kw : dict json) (key : string) (validate : json -> error_type + A) :
  (exists a, Pydantic.field kw key validate = inr a
             /\ exists v, dict_get kw key = Some v /\ validate v = inr a)
  \/ (exists t, Pydantic.field kw key validate = inl [(key, t)]
                /\ ((t = missing /\ dict_get kw key = None)
                    \/ exists v, dict_get kw key = Some v /\ validate v = inl t)).
Proof.
  unfold Pydantic.field. destruct (dict_get kw key) as [v |].
  - destruct (validate v) as [t | a] eqn:E; [right | left]; eauto 8.
  - right. eauto 8.
Qed.

Lemma str_as_int_not_missing (s : string) : Pydantic.str_as_int s <> inl missing.
Proof.
  unfold Pydantic.str_as_int.
  repeat match goal with
         | |- (if ?b then _ else _) <> _ => destruct b; [discriminate |]
         | |- (let '(_, _) := ?p in _) <> _ => destruct p
         | |- match ?o with Some _ => _ | None => _ end <> _ =>
             destruct o; [| discriminate]
         end.
  discriminate.
Qed.

Lemma validate_int_not_missing (v : json) : Pydantic.validate_int v <> inl missing.
Proof.
  destruct v; cbn; try discriminate.
  - unfold Pydantic.float_as_int.
    repeat match goal with
           | |- context [if ?b then _ else _] => destruct b
           | |- context [match ?x with _ => _ end] => destruct x
           end; discriminate.
  - apply str_as_int_not_missing.
Qed.

Lemma validate_float_not_missing (v : json) : Pydantic.validate_float v <> inl missing.
Proof.
  destruct v; cbn; try discriminate.
  - destruct (PyFloat.of_int n); discriminate.
  - unfold Pydantic.str_as_float.
    repeat match goal with
           | |- (if ?b then _ else _) <> _ => destruct b; try discriminate
           | |- match ?o with Some _ => _ | None => _ end <> _ =>
               destruct o; try discriminate
           end.
Qed.

Lemma validate_str_not_missing (v : json) : Pydantic.validate_str v <> inl missing.
Proof.
  destruct v; cbn; discriminate.
Qed.

Lemma field_ok_rank (kw : dict json) (key : string) :
  key = "rank" \/ key = "votes" ->
  (exists a, Pydantic.field kw key Pydantic.validate_int = inr a /\ field_ok kw key = true)
  \/ (exists t, Pydantic.field kw key Pydantic.validate_int = inl [(key, t)]
                /\ field_ok kw key = false
                /\ (t = missing <-> dict_get kw key = None)).
Proof.
  intro Hk. unfold field_ok.
  destruct (field_outcome kw key Pydantic.validate_int)
    as [(a & -> & v & -> & Hv) | (t & -> & [[-> ->] | (v & -> & Hv)])].
  - left. exists a. split; [reflexivity |].
    unfold field_accepts. destruct Hk as [-> | ->]; cbn; now rewrite Hv.
  - right. exists missing. tauto.
  - right. exists t. split; [reflexivity |]. split.
    + unfold field_accepts. destruct Hk as [-> | ->]; cbn; now rewrite Hv.
    + split; [| discriminate]. intros ->. now destruct (validate_int_not_missing v).
Qed.

Lemma field_ok_score (kw : dict json) :
  (exists a, Pydantic.field kw "arena score" Pydantic.validate_float = inr a
             /\ field_ok kw "arena score" = true)
  \/ (exists t, Pydantic.field kw "arena score" Pydantic.validate_float
                = inl [("arena score", t)]
                /\ field_ok kw "arena score" = false
                /\ (t = missing <-> dict_get kw "arena score" = None)).
Proof.
  unfold field_ok.
  destruct (field_outcome kw "arena score" Pydantic.validate_float)
    as [(a & -> & v & -> & Hv) | (t & -> & [[-> ->] | (v & -> & Hv)])].
  - left. exists a. split; [reflexivity |]. unfold field_accepts. cbn. now rewrite Hv.
  - right. exists missing. tauto.
  - right. exists t. split; [reflexivity |]. split.
    + unfold field_accepts. cbn. now rewrite Hv.
    + split; [| discriminate]. intros ->. now destruct (validate_float_not_missing v).
Qed.

Lemma field_ok_text (kw : dict json) (key : string) :
  key = "model" \/ key = "95% CI" \/ key = "organization" \/ key = "license" ->
  (exists a, Pydantic.field kw key Pydantic.validate_str = inr a /\ field_ok kw key = true)
  \/ (exists t, Pydantic.field kw key Pydantic.validate_str = inl [(key, t)]
                /\ field_ok kw key = false
                /\ (t = missing <-> dict_get kw key = None)).
Proof.
  intro Hk. unfold field_ok.
  destruct (field_outcome kw key Pydantic.validate_str)
    as [(a & -> & v & -> & Hv) | (t & -> & [[-> ->] | (v & -> & Hv)])].
  - left. exists a. split; [reflexivity |].
    unfold field_accepts. destruct Hk as [-> | [-> | [-> | ->]]]; cbn; now rewrite Hv.
  - right. exists missing. tauto.
  - right. exists t. split; [reflexivity |]. split.
    + unfold field_accepts. destruct Hk as [-> | [-> | [-> | ->]]]; cbn; now rewrite Hv.
    + split; [| discriminate]. intros ->. now destruct (validate_str_not_missing v).
Qed.

Lemma ap_errors {A B} (f : list Pydantic.line_error + (A -> B))
      (x : list Pydantic.line_error + A) :
  errors_of (Pydantic.ap f x) = (errors_of f ++ errors_of x)%list.
Proof.
  destruct f, x; cbn; auto using List.app_nil_r.
Qed.

Lemma ap_is_value {A B} (f : list Pydantic.line_error + (A -> B))
      (x : list Pydantic.line_error + A) :
  is_value (Pydantic.ap f x) = is_value f && is_value x.
Proof.
  destruct f, x; reflexivity.
Qed.

Lemma field_report_rank (kw : dict json) (key : string) :
  key = "rank" \/ key = "votes" ->
  field_report kw key (Pydantic.field kw key Pydantic.validate_int).
Proof.
  intro Hk. unfold field_report.
  destruct (field_ok_rank kw key Hk) as [(a & -> & ->) | (t & -> & -> & M)]; cbn.
  - split; [reflexivity | split; [reflexivity | intros k' t' []]].
  - split; [reflexivity | split; [reflexivity |]].
    intros k' t' [H | []]. injection H as <- <-. exact M.
Qed.

Lemma field_report_score (kw : dict json) :
  field_report kw "arena score" (Pydantic.field kw "arena score" Pydantic.validate_float).
Proof.
  unfold field_report.
  destruct (field_ok_score kw) as [(a & -> & ->) | (t & -> & -> & M)]; cbn.
  - split; [reflexivity | split; [reflexivity | intros k' t' []]].
  - split; [reflexivity | split; [reflexivity |]].
    intros k' t' [H | []]. injection H as <- <-. exact M.
Qed.

Lemma field_report_text (kw : dict json) (key : string) :
  key = "model" \/ key = "95% CI" \/ key = "organization" \/ key = "license" ->
  field_report kw key (Pydantic.field kw key Pydantic.validate_str).
Proof.
  intro Hk. unfold field_report.
  destruct (field_ok_text kw key Hk) as [(a & -> & ->) | (t & -> & -> & M)]; cbn.
  - split; [reflexivity | split; [reflexivity | intros k' t' []]].
  - split; [reflexivity | split; [reflexivity |]].
    intros k' t' [H | []]. injection H as <- <-. exact M.
Qed.

Lemma if_negb_singleton (b : bool) (k : string) :
  (if b then [] else [k]) = (if negb b then [k] else []).
Proof. now destruct b. Qed.

Lemma filter_cons_app {A} (g : A -> bool) (a : A) (l : list A) :
  filter g (a :: l) = ((if g a then [a] else []) ++ filter g l)%list.
Proof.
  cbn. now destruct (g a).
Qed.

Lemma filter_negb_nil {A} (g : A -> bool) (l : list A) :
  filter (fun a => negb (g a)) l = [] -> forallb g l = true.
Proof.
  induction l as [| a l IH]; cbn; [reflexivity |].
  destruct (g a); cbn; [exact IH | discriminate].
Qed.

(** X3. The constructor reports every field that fails, not the first one
    only: when it raises, the [ValidationError] names exactly the keys that
    are absent or hold a value their field refuses, each once and in the
    order of the fields, with the kind [missing] exactly for the absent
    ones; keys that belong to no field are never named.  It returns an
    entry exactly when no field fails. *)
Theorem validation_names_every_failing_field (kw : dict json) :
  match LeaderboardEntry_init kw with
  | inr _ => forallb (field_ok kw) field_keys = true
  | inl e =>
      exists errors,
        e = ValidationError errors
        /\ errors <> []
        /\ map fst errors = filter (fun key => negb (field_ok kw key)) field_keys
        /\ (forall key t, In (key, t) errors -> (t = missing <-> dict_get kw key = None))
  end.
Proof.
  unfold LeaderboardEntry_init.
  destruct (field_report_rank kw "rank") as (V1 & K1 & M1); [tauto |].
  destruct (field_report_text kw "model") as (V2 & K2 & M2); [tauto |].
  destruct (field_report_score kw) as (V3 & K3 & M3).
  destruct (field_report_text kw "95% CI") as (V4 & K4 & M4); [tauto |].
  destruct (field_report_rank kw "votes") as (V5 & K5 & M5); [tauto |].
  destruct (field_report_text kw "organization") as (V6 & K6 & M6); [tauto |].
  destruct (field_report_text kw "license") as (V7 & K7 & M7); [tauto |].
  match goal with
  | |- match (match ?f with inr _ => _ | inl _ => _ end) with _ => _ end => set (fields := f)
  end.
  assert (Hv : is_value fields
               = forallb (field_ok kw) field_keys).
  { unfold fields. rewrite !ap_is_value, V1, V2, V3, V4, V5, V6, V7. cbn.
    rewrite Bool.andb_true_r, <- !Bool.andb_assoc. reflexivity. }
  assert (Hk : map fst (errors_of fields)
               = filter (fun key => negb (field_ok kw key)) field_keys).
  { unfold fields, field_keys. rewrite !ap_errors, !map_app.
    unfold Pydantic.line_error in *. rewrite K1, K2, K3, K4, K5, K6, K7.
    rewrite !filter_cons_app. cbn [errors_of map filter app].
    rewrite <- !app_assoc, List.app_nil_r, !if_negb_singleton. reflexivity. }
  assert (Hm : forall key t, In (key, t) (errors_of fields)
                             -> (t = missing <-> dict_get kw key = None)).
  { unfold fields. intros key t H. rewrite !ap_errors, !in_app_iff in H.
    cbn [errors_of In] in H.
    repeat (destruct H as [H | H]); try contradiction; eauto. }
  clearbody fields.
  destruct fields as [errors | entry]; cbn [errors_of is_value] in Hv, Hk, Hm.
  - exists errors. split; [reflexivity |]. split; [| split; [exact Hk | exact Hm]].
    intros ->. cbn [map] in Hk. symmetry in Hk. apply filter_negb_nil in Hk.
    congruence.
  - now rewrite <- Hv.
Qed.

(** Four records that differ by the text of the rank: an underscore after
    the sign and a dot without a zero are reported under [rank]; a no-break
    space before the digit and a double underscore after a zero are not. *)
Example rank_texts_reported :
  LeaderboardEntry_init (coerced_record "-_1" "5" 1300 "X" "+2/-2" "Acme" "MIT")
  = inl (ValidationError [("rank", int_parsing)])
  /\ LeaderboardEntry_init (coerced_record "1." "x" 1300 "X" "+2/-2" "Acme" "MIT")
     = inl (ValidationError [("rank", int_parsing); ("votes", int_parsing)])
  /\ LeaderboardEntry_init
       (coerced_record (Decoder.utf8 160 ++ "1") "5" 1300 "X" "+2/-2" "Acme" "MIT")
     = inr {| rank := 1; model := "X"; arena_score := score_1300; ci_95 := "+2/-2";
              votes := 5; organization := "Acme"; license := "MIT" |}
  /\ LeaderboardEntry_init (coerced_record "0__7" "1_000.0" 1300 "X" "+2/-2" "Acme" "MIT")
     = inr {| rank := 7; model := "X"; arena_score := score_1300; ci_95 := "+2/-2";
              votes := 1000; organization := "Acme"; license := "MIT" |}.
Proof. repeat split; vm_compute; reflexivity. Qed.

(** ** Objects: distinct keys, and their order *)

Lemma existsb_eqb_In (k : string) (l : list string) :
  existsb (String.eqb k) l = true <-> In k l.
Proof.
  rewrite existsb_exists. split.
  - intros (x & Hx & E). apply String.eqb_eq in E. now subst.
  - intro H. exists k. split; [exact H | apply String.eqb_refl].
Qed.

Lemma distinct_NoDup (l : list string) : distinct l = true <-> NoDup l.
Proof.
  induction l as [| k l IH]; cbn.
  - split; [constructor | reflexivity].
  - rewrite Bool.andb_true_iff, Bool.negb_true_iff, IH. split.
    + intros [Hk Hl]. constructor; [| exact Hl].
      intro Hin. apply existsb_eqb_In in Hin. congruence.
    + intro H. inversion H as [| ? ? Hk Hl]; subst. split; [| exact Hl].
      destruct (existsb (String.eqb k) l) eqn:E; [| reflexivity].
      apply existsb_eqb_In in E. contradiction.
Qed.

Lemma keys_dict_set {A} (d : dict A) (k : string) (v : A) :
  keys (dict_set d k v) = if existsb (String.eqb k) (keys d) then keys d
                          else (keys d ++ [k])%list.
Proof.
  induction d as [| [k' v'] d IH]; cbn; [reflexivity |].
  rewrite (String.eqb_sym k k').
  destruct (String.eqb_spec k' k) as [-> | Hne]; cbn; [reflexivity |].
  unfold keys in IH. rewrite IH. now destruct (existsb (String.eqb k) (map fst d)).
Qed.

Lemma distinct_snoc (l : list string) (k : string) :
  distinct l = true -> existsb (String.eqb k) l = false -> distinct (l ++ [k]) = true.
Proof.
  rewrite !distinct_NoDup. intros Hl Hk.
  assert (Hn : ~ In k l) by (rewrite <- existsb_eqb_In; congruence).
  induction l as [| a l IH]; cbn.
  - constructor; [tauto | constructor].
  - inversion Hl as [| ? ? Ha Hl']; subst. constructor.
    + rewrite in_app_iff. cbn. intros [H | [H | []]]; [contradiction |].
      subst. apply Hn. now left.
    + apply IH; [exact Hl' | | ].
      * cbn in Hk. apply Bool.orb_false_iff in Hk. tauto.
      * intro H. apply Hn. now right.
Qed.

Lemma distinct_dict_set {A} (d : dict A) (k : string) (v : A) :
  distinct (keys d) = true -> distinct (keys (dict_set d k v)) = true.
Proof.
  intro H. rewrite keys_dict_set.
  destruct (existsb (String.eqb k) (keys d)) eqn:E; [exact H |].
  now apply distinct_snoc.
Qed.

Lemma forallb_dict_set {A} (p : string * A -> bool) (d : dict A) (k : string) (v : A) :
  (forall k', p (k', v) = true) ->
  forallb p d = true -> forallb p (dict_set d k v) = true.
Proof.
  intros Hv. induction d as [| [k' v'] d IH]; cbn.
  - intros _. now rewrite Hv.
  - intro H. apply Bool.andb_true_iff in H as [H1 H2].
    destruct (String.eqb k' k); cbn.
    + now rewrite Hv, H2.
    + now rewrite H1, IH.
Qed.

Lemma match_number_unique (s : string) (v : json) (r : string) :
  Decoder.match_number s = inr (v, r) -> unique_keys v = true.
Proof.
  unfold Decoder.match_number.
  destruct (Decoder.minus_sign s) as [neg s1].
  destruct (Decoder.integer_part s1) as [[ip s2] |]; [| discriminate].
  destruct (Decoder.fraction_part s2) as [fp s3].
  destruct (Decoder.exponent_part s3) as [ex s4].
  destruct fp, ex; try (intro H; injection H as <- _; reflexivity).
  destruct (max_str_digits <? slen ip); [discriminate |].
  intro H. injection H as <- _. reflexivity.
Qed.

Lemma unique_keys_scan (f : nat) :
  (forall d s v r, Decoder.scan_once f d s = inr (v, r) -> unique_keys v = true)
  /\ (forall d s acc v r,
         Decoder.parse_array f d s acc = inr (v, r) ->
         forallb unique_keys acc = true -> unique_keys v = true)
  /\ (forall d s acc v r,
         Decoder.parse_object f d s acc = inr (v, r) ->
         unique_keys (JDict acc) = true -> unique_keys v = true).
Proof.
  induction f as [| f (IHs & IHa & IHo)].
  { repeat split; intros; discriminate. }
  repeat split.
  - intros d s v r H. destruct s as [| c t]; [discriminate |].
    rewrite scan_once_unfold in H. cbv zeta in H.
    destruct (code c =? 34).
    { destruct (Decoder.scanstring (S (String.length t)) t) as [[u rest] |];
        [| discriminate].
      injection H as <- _. reflexivity. }
    destruct (code c =? 123).
    { destruct d as [| d]; [discriminate |].
      destruct (prefix "}" (Decoder.skip_ws t)).
      - injection H as <- _. reflexivity.
      - now apply IHo in H. }
    destruct (code c =? 91).
    { destruct d as [| d]; [discriminate |].
      destruct (prefix "]" (Decoder.skip_ws t)).
      - injection H as <- _. reflexivity.
      - now apply IHa in H. }
    repeat match type of H with
           | (if ?b then inr _ else _) = _ =>
               destruct b; [injection H as <- _; reflexivity |]
           end.
    now apply match_number_unique in H.
  - intros d s acc v r H Hacc. rewrite parse_array_unfold in H.
    destruct (Decoder.scan_once f d s) as [e | [x t]] eqn:E; [discriminate |].
    apply IHs in E.
    assert (Hacc' : forallb unique_keys (acc ++ [x]) = true).
    { rewrite forallb_app, Hacc. cbn. now rewrite E. }
    destruct (prefix "]" (Decoder.skip_ws t)); [injection H as <- _; exact Hacc' |].
    destruct (prefix "," (Decoder.skip_ws t)); [| discriminate].
    now apply IHa in H.
  - intros d s acc v r H Hacc. destruct s as [| c t]; [discriminate |].
    rewrite parse_object_unfold in H.
    destruct (negb (code c =? 34)); [discriminate |].
    destruct (Decoder.scanstring (S (String.length t)) t) as [[k r1] |]; [| discriminate].
    destruct (negb (prefix ":" (Decoder.skip_ws r1))); [discriminate |].
    destruct (Decoder.scan_once f d (Decoder.skip_ws (Decoder.drop 1 (Decoder.skip_ws r1))))
      as [e | [x r3]] eqn:E3; [discriminate |].
    apply IHs in E3.
    assert (Hacc' : unique_keys (JDict (dict_set acc k x)) = true).
    { cbn in Hacc |- *. apply Bool.andb_true_iff in Hacc as [H1 H2].
      rewrite (distinct_dict_set acc k x H1). cbn.
      apply forallb_dict_set; [intro; exact E3 | exact H2]. }
    destruct (prefix "}" (Decoder.skip_ws r3)); [injection H as <- _; exact Hacc' |].
    destruct (prefix "," (Decoder.skip_ws r3)); [| discriminate].
    now apply IHo in H.
Qed.

(** X4. In every value that [json.loads] returns, the keys of each object,
    at any depth, are pairwise different: a key written twice in the text
    gives one key, with the value written last. *)
Theorem loads_unique_keys (d : nat) (s : string) (v : json) :
  Decoder.loads d s = inr v -> unique_keys v = true.
Proof.
  unfold Decoder.loads.
  destruct (Decoder.scan_once (2 * String.length s + 2) d (Decoder.skip_ws s))
    as [e | [x r]] eqn:E; [discriminate |].
  destruct (Decoder.skip_ws r); [| discriminate].
  intro H. injection H as <-.
  exact (proj1 (unique_keys_scan _) _ _ _ _ E).
Qed.

Lemma loads_unique_keys_witness :
  Decoder.loads 900 (qq "[{'rank':1,'votes':2,'rank':3}]")
  = inr (JList [JDict [("rank", JInt 3); ("votes", JInt 2)]])
  /\ unique_keys (JList [JDict [("rank", JInt 3); ("votes", JInt 2)]]) = true.
Proof.
  assert (H : Decoder.loads 900 (qq "[{'rank':1,'votes':2,'rank':3}]")
              = inr (JList [JDict [("rank", JInt 3); ("votes", JInt 2)]]))
    by (vm_compute; reflexivity).
  split; [exact H |].
  exact (loads_unique_keys _ _ _ H).
Defined.

Lemma dict_get_perm {A} (d d' : dict A) (k : string) :
  Permutation d d' -> NoDup (keys d) -> dict_get d' k = dict_get d k.
Proof.
  induction 1 as [| [k0 v0] l l' Hp IH | [k1 v1] [k2 v2] l | l l' l'' Hp1 IH1 Hp2 IH2];
    intro Hn.
  - reflexivity.
  - cbn in *. inversion Hn; subst. destruct (String.eqb k0 k); auto.
  - cbn in *. inversion Hn as [| ? ? Hin _]; subst.
    destruct (String.eqb_spec k1 k) as [-> | H1], (String.eqb_spec k2 k) as [-> | H2];
      try reflexivity.
    exfalso. apply Hin. now left.
  - rewrite IH2, IH1; [reflexivity | exact Hn |].
    unfold keys. apply (Permutation_NoDup (l := map fst l)); [| exact Hn].
    now apply Permutation_map.
Qed.

(** X5. The order in which a record lists its keys does not matter: two
    records with the same pairs, the keys of which are pairwise different,
    give the same entry or the same error. *)
Theorem key_order_does_not_matter (kw kw' : dict json) :
  Permutation kw kw' ->
  distinct (keys kw) = true ->
  LeaderboardEntry_init kw' = LeaderboardEntry_init kw.
Proof.
  intros Hp Hd. apply init_ext. intros k _.
  apply dict_get_perm; [exact Hp | now apply distinct_NoDup].
Qed.

Lemma key_order_does_not_matter_witness :
  Permutation (model_dump lowercase_entry) (rev (model_dump lowercase_entry))
  /\ distinct (keys (model_dump lowercase_entry)) = true
  /\ LeaderboardEntry_init (rev (model_dump lowercase_entry)) = inr lowercase_entry.
Proof.
  split; [apply Permutation_rev | split; [reflexivity |]].
  rewrite (key_order_does_not_matter (model_dump lowercase_entry)
             (rev (model_dump lowercase_entry)) (Permutation_rev _) eq_refl).
  apply init_model_dump.
Defined.

(** ** Reading the file back *)

(** X6. The text [json.dump] leaves in the file when it completes is read
    by [json.loads] as the list of objects that was dumped: same objects,
    same order, same keys and values; for entries whose score passes the
    round trip of [repr] and [float], and with room for two levels of
    nesting.  The same holds of the whole text of the dump whenever the ints
    of the entries have at most 4300 digits, whatever their texts hold. *)
Theorem written_file_reads_back (entries : list LeaderboardEntry) (d : nat) :
  forallb (fun entry => float_reads_back (arena_score entry)) entries = true ->
  (forall text,
      written entries = (None, text) ->
      text = Encoder.dumps (dumped entries)
      /\ Decoder.loads (S (S d)) text = inr (dumped entries))
  /\ (forallb (fun entry => int_writable (rank entry) && int_writable (votes entry)) entries
      = true ->
      Decoder.loads (S (S d)) (Encoder.dumps (dumped entries)) = inr (dumped entries)).
Proof.
  intro Hf. split.
  - intros text Hw. apply written_none in Hw as [Hw ->].
    split; [reflexivity | now apply written_reads_back].
  - intro Hi. apply loads_dumps, Forall_forall. intros entry Hin.
    rewrite forallb_forall in Hi, Hf. specialize (Hi entry Hin). specialize (Hf entry Hin).
    apply andb_prop in Hi as [Hr Hv].
    split; [now apply float_reads_back_sound | now split].
Qed.

Lemma written_file_reads_back_witness :
  forallb (fun entry => float_reads_back (arena_score entry)) accented_entries = true
  /\ written accented_entries = (None, Encoder.dumps (dumped accented_entries))
  /\ Decoder.loads 2 (Encoder.dumps (dumped accented_entries)) = inr (dumped accented_entries).
Proof.
  assert (H : forallb (fun entry => float_reads_back (arena_score entry)) accented_entries
              = true) by (vm_compute; reflexivity).
  assert (Hw : written accented_entries = (None, Encoder.dumps (dumped accented_entries)))
    by (vm_compute; reflexivity).
  split; [exact H | split; [exact Hw |]].
  exact (proj2 (proj1 (written_file_reads_back accented_entries 0 H) _ Hw)).
Defined.

(** X7. Given the content of a file it wrote whole as the extracted
    content, the program accepts every object, prints the same summary and
    writes the same file again; for entries whose score passes the round
    trip of [repr] and [float], a file that can be opened and room for two
    levels of nesting. *)
Theorem rerun_on_written_file (entries : list LeaderboardEntry) (text : string) (w : World) :
  forallb (fun entry => float_reads_back (arena_score entry)) entries = true ->
  written entries = (None, text) ->
  can_open w = true ->
  (2 <= nesting w)%nat ->
  main (ok text) w
  = (inr tt,
     {| file := Some text;
        can_open := true;
        nesting := nesting w;
        events := (events w ++ Loads text
                     :: map Validate (map model_dump entries)
                     ++ summary_events entries
                     ++ [ Open OUTPUT_FILE; Write OUTPUT_FILE text;
                          Print (Text saved_message); ShowUsage ])%list |}).
Proof.
  intros Hf Hw Ho Hn.
  apply written_none in Hw as [Hw ->].
  destruct (nesting w) as [| [| d]] eqn:En; [lia | lia |].
  assert (Hl : Decoder.loads (nesting w) (extracted_content (ok (Encoder.dumps (dumped entries))))
               = inr (dumped entries)).
  { rewrite En. now apply written_reads_back. }
  rewrite (main_saved (ok (Encoder.dumps (dumped entries))) w (dumped entries)
             (map (fun item => JDict (model_dump item)) entries) entries
             eq_refl Hl eq_refl (comprehension_valid _ _ (dumped_valid entries))
             (writable_printable _ Hw) Ho Hw).
  rewrite En. cbn [extracted_content ok]. unfold save_events.
  rewrite (comprehension_events_valid _ (Forall2_accepted _ _ (dumped_valid entries))
             (map model_dump entries)) by (now rewrite map_map).
  reflexivity.
Qed.

Lemma rerun_on_written_file_witness :
  forallb (fun entry => float_reads_back (arena_score entry)) accented_entries = true
  /\ written accented_entries = (None, Encoder.dumps (dumped accented_entries))
  /\ can_open old_world = true
  /\ (2 <= nesting old_world)%nat
  /\ file (snd (main (ok (Encoder.dumps (dumped accented_entries))) old_world))
     = Some (Encoder.dumps (dumped accented_entries)).
Proof.
  assert (H : forallb (fun entry => float_reads_back (arena_score entry)) accented_entries
              = true) by (vm_compute; reflexivity).
  assert (Hw : written accented_entries = (None, Encoder.dumps (dumped accented_entries)))
    by (vm_compute; reflexivity).
  assert (Hn : (2 <= nesting old_world)%nat) by (cbn; lia).
  split; [exact H | split; [exact Hw | split; [reflexivity | split; [exact Hn |]]]].
  rewrite (rerun_on_written_file accented_entries _ old_world H Hw eq_refl Hn). reflexivity.
Defined.

(** ** The usage report *)

Lemma comprehension_events_closing (items : list json) :
  forall ev, In ev (comprehension_events items) -> is_closing_event ev = false.
Proof.
  induction items as [| item rest IH]; intros ev H; [destruct H |].
  destruct item; try (now destruct H). cbn in H. destruct H as [<- | H]; [reflexivity |].
  destruct (LeaderboardEntry_init d); [destruct H | now apply IH].
Qed.

Lemma summary_events_closing (entries : list LeaderboardEntry) :
  forall ev, In ev (summary_events entries) -> is_closing_event ev = false.
Proof.
  unfold summary_events. intros ev [<- | H]; [reflexivity |].
  apply in_map_iff in H as (entry & <- & _). reflexivity.
Qed.

(** X8. [llm_strategy.show_usage()] is called in a run exactly when
    [json.dump] completed: then the run ends with opening the file, writing
    the text the file now holds, which is the whole dump, the line that
    names the file and the usage report, in this order and once.  When
    [json.dump] raised on the way, the run ends with opening the file,
    closing it with the part written and the generic error, and no usage is
    reported.  In every other run (failed extraction, text that
    [json.loads] refuses, a payload that cannot be iterated, a rejected
    record, a line of the summary that cannot be printed, a file that cannot
    be opened) nothing is opened or written and no usage is reported. *)
Theorem usage_report_follows_save (r : CrawlResult) (w : World) :
  exists evs,
    events (snd (main r w)) = (events w ++ evs)%list
    /\ ((forall ev, In ev evs -> is_closing_event ev = false)
        \/ (exists before entries,
             evs = (before ++ [ Open OUTPUT_FILE;
                                Write OUTPUT_FILE (Encoder.dumps (dumped entries));
                                Print (Text saved_message); ShowUsage ])%list
             /\ (forall ev, In ev before -> is_closing_event ev = false)
             /\ file (snd (main r w)) = Some (Encoder.dumps (dumped entries)))
        \/ (exists before text e,
             evs = (before ++ [ Open OUTPUT_FILE; Write OUTPUT_FILE text;
                                Print (Unexpected e) ])%list
             /\ (forall ev, In ev before -> is_closing_event ev = false)
             /\ file (snd (main r w)) = Some text)).
Proof.
  destruct (success r) eqn:Hs.
  2: { rewrite (main_failed r w Hs). eexists. split; [reflexivity | left].
       intros ev [<- | []]. reflexivity. }
  destruct (Decoder.loads (nesting w) (extracted_content r)) as [e | v] eqn:Hl.
  { rewrite (main_undecodable r w e Hs Hl). eexists. split; [reflexivity | left].
    intros ev [<- | [<- | []]]; reflexivity. }
  destruct (iterate_result v) as [e | items] eqn:Hi.
  { rewrite (main_not_iterable r w v e Hs Hl Hi). eexists. split; [reflexivity | left].
    intros ev [<- | [<- | []]]; reflexivity. }
  destruct (comprehension_result items) as [e | entries] eqn:Hc.
  { rewrite (main_rejected r w v items e Hs Hl Hi Hc). eexists. split; [reflexivity | left].
    intros ev [<- | H]; [reflexivity |].
    apply in_app_or in H as [H | [<- | []]]; [| reflexivity].
    now apply (comprehension_events_closing items). }
  assert (Hb : forall ev,
             In ev (Loads (extracted_content r) :: comprehension_events items
                      ++ summary_events entries)%list ->
             is_closing_event ev = false).
  { intros ev [<- | H]; [reflexivity |].
    apply in_app_or in H as [H | H];
      [now apply (comprehension_events_closing items)
      | now apply (summary_events_closing entries)]. }
  destruct (summary_printable entries) eqn:Hp.
  2: { rewrite (main_unprintable r w v items entries Hs Hl Hi Hc Hp).
       eexists. split; [reflexivity | left].
       intros ev H. rewrite app_comm_cons, app_assoc in H.
       apply in_app_or in H as [H | [<- | []]]; [| reflexivity].
       now apply Hb. }
  destruct (can_open w) eqn:Ho.
  2: { rewrite (main_unwritable r w v items entries Hs Hl Hi Hc Hp Ho).
       eexists. split; [reflexivity | left].
       intros ev H. rewrite app_comm_cons, app_assoc in H.
       apply in_app_or in H as [H | [<- | []]]; [| reflexivity].
       now apply Hb. }
  destruct (written entries) as [[e |] text] eqn:Hw.
  - rewrite (main_partial r w v items entries e text Hs Hl Hi Hc Hp Ho Hw).
    cbn [snd file events].
    eexists. split; [reflexivity | right; right].
    exists (Loads (extracted_content r) :: comprehension_events items
              ++ summary_events entries)%list, text, e.
    split; [| split; [exact Hb | reflexivity]].
    unfold file_events. cbn [app]. now rewrite <- !app_assoc.
  - apply written_none in Hw as [Hw _].
    rewrite (main_saved r w v items entries Hs Hl Hi Hc Hp Ho Hw). cbn [snd file events].
    eexists. split; [reflexivity | right; left].
    exists (Loads (extracted_content r) :: comprehension_events items
              ++ summary_events entries)%list, entries.
    split; [| split; [exact Hb | reflexivity]].
    unfold save_events. cbn [app]. now rewrite <- !app_assoc.
Qed.

(** ** A text that cannot be encoded *)

(** X9. When every record of the list is accepted, the summary can be
    printed and the file can be opened, but a text of some entry holds a
    lone surrogate, [json.dump] raises [UnicodeEncodeError] on the way: the
    file, truncated when it was opened, is closed with a first part of the
    dump that is not the whole, the generic handler reports the exception,
    the saved message is not printed and no usage is reported.  The ints
    never make [json.dump] raise: those that [json.loads] and the model let
    through have at most 4300 digits. *)
Theorem lone_surrogate_leaves_partial_file (r : CrawlResult) (w : World) (items : list json)
        (entries : list LeaderboardEntry) :
  success r = true ->
  Decoder.loads (nesting w) (extracted_content r) = inr (JList items) ->
  Forall2 valid_record items entries ->
  summary_printable entries = true ->
  can_open w = true ->
  forallb text_writable entries = false ->
  exists text rest,
    written entries = (Some UnicodeEncodeError, text)
    /\ Encoder.dumps (dumped entries) = text ++ rest
    /\ rest <> EmptyString
    /\ main r w
       = (inr tt,
          {| file := Some text;
             can_open := true;
             nesting := nesting w;
             events := (events w ++ Loads (extracted_content r)
                          :: comprehension_events items
                          ++ summary_events entries
                          ++ [ Open OUTPUT_FILE; Write OUTPUT_FILE text;
                               Print (Unexpected UnicodeEncodeError) ])%list |})
    /\ filter is_usage (events (snd (main r w))) = filter is_usage (events w)
    /\ forallb entry_ints_writable entries = true.
Proof.
  intros Hs Hl Hv Hp Ho Ht.
  pose proof (loaded_ints_writable _ _ _ _ Hl Hv) as Hi.
  pose proof (loaded_entries_writable _ _ _ _ Hl Hv) as Hw. rewrite Ht in Hw.
  destruct (written entries) as [[e |] text] eqn:E.
  2: { apply written_none in E as [E _]. congruence. }
  pose proof (written_exn_text entries e text Hi E) as ->.
  destruct (written_partial entries _ text E) as [_ (rest & Hne & Hd)].
  exists text, rest.
  pose proof (main_partial r w (JList items) items entries _ text Hs Hl eq_refl
                (comprehension_valid _ _ Hv) Hp Ho E) as Hm.
  split; [reflexivity |]. split; [exact Hd |]. split; [exact Hne |].
  split; [exact Hm |]. split; [| exact Hi].
  rewrite Hm. cbn [snd events]. rewrite filter_app. cbn [filter is_usage].
  rewrite !filter_app, filter_usage_comprehension, filter_usage_summary.
  cbn. now rewrite app_nil_r.
Qed.

Lemma lone_surrogate_leaves_partial_file_witness :
  forallb text_writable [surrogate_license_entry] = false
  /\ exists text rest,
      written [surrogate_license_entry] = (Some UnicodeEncodeError, text)
      /\ Encoder.dumps (dumped [surrogate_license_entry]) = text ++ rest
      /\ rest <> EmptyString
      /\ main (ok surrogate_license_payload) old_world
         = (inr tt,
            {| file := Some text;
               can_open := true;
               nesting := nesting old_world;
               events := (events old_world ++ Loads (extracted_content (ok surrogate_license_payload))
                            :: comprehension_events [JDict (model_dump surrogate_license_entry)]
                            ++ summary_events [surrogate_license_entry]
                            ++ [ Open OUTPUT_FILE; Write OUTPUT_FILE text;
                                 Print (Unexpected UnicodeEncodeError) ])%list |})
      /\ filter is_usage (events (snd (main (ok surrogate_license_payload) old_world)))
         = filter is_usage (events old_world)
      /\ forallb entry_ints_writable [surrogate_license_entry] = true.
Proof.
  split; [vm_compute; reflexivity |].
  apply (lone_surrogate_leaves_partial_file (ok surrogate_license_payload) old_world
           [JDict (model_dump surrogate_license_entry)] [surrogate_license_entry]).
  - reflexivity.
  - vm_compute. reflexivity.
  - repeat constructor. eexists. split; [reflexivity | vm_compute; reflexivity].
  - vm_compute. reflexivity.
  - reflexivity.
  - vm_compute. reflexivity.
Defined.

(** ** The scenario with the keys of the fields *)

(** X12. With the three keys in lower case the record of the scenario is
    accepted, and the output file holds the one object with rank 1, model X,
    arena score 1300.5, 95% CI +2/-2, votes 500, organization Acme and
    license MIT, which reads back as that entry. *)
Example lowercase_scenario :
  Decoder.loads (nesting new_world) lowercase_payload
  = inr (JList [JDict (model_dump lowercase_entry)])
  /\ LeaderboardEntry_init (model_dump lowercase_entry) = inr lowercase_entry
  /\ main (ok lowercase_payload) new_world
     = (inr tt,
        {| file := Some lowercase_output;
           can_open := true;
           nesting := 900;
           events :=
             [ Loads lowercase_payload;
               Validate (model_dump lowercase_entry);
               Print (Text "Datos extraídos exitosamente (1 registros):");
               Print (Text " - X (Acme): 1300.5");
               Open OUTPUT_FILE;
               Write OUTPUT_FILE lowercase_output;
               Print (Text saved_message);
               ShowUsage ] |})
  /\ Decoder.loads (nesting new_world) lowercase_output = inr (dumped [lowercase_entry]).
Proof.
  split; [| split; [| split]]; vm_compute; reflexivity.
Qed.

(** ** What the fields read *)

(** X10. What the model reads as an int and what it refuses, on texts that are
    not plain digits: white space of Unicode around the number, underscores
    between digits, leading zeros and a decimal part of zeros are taken; a
    dot without a zero after it, an underscore after the sign, a space
    inside the number and more than 4300 digits are not. *)
Example int_coercion_examples :
  Pydantic.validate_int (JStr (Decoder.utf8 160 ++ "1")) = inr 1
  /\ Pydantic.validate_int (JStr (" 42" ++ Decoder.utf8 8195)) = inr 42
  /\ Pydantic.validate_int (JStr "1_000.0") = inr 1000
  /\ Pydantic.validate_int (JStr "0__7") = inr 7
  /\ Pydantic.validate_int (JStr "+007") = inr 7
  /\ Pydantic.validate_int (JStr "-12.000") = inr (-12)
  /\ Pydantic.validate_int (JStr "1.") = inl int_parsing
  /\ Pydantic.validate_int (JStr "-_1") = inl int_parsing
  /\ Pydantic.validate_int (JStr "1 000") = inl int_parsing
  /\ Pydantic.validate_int (JStr "1.5") = inl int_parsing
  /\ Pydantic.validate_int (JStr (repeat_str "1" 4301)) = inl int_parsing_size
  /\ Pydantic.validate_int (JStr lone_surrogate) = inl string_unicode
  /\ Pydantic.validate_int (JFloat score_1300_5) = inl int_from_float
  /\ Pydantic.validate_int (JFloat score_1300) = inr 1300
  /\ Pydantic.validate_int (JBool true) = inr 1
  /\ Pydantic.validate_int JNull = inl int_type.
Proof. repeat split; vm_compute; reflexivity. Qed.

(** X11. What the model reads as a float: a float literal with white space
    of Unicode around it or underscores between its digits, an exponent,
    the names of the infinities and of NaN, an int that [float] can
    represent and a bool; a comma for the dot, the empty text, an int too
    large for a float and null are refused.  A [str] field takes a string
    only, also one with a lone surrogate. *)
Example float_coercion_examples :
  Pydantic.validate_float (JStr "1300.5") = inr score_1300_5
  /\ Pydantic.validate_float (JStr (Decoder.utf8 160 ++ "1300.5")) = inr score_1300_5
  /\ Pydantic.validate_float (JStr "1_300.5") = inr score_1300_5
  /\ Pydantic.validate_float (JStr "13005e-1") = inr score_1300_5
  /\ Pydantic.validate_float (JStr "Infinity") = inr (S754_infinity false)
  /\ Pydantic.validate_float (JStr "nan") = inr S754_nan
  /\ Pydantic.validate_float (JStr "1,5") = inl float_parsing
  /\ Pydantic.validate_float (JStr EmptyString) = inl float_parsing
  /\ Pydantic.validate_float (JInt 1300) = inr score_1300
  /\ Pydantic.validate_float (JInt (2 ^ 1024)) = inl float_type
  /\ Pydantic.validate_float (JBool true) = inr (S754_finite false 4503599627370496 (-52))
  /\ Pydantic.validate_float JNull = inl float_type
  /\ Pydantic.validate_str (JInt 1) = inl string_type
  /\ Pydantic.validate_str (JStr lone_surrogate) = inr lone_surrogate.
Proof. repeat split; vm_compute; reflexivity. Qed.
